(** * Product catalog service (src/app.js): model and properties

    The service keeps an array of product objects in memory and exposes
    seven Express route handlers over it.  This development embeds the
    handlers as functions on an explicit catalog state and proves the
    properties of the behavioural specification against them.

    Modelling choices, all taken from the source:
    - a JavaScript number is an IEEE 754 binary64 value, modelled by
      [spec_float] with precision 53 and maximal exponent 1024;
    - a request body field, a query parameter and a product name are JSON
      values ([jsval]); an absent key is [JUndefined];
    - a string is a byte string holding the UTF-8 encoding of the text;
    - [Date.now()] and [Math.floor(Math.random() * 1000)] are inputs of
      the creation, integers that are converted to numbers;
    - the catalog is the list of products in array order; a handler maps
      the catalog and its inputs to a response and the new catalog;
    - an exception that escapes a handler is the outcome [Uncaught]. *)

From Stdlib Require Import ZArith Floats.SpecFloat.
From Stdlib Require Import Lia.
From stdpp Require Import base option list strings.

Local Open Scope Z_scope.

(** ** JavaScript numbers *)

Module Num.

Definition num := spec_float.

Definition prec : Z := 53.
Definition emax : Z := 1024.

Definition nan : num := S754_nan.
Definition pzero : num := S754_zero false.

(** The number nearest to an integer (ties to even). *)
Definition of_Z (z : Z) : num := binary_normalize prec emax z 0 false.

(** The number nearest to the quotient [a / b] of two positive integers. *)
Definition of_ratio (neg : bool) (a b : positive) : num :=
  let '(q, e, l) := SFdiv_core_binary prec emax (Zpos a) 0 (Zpos b) 0 in
  binary_round_aux prec emax neg q e l.

Definition is_nan (x : num) : bool :=
  match x with S754_nan => true | _ => false end.

Definition is_zero (x : num) : bool :=
  match x with S754_zero _ => true | _ => false end.

(** [x + y], [x / y] and the four relational operators.  A comparison
    with NaN on either side is false. *)
Definition add (x y : num) : num := SFadd prec emax x y.
Definition div (x y : num) : num := SFdiv prec emax x y.
Definition lt (x y : num) : bool := SFltb x y.
Definition gt (x y : num) : bool := SFltb y x.
Definition le (x y : num) : bool := SFleb x y.
Definition ge (x y : num) : bool := SFleb y x.

(** [x === y] on numbers. *)
Definition eq (x y : num) : bool := SFeqb x y.

End Num.

Abbreviation num := Num.num.

(** ** Strings as sequences of byte codes, and their numeric value *)

Module Str.

(** The byte codes of a string. *)
Fixpoint codes (s : string) : list Z :=
  match s with
  | EmptyString => []
  | String c r => Z.of_N (Ascii.N_of_ascii c) :: codes r
  end.

(** One-byte white space and line terminators: TAB, LF, VT, FF, CR, SP. *)
Definition ws1 (c : Z) : bool :=
  ((9 <=? c) && (c <=? 13)) || (c =? 32).

(** Two-byte white space: U+00A0. *)
Definition ws2 (c1 c2 : Z) : bool := (c1 =? 194) && (c2 =? 160).

(** Three-byte white space: U+1680, U+2000..U+200A, U+2028, U+2029,
    U+202F, U+205F, U+3000, U+FEFF. *)
Definition ws3 (c1 c2 c3 : Z) : bool :=
  ((c1 =? 225) && (c2 =? 154) && (c3 =? 128))
  || ((c1 =? 226) && (c2 =? 128)
        && (((128 <=? c3) && (c3 <=? 138))
            || (c3 =? 168) || (c3 =? 169) || (c3 =? 175)))
  || ((c1 =? 226) && (c2 =? 129) && (c3 =? 159))
  || ((c1 =? 227) && (c2 =? 128) && (c3 =? 128))
  || ((c1 =? 239) && (c2 =? 187) && (c3 =? 191)).

(** Drop the leading white space. *)
Fixpoint skip_ws (l : list Z) : list Z :=
  match l with
  | [] => []
  | c1 :: r1 =>
      if ws1 c1 then skip_ws r1 else
      match r1 with
      | [] => l
      | c2 :: r2 =>
          if ws2 c1 c2 then skip_ws r2 else
          match r2 with
          | [] => l
          | c3 :: r3 => if ws3 c1 c2 c3 then skip_ws r3 else l
          end
      end
  end.

(** The value of a digit in a radix up to 36, if the byte is one. *)
Definition digit_val (radix c : Z) : option Z :=
  let v :=
    if (48 <=? c) && (c <=? 57) then c - 48
    else if (97 <=? c) && (c <=? 122) then c - 97 + 10
    else if (65 <=? c) && (c <=? 90) then c - 65 + 10
    else 36 in
  if v <? radix then Some v else None.

(** The longest prefix of digits: its value from accumulator [acc], the
    number of digits read and the rest of the input. *)
Fixpoint digits (radix : Z) (l : list Z) (acc : Z) (n : Z) : Z * Z * list Z :=
  match l with
  | [] => (acc, n, [])
  | c :: r =>
      match digit_val radix c with
      | Some v => digits radix r (acc * radix + v) (n + 1)
      | None => (acc, n, l)
      end
  end.

(** Does [l] start with the bytes of [p]? Returns the rest. *)
Fixpoint strip_prefix (p l : list Z) : option (list Z) :=
  match p, l with
  | [], _ => Some l
  | a :: p', b :: l' => if a =? b then strip_prefix p' l' else None
  | _ :: _, [] => None
  end.

(** An optional sign: whether it is a minus, and the rest. *)
Definition sign (l : list Z) : bool * list Z :=
  match l with
  | 45 :: r => (true, r)
  | 43 :: r => (false, r)
  | _ => (false, l)
  end.

(** The number nearest to [m * 10^k] for [m > 0], negated when [neg].
    Beyond the guards the decimal is above the largest number or below
    half of the smallest one. *)
Definition of_decimal (neg : bool) (m k : Z) : num :=
  match m with
  | Zpos p =>
      if 0 <=? k then
        if 1025 <=? 3 * k then S754_infinity neg
        else Num.of_Z ((if neg then - m else m) * 10 ^ k)
      else
        if Z.log2 m + 1 + 3 * k <=? -1075 then S754_zero neg
        else Num.of_ratio neg p (Z.to_pos (10 ^ (- k)))
  | _ => S754_zero neg
  end.

(** The exponent part of a decimal literal: [e] or [E], an optional sign
    and at least one digit.  When it is missing or malformed the exponent
    is 0 and nothing is consumed. *)
Definition exponent_part (l : list Z) : Z * list Z :=
  match l with
  | c :: r =>
      if (c =? 101) || (c =? 69) then
        let '(neg, r1) := sign r in
        let '(v, n, r2) := digits 10 r1 0 0 in
        if n =? 0 then (0, l) else ((if neg then - v else v), r2)
      else (0, l)
  | [] => (0, l)
  end.

(** An unsigned decimal literal other than [Infinity]: digits, an optional
    fraction and an optional exponent, with a digit on one side of the
    point at least.  Returns mantissa, decimal exponent and the rest. *)
Definition unsigned_decimal (l : list Z) : option (Z * Z * list Z) :=
  let '(ip, ni, r1) := digits 10 l 0 0 in
  let '(m, nf, r2) :=
    match r1 with
    | 46 :: r => let '(v, n, r') := digits 10 r ip 0 in (v, n, r')
    | _ => (ip, 0, r1)
    end in
  if (ni =? 0) && (nf =? 0) then None
  else
    let '(e, r3) := exponent_part r2 in
    Some (m, e - nf, r3).

(** A signed decimal literal, [Infinity] included. *)
Definition signed_decimal (l : list Z) : option (num * list Z) :=
  let '(neg, r) := sign l in
  match strip_prefix (codes "Infinity") r with
  | Some r' => Some (S754_infinity neg, r')
  | None =>
      match unsigned_decimal r with
      | Some (m, k, r') => Some (of_decimal neg m k, r')
      | None => None
      end
  end.

(** A binary, octal or hexadecimal integer literal: [0b], [0o], [0x] (or
    upper case) and at least one digit. *)
Definition radix_prefix (l : list Z) : option (Z * list Z) :=
  match l with
  | 48 :: c :: r =>
      if (c =? 120) || (c =? 88) then Some (16, r)
      else if (c =? 111) || (c =? 79) then Some (8, r)
      else if (c =? 98) || (c =? 66) then Some (2, r)
      else None
  | _ => None
  end.

Definition numeric_literal (l : list Z) : option (num * list Z) :=
  match radix_prefix l with
  | Some (radix, r) =>
      let '(v, n, r') := digits radix r 0 0 in
      if n =? 0 then None else Some (Num.of_Z v, r')
  | None => signed_decimal l
  end.

(** [StringToNumber]: white space, a numeric literal, white space; the
    blank string is 0 and anything else is NaN. *)
Definition StringToNumber (s : string) : num :=
  match skip_ws (codes s) with
  | [] => Num.pzero
  | l =>
      match numeric_literal l with
      | Some (x, r) => match skip_ws r with [] => x | _ => Num.nan end
      | None => Num.nan
      end
  end.

(** [parseInt(s)] with no radix argument: leading white space, a sign, an
    optional [0x] prefix, then the longest run of digits; NaN when the run
    is empty. *)
Definition parseInt (s : string) : num :=
  let '(neg, r) := sign (skip_ws (codes s)) in
  let '(radix, r1) :=
    match r with
    | 48 :: c :: r' => if (c =? 120) || (c =? 88) then (16, r') else (10, r)
    | _ => (10, r)
    end in
  let '(v, n, _) := digits radix r1 0 0 in
  if n =? 0 then Num.nan
  else if v =? 0 then S754_zero neg
  else Num.of_Z (if neg then - v else v).

(** The decimal digits of a natural number, most significant first. *)
Definition digit_char (d : Z) : Ascii.ascii :=
  Ascii.ascii_of_N (Z.to_N (48 + d mod 10)).

Fixpoint dec_aux (fuel : nat) (n : Z) (acc : string) : string :=
  match fuel with
  | O => acc
  | S f =>
      let acc' := String (digit_char n) acc in
      if n / 10 =? 0 then acc' else dec_aux f (n / 10) acc'
  end.

Definition dec (n : Z) : string :=
  dec_aux (S (Z.to_nat (Z.log2 n))) n EmptyString.

(** [n / 100] written with two decimals, for [0 <= n]: the digits of [n],
    padded with zeros to three digits, with a point before the last two. *)
Definition fixed2 (n : Z) : string :=
  dec (n / 100) +:+ "."
    +:+ String (digit_char (n / 10)) (String (digit_char n) EmptyString).

(** The magnitude [m * 2^e] times 100, rounded to the nearest integer
    and upward on a tie. *)
Definition round_cents (m : positive) (e : Z) : Z :=
  if 0 <=? e then 100 * Zpos m * 2 ^ e
  else (200 * Zpos m + 2 ^ (- e)) / 2 ^ (1 - e).

Definition at_least_1e21 (m : positive) (e : Z) : bool :=
  if 0 <=? e then 10 ^ 21 <=? Zpos m * 2 ^ e
  else 10 ^ 21 * 2 ^ (- e) <=? Zpos m.

(** The shortest decimal [s * 10^(n - k)], [k] digits in [s], that reads
    back as the number [x] of integer magnitude [X] with [d] digits; the
    nearest to [X] when two fit, the even one on a tie.  Only the two
    decimals of [k] digits next to [X] can read back.  Seventeen digits
    always do: the search starts at one digit with sixteen steps left,
    and at seventeen digits the nearest decimal is the answer. *)
Fixpoint shortest (fuel : nat) (x : num) (X d k : Z) : Z * Z :=
  let p := 10 ^ (d - k) in
  let lo := X / p in
  let hi := lo + 1 in
  let pick_lo := (lo, d) in
  let pick_hi := if hi =? 10 ^ k then (10 ^ (k - 1), d + 1) else (hi, d) in
  let nearest :=
    if X - lo * p <? hi * p - X then pick_lo
    else if hi * p - X <? X - lo * p then pick_hi
    else if Z.even lo then pick_lo else pick_hi in
  let ok_lo := Num.eq (Num.of_Z (lo * p)) x in
  let ok_hi := Num.eq (Num.of_Z (hi * p)) x in
  if ok_lo && ok_hi then nearest
  else if ok_lo then pick_lo
  else if ok_hi then pick_hi
  else
    match fuel with
    | O => nearest
    | S f => shortest f x X d (k + 1)
    end.

(** [Number::toString] of a magnitude of 1e21 or more: the shortest
    digits in exponent notation. *)
Definition exp_string (m : positive) (e : Z) : string :=
  let X := if 0 <=? e then Zpos m * 2 ^ e else Zpos m / 2 ^ (- e) in
  let d := Z.of_nat (length (codes (dec X))) in
  let '(s, n) := shortest 16 (S754_finite false m e) X d 1 in
  match dec s with
  | String c EmptyString => String c ("e+" +:+ dec (n - 1))
  | String c r => String c ("." +:+ r +:+ "e+" +:+ dec (n - 1))
  | EmptyString => EmptyString
  end.

(** [x.toFixed(2)]. *)
Definition toFixed2 (x : num) : string :=
  match x with
  | S754_nan => "NaN"
  | S754_infinity s => if s then "-Infinity" else "Infinity"
  | S754_zero _ => "0.00"
  | S754_finite s m e =>
      (if s then "-" else "")
        +:+ (if at_least_1e21 m e then exp_string m e
             else fixed2 (round_cents m e))
  end.

End Str.

(** ** JSON values and their conversions *)

(** What [express.json()] and the query parser hand to the handlers.  A
    key that is absent reads as [JUndefined]. *)
#[local] Unset Elimination Schemes.
Inductive jsval : Type :=
  | JUndefined
  | JNull
  | JBool (b : bool)
  | JNum (x : num)
  | JStr (s : string)
  | JArr (elems : list jsval)
  | JObj (fields : list (string * jsval)).
#[local] Set Elimination Schemes.

(** [v === undefined]. *)
Definition is_undefined (v : jsval) : bool :=
  match v with JUndefined => true | _ => false end.

(** [ToBoolean]: what [if (v)] and [!v] test. *)
Definition ToBoolean (v : jsval) : bool :=
  match v with
  | JUndefined | JNull => false
  | JBool b => b
  | JNum x => negb (Num.is_zero x || Num.is_nan x)
  | JStr s => negb (bool_decide (s = ""))
  | JArr _ | JObj _ => true
  end.

(** Converting an object to a primitive calls its [toString].  A parsed
    JSON object whose own key [toString] hides the inherited method has
    nothing callable left, and the conversion throws a TypeError; an array
    converts each of its elements. *)
Fixpoint to_primitive_throws (v : jsval) : bool :=
  match v with
  | JArr elems => existsb to_primitive_throws elems
  | JObj fields => existsb (λ kv, bool_decide (kv.1 = "toString")) fields
  | _ => false
  end.

(** The number a value converts to when the conversion does not throw.
    An array converts through its elements joined with commas: no element
    is the empty string, one element is that element as a string, and a
    comma is never part of a numeric literal.  An object is the string
    ["[object Object]"]. *)
Fixpoint to_number (v : jsval) : num :=
  match v with
  | JUndefined => Num.nan
  | JNull => Num.pzero
  | JBool b => if b then Num.of_Z 1 else Num.pzero
  | JNum x => x
  | JStr s => Str.StringToNumber s
  | JArr [] => Num.pzero
  | JArr [e] =>
      match e with
      | JUndefined | JNull => Num.pzero
      | JBool _ => Num.nan
      | JNum x => if Num.is_zero x then Num.pzero else x
      | JStr s => Str.StringToNumber s
      | JArr _ => to_number e
      | JObj _ => Num.nan
      end
  | JArr _ => Num.nan
  | JObj _ => Num.nan
  end.

(** [ToNumber]; [None] is the TypeError. *)
Definition ToNumber (v : jsval) : option num :=
  if to_primitive_throws v then None else Some (to_number v).

(** ** The catalog *)

Record Product : Type := { id : num; name : jsval; price : num }.

(** The value of [products] when the server starts. *)
Definition initial_products : list Product :=
  [ {| id := Num.of_Z 1; name := JStr "Смартфон X Pro"; price := Num.of_Z 49990 |};
    {| id := Num.of_Z 2; name := JStr "Ноутбук Ultra 15"; price := Num.of_Z 89990 |};
    {| id := Num.of_Z 3; name := JStr "Беспроводные наушники"; price := Num.of_Z 5990 |};
    {| id := Num.of_Z 4; name := JStr "Умные часы Watch 5"; price := Num.of_Z 15990 |} ].

(** ** Responses *)

Record Summary : Type := {
  totalProducts : nat;
  totalValue : num;
  averagePrice : jsval;
  cheapestProduct : option Product;
  mostExpensiveProduct : option Product
}.

Inductive body : Type :=
  | ErrorBody (error : string)
  | ProductBody (product : Product)
  | ProductsBody (filteredProducts : list Product)
  | MessageBody (message : string) (product : Product)
  | DeletedBody (message : string) (deletedProduct : Product)
  | SummaryBody (summary : Summary).

(** [res.status(status).json(body)], or an exception that escapes the
    handler. *)
Inductive response : Type :=
  | Response (status : Z) (b : body)
  | Uncaught.

Definition error_fields : string := "Не все поля заполнены. Требуются: name, price".
Definition error_price : string := "Цена должна быть положительным числом".
Definition error_not_found : string := "Товар с таким ID не найден".

(** ** The handlers *)

Section Handlers.

Variable products : list Product.

(** [products.find(p => p.id === parseInt(id))], with the index of the
    object found: the handlers update that object in place. *)
Definition findProductById (id_param : string) : option (nat * Product) :=
  list_find (λ p, Num.eq (id p) (Str.parseInt id_param) = true) products.

(** POST /products.  [now] is [Date.now()] and [offset] is
    [Math.floor(Math.random() * 1000)], an integer from 0 to 999. *)
Definition post_products (now offset : Z) (body_name body_price : jsval)
  : response * list Product :=
  if negb (ToBoolean body_name) || is_undefined body_price then
    (Response 400 (ErrorBody error_fields), products)
  else
    match ToNumber body_price with
    | None => (Uncaught, products)
    | Some x =>
        if Num.is_nan x || Num.lt x Num.pzero then
          (Response 400 (ErrorBody error_price), products)
        else
          let newProduct :=
            {| id := Num.add (Num.of_Z now) (Num.of_Z offset);
               name := body_name;
               price := x |} in
          (Response 201 (MessageBody "Товар успешно создан" newProduct),
           products ++ [newProduct])
    end.

(** One [filter] of GET /products.  The callback converts the bound at
    each element, so nothing is converted when there is no element. *)
Definition filter_by (keep : num → num → bool) (bound : jsval)
    (filteredProducts : list Product) : option (list Product) :=
  match filteredProducts with
  | [] => Some []
  | _ :: _ =>
      b ← ToNumber bound;
      Some (filter (λ p, keep (price p) b = true) filteredProducts)
  end.

(** GET /products. *)
Definition get_products (minPrice maxPrice : jsval) : response * list Product :=
  let filtered :=
    l ← (if ToBoolean minPrice then filter_by Num.ge minPrice products
         else Some products);
    if ToBoolean maxPrice then filter_by Num.le maxPrice l else Some l in
  match filtered with
  | Some filteredProducts => (Response 200 (ProductsBody filteredProducts), products)
  | None => (Uncaught, products)
  end.

(** GET /products/:id. *)
Definition get_product (id_param : string) : response * list Product :=
  match findProductById id_param with
  | None => (Response 404 (ErrorBody error_not_found), products)
  | Some (_, product) => (Response 200 (ProductBody product), products)
  end.

(** PUT /products/:id. *)
Definition put_product (id_param : string) (body_name body_price : jsval)
  : response * list Product :=
  match findProductById id_param with
  | None => (Response 404 (ErrorBody error_not_found), products)
  | Some (i, product) =>
      if negb (ToBoolean body_name) || is_undefined body_price then
        (Response 400 (ErrorBody error_fields), products)
      else
        match ToNumber body_price with
        | None => (Uncaught, products)
        | Some x =>
            if Num.is_nan x || Num.lt x Num.pzero then
              (Response 400 (ErrorBody error_price), products)
            else
              let product' := {| id := id product; name := body_name; price := x |} in
              (Response 200 (MessageBody "Товар полностью обновлен" product'),
               <[i := product']> products)
        end
  end.

(** PATCH /products/:id.  The name is assigned before the price is
    looked at. *)
Definition patch_product (id_param : string) (body_name body_price : jsval)
  : response * list Product :=
  match findProductById id_param with
  | None => (Response 404 (ErrorBody error_not_found), products)
  | Some (i, product) =>
      let product1 :=
        if is_undefined body_name then product
        else {| id := id product; name := body_name; price := price product |} in
      let products1 := <[i := product1]> products in
      if is_undefined body_price then
        (Response 200 (MessageBody "Товар частично обновлен" product1), products1)
      else
        match ToNumber body_price with
        | None => (Uncaught, products1)
        | Some x =>
            if Num.is_nan x || Num.lt x Num.pzero then
              (Response 400 (ErrorBody error_price), products1)
            else
              let product2 :=
                {| id := id product1; name := name product1; price := x |} in
              (Response 200 (MessageBody "Товар частично обновлен" product2),
               <[i := product2]> products1)
        end
  end.

(** DELETE /products/:id: [findIndex], then [splice(productIndex, 1)]. *)
Definition delete_product (id_param : string) : response * list Product :=
  match findProductById id_param with
  | None => (Response 404 (ErrorBody error_not_found), products)
  | Some (productIndex, deletedProduct) =>
      (Response 200 (DeletedBody "Товар успешно удален" deletedProduct),
       delete productIndex products)
  end.

(** GET /products/stats/summary. *)
Definition get_summary : response * list Product :=
  let totalProducts := length products in
  let totalValue := fold_left (λ sum p, Num.add sum (price p)) products Num.pzero in
  let averagePrice :=
    match totalProducts with
    | O => JNum Num.pzero
    | S _ => JStr (Str.toFixed2 (Num.div totalValue (Num.of_Z (Z.of_nat totalProducts))))
    end in
  let cheapestProduct :=
    match products with
    | [] => None
    | first :: _ =>
        Some (fold_left (λ min p, if Num.lt (price p) (price min) then p else min)
                products first)
    end in
  let mostExpensiveProduct :=
    match products with
    | [] => None
    | first :: _ =>
        Some (fold_left (λ max p, if Num.gt (price p) (price max) then p else max)
                products first)
    end in
  (Response 200 (SummaryBody
     {| totalProducts := totalProducts;
        totalValue := totalValue;
        averagePrice := averagePrice;
        cheapestProduct := cheapestProduct;
        mostExpensiveProduct := mostExpensiveProduct |}),
   products).

End Handlers.

(** ** Requests and reachable catalogs *)

Inductive request : Type :=
  | PostProducts (now offset : Z) (body_name body_price : jsval)
  | GetProducts (minPrice maxPrice : jsval)
  | GetProduct (id_param : string)
  | PutProduct (id_param : string) (body_name body_price : jsval)
  | PatchProduct (id_param : string) (body_name body_price : jsval)
  | DeleteProduct (id_param : string)
  | GetSummary.

Definition handle (products : list Product) (req : request)
  : response * list Product :=
  match req with
  | PostProducts now offset n p => post_products products now offset n p
  | GetProducts lo hi => get_products products lo hi
  | GetProduct i => get_product products i
  | PutProduct i n p => put_product products i n p
  | PatchProduct i n p => patch_product products i n p
  | DeleteProduct i => delete_product products i
  | GetSummary => get_summary products
  end.

(** What the runtime can supply: a time value within the range of [Date]
    and an offset that [Math.floor(Math.random() * 1000)] can take. *)
Definition valid_request (req : request) : Prop :=
  match req with
  | PostProducts now offset _ _ =>
      0 <= now <= 8640000000000000 ∧ 0 <= offset < 1000
  | _ => True
  end.

(** The catalogs the server can be in. *)
Inductive reachable : list Product → Prop :=
  | reachable_initial : reachable initial_products
  | reachable_handle products req :
      reachable products → valid_request req →
      reachable (handle products req).2.

(** What the query parser yields for a parameter that is present: a
    string, an array or an object, and never an object with a key that
    hides a method of the prototype. *)
Fixpoint is_query_value (v : jsval) : bool :=
  match v with
  | JStr _ => true
  | JArr elems => forallb is_query_value elems
  | JObj fields =>
      forallb (λ kv, negb (bool_decide (kv.1 = "toString")) && is_query_value kv.2)
        fields
  | _ => false
  end.

Definition query_param (v : jsval) : Prop :=
  v = JUndefined ∨ is_query_value v = true.

(** ** The vocabulary of the specification *)

Definition ValidationError (r : response) : Prop :=
  ∃ error, r = Response 400 (ErrorBody error).

Definition NotFoundError (r : response) : Prop :=
  ∃ error, r = Response 404 (ErrorBody error).

(** No two live products have the same id. *)
Definition unique_ids (products : list Product) : Prop :=
  ∀ i j p q,
    products !! i = Some p → products !! j = Some q →
    Num.eq (id p) (id q) = true → i = j.

(** Some live product has this id. *)
Definition id_exists (products : list Product) (x : num) : Prop :=
  ∃ p, p ∈ products ∧ Num.eq (id p) x = true.

(** A field is missing: the key is absent or null. *)
Definition missing (v : jsval) : Prop := v = JUndefined ∨ v = JNull.

(** A name is empty. *)
Definition empty_name (v : jsval) : Prop := v = JStr "".

(** A value is numeric: a number other than NaN, or a string that holds
    a numeric literal. *)
Definition numeric (v : jsval) : bool :=
  match v with
  | JNum x => negb (Num.is_nan x)
  | JStr s =>
      match Str.skip_ws (Str.codes s) with
      | [] => false
      | _ :: _ => negb (Num.is_nan (Str.StringToNumber s))
      end
  | _ => false
  end.

(** A value is negative. *)
Definition negative (v : jsval) : bool := Num.lt (to_number v) Num.pzero.

(** The fields of a create or replace request are invalid, in the words
    of the specification. *)
Definition invalid_fields (body_name body_price : jsval) : Prop :=
  missing body_name ∨ empty_name body_name
  ∨ missing body_price ∨ numeric body_price = false
  ∨ negative body_price = true.

(** A query parameter is given: present and not empty. *)
Definition given (v : jsval) : bool :=
  match v with
  | JUndefined => false
  | JStr s => negb (bool_decide (s = ""))
  | _ => true
  end.

(** The price of [p] is within the bounds that are given. *)
Definition in_range (minPrice maxPrice : jsval) (p : Product) : bool :=
  (if given minPrice then Num.ge (price p) (to_number minPrice) else true)
  && (if given maxPrice then Num.le (price p) (to_number maxPrice) else true).

(** The magnitude [m * 2^e] of a finite number as a fraction of two
    integers, numerator and denominator. *)
Definition magnitude (m : positive) (e : Z) : Z * Z :=
  (Zpos m * 2 ^ Z.max e 0, 2 ^ Z.max (- e) 0).

(** What a text with two decimal places denotes: an optional minus sign,
    at least one decimal digit, a point and exactly two decimal digits.
    The result is the sign and the number of hundredths. *)
Definition read_two_decimals (t : string) : option (bool * Z) :=
  let '(neg, r) :=
    match Str.codes t with
    | 45 :: r => (true, r)
    | l => (false, l)
    end in
  let '(units, n, r1) := Str.digits 10 r 0 0 in
  match r1 with
  | [46; c1; c2] =>
      match Str.digit_val 10 c1, Str.digit_val 10 c2 with
      | Some d1, Some d2 =>
          if n =? 0 then None else Some (neg, 100 * units + 10 * d1 + d2)
      | _, _ => None
      end
  | _ => None
  end.

(** [n] hundredths is the magnitude [m * 2^e] rounded to two decimal
    places: the exact value of a hundred times the magnitude is at least
    [n - 1/2] and below [n + 1/2], so that of two nearest the larger is
    taken. *)
Definition nearest_hundredths (m : positive) (e : Z) (n : Z) : Prop :=
  let '(a, b) := magnitude m e in
  (2 * n - 1) * b <= 200 * a < (2 * n + 1) * b.

(** The text [t] is the finite number [x] rounded to two decimal places:
    it denotes the sign of [x] and the hundredths nearest to its
    magnitude; a zero is written without a sign. *)
Definition two_decimals (x : num) (t : string) : Prop :=
  match x with
  | S754_zero _ => read_two_decimals t = Some (false, 0)
  | S754_finite s m e =>
      ∃ n, read_two_decimals t = Some (s, n) ∧ nearest_hundredths m e n
  | _ => False
  end.

(** A finite number of magnitude below 1e21. *)
Definition below_1e21 (x : num) : bool :=
  match x with
  | S754_zero _ => true
  | S754_finite _ m e => let '(a, b) := magnitude m e in a <? 10 ^ 21 * b
  | _ => false
  end.

(** What a text in exponent notation denotes: one decimal digit, then
    optionally a point and at least one more digit, then the letter e, a
    plus sign and the digits of the exponent.  The result is the digits
    as one integer, the number of digits after the point and the
    exponent. *)
Definition read_exponent (t : string) : option (Z * Z * Z) :=
  let '(lead, n, r) := Str.digits 10 (Str.codes t) 0 0 in
  let '(s, f, r1) :=
    match r with
    | 46 :: r' => Str.digits 10 r' lead 0
    | _ => (lead, 0, r)
    end in
  let point := match r with 46 :: _ => negb (f =? 0) | _ => true end in
  match r1 with
  | 101 :: 43 :: r2 =>
      let '(E, nE, r3) := Str.digits 10 r2 0 0 in
      match r3 with
      | [] =>
          if (n =? 1) && point && negb (nE =? 0) then Some (s, f, E) else None
      | _ :: _ => None
      end
  | _ => None
  end.

(** The text [t] is exponent notation for the number [x]: its digits,
    at most seventeen, scaled by the power of ten that the exponent and
    the place of the point give, are an integer to which [x] is the
    nearest number. *)
Definition exponent_notation (x : num) (t : string) : Prop :=
  ∃ s f E,
    read_exponent t = Some (s, f, E)
    ∧ 0 < s < 10 ^ 17 ∧ f <= E
    ∧ Num.of_Z (s * 10 ^ (E - f)) = x.

(** [o] is the best record of the catalog and the first of the best in
    sequence order: [good (price p) (price q)] for every record [q], and
    [better (price p) (price q)] for every record [q] before it; none
    when the catalog is empty. *)
Definition first_best (good better : num → num → bool)
    (products : list Product) (o : option Product) : Prop :=
  match o with
  | None => products = []
  | Some p =>
      ∃ i, products !! i = Some p
        ∧ (∀ q, q ∈ products → good (price p) (price q) = true)
        ∧ (∀ j q, products !! j = Some q → (j < i)%nat →
             better (price p) (price q) = true)
  end.

(** The callback of the two reductions of the summary, for a comparison
    [better] of prices. *)
Definition pick (better : num → num → bool) (best p : Product) : Product :=
  if better (price p) (price best) then p else best.

(** Every price in the catalog is a number. *)
Definition prices_ok (products : list Product) : Prop :=
  Forall (λ p, Num.is_nan (price p) = false) products.

(** The sum of the prices, added in sequence order. *)
Definition sum_prices (products : list Product) : num :=
  fold_left Num.add (price <$> products) Num.pzero.

(** ** What the handlers test *)

(** The fields that POST and PUT turn down: a falsy name, an absent
    price, or a price that converts to NaN or to a negative number. *)
Definition rejected (body_name body_price : jsval) : Prop :=
  ToBoolean body_name = false ∨ body_price = JUndefined
  ∨ Num.is_nan (to_number body_price) = true
  ∨ Num.lt (to_number body_price) Num.pzero = true.

(** The price that PATCH stores, if it stores one. *)
Definition accepted_price (body_price : jsval) : option num :=
  if is_undefined body_price then None
  else
    x ← ToNumber body_price;
    if Num.is_nan x || Num.lt x Num.pzero then None else Some x.

(** ** The statements of the specification that the code departs from *)

(** Create fails with a validation error exactly when the fields are
    invalid, and otherwise appends the record and answers 201. *)
Definition create_claim (products : list Product) (now offset : Z)
    (body_name body_price : jsval) : Prop :=
  let r := post_products products now offset body_name body_price in
  (ValidationError r.1 ↔ invalid_fields body_name body_price)
  ∧ (¬ invalid_fields body_name body_price →
       ∃ newProduct message,
         r = (Response 201 (MessageBody message newProduct),
              products ++ [newProduct])).

(** The summary has the count, the sum, the average with two decimals
    (the number 0 for the empty catalog), and the first cheapest and the
    first most expensive record. *)
Definition summary_claim (products : list Product) : Prop :=
  ∃ s, (get_summary products).1 = Response 200 (SummaryBody s)
    ∧ totalProducts s = length products
    ∧ totalValue s = sum_prices products
    ∧ ((products = [] ∧ averagePrice s = JNum Num.pzero)
       ∨ (∃ t, two_decimals
                 (Num.div (totalValue s) (Num.of_Z (Z.of_nat (length products))))
                 t
             ∧ averagePrice s = JStr t))
    ∧ first_best Num.le Num.lt products (cheapestProduct s)
    ∧ first_best Num.ge Num.gt products (mostExpensiveProduct s).

(** A patch of an existing record overwrites the name when it is
    provided, overwrites the price only when it is provided, numeric and
    not negative, and leaves a field that is omitted unchanged. *)
Definition patch_claim (products : list Product) (id_param : string)
    (body_name body_price : jsval) : Prop :=
  ∀ i product,
    findProductById products id_param = Some (i, product) →
    ∃ product',
      (patch_product products id_param body_name body_price).2 !! i
        = Some product'
      ∧ (body_name ≠ JUndefined → name product' = body_name)
      ∧ (body_name = JUndefined → name product' = name product)
      ∧ (price product' ≠ price product →
           body_price ≠ JUndefined ∧ numeric body_price = true
           ∧ negative body_price = false)
      ∧ (body_price = JUndefined → price product' = price product).

(** A lookup with an id that is not numeric fails with a not-found
    error, whatever the operation. *)
Definition lookup_claim (id_param : string) : Prop :=
  numeric (JStr id_param) = false →
  ∀ products body_name body_price,
    NotFoundError (get_product products id_param).1
    ∧ NotFoundError (put_product products id_param body_name body_price).1
    ∧ NotFoundError (patch_product products id_param body_name body_price).1
    ∧ NotFoundError (delete_product products id_param).1.

(** ** A catalog with a price of 1e22 *)

Definition huge_request : request :=
  PostProducts 1700000000000 5 (JStr "X") (JNum (Num.of_Z (10 ^ 22))).

Definition huge_products : list Product :=
  (handle initial_products huge_request).2.

(** ** Two creations that are given the same id *)

Definition collision_first : request :=
  PostProducts 1700000000000 5 (JStr "A") (JNum (Num.of_Z 10)).

Definition collision_second : request :=
  PostProducts 1700000000003 2 (JStr "B") (JNum (Num.of_Z 20)).

Definition collision_products : list Product :=
  (handle (handle initial_products collision_first).2 collision_second).2.

(** ** Further vocabulary for the handlers *)

(** The status of a response, if the handler answered. *)
Definition status (r : response) : option Z :=
  match r with
  | Response st _ => Some st
  | Uncaught => None
  end.

(** Every price in the catalog is a number that is not negative. *)
Definition prices_valid (products : list Product) : Prop :=
  Forall (λ p, Num.ge (price p) Num.pzero = true) products.

(** The request is a creation. *)
Definition is_post (req : request) : bool :=
  match req with PostProducts _ _ _ _ => true | _ => false end.

(** The request is a partial update that provides a name. *)
Definition is_patch_with_name (req : request) : bool :=
  match req with
  | PatchProduct _ body_name _ => negb (is_undefined body_name)
  | _ => false
  end.

(** The id parameter of a request on one product. *)
Definition id_param_of (req : request) : option string :=
  match req with
  | GetProduct s | PutProduct s _ _ | PatchProduct s _ _ | DeleteProduct s =>
      Some s
  | _ => None
  end.

(** The product that GetById answers with, if it finds one. *)
Definition found (products : list Product) (id_param : string)
  : option Product :=
  snd <$> findProductById products id_param.

(** The text starts with a decimal digit. *)
Definition starts_with_digit (t : string) : bool :=
  match Str.codes t with
  | c :: _ => (48 <=? c) && (c <=? 57)
  | [] => false
  end.

(** ** Rounding and digits, for the proofs *)

(** The state of the shift register after [n] shifts of [Y]. *)
Definition shr_state (Y n : Z) : shr_record :=
  {| shr_m := Y / 2 ^ n;
     shr_r := (0 <? n) && Z.odd (Y / 2 ^ (n - 1));
     shr_s := (0 <? n) && negb (Y mod 2 ^ (n - 1) =? 0) |}.

(** The mantissa that rounding to nearest, ties to even, gives for [z]
    shifted right by [n] bits. *)
Definition round_shift (z n : Z) : Z :=
  let q := z / 2 ^ n in
  let rem := z mod 2 ^ n in
  if (2 ^ n <? 2 * rem) || ((2 * rem =? 2 ^ n) && Z.odd q) then q + 1 else q.

(** What [shortest] returns for the number [x] whose integer magnitude
    has [d] digits: digits [r.1], at most seventeen of them, and the
    number [r.2] of digits before the point, which denote an integer
    that rounds to [x]. *)
Definition reads_back (x : num) (d : Z) (r : Z * Z) : Prop :=
  ∃ j, 1 <= j <= 17 ∧ 10 ^ (j - 1) <= r.1 < 10 ^ j ∧ j <= r.2 <= d + 1
       ∧ Num.of_Z (r.1 * 10 ^ (r.2 - j)) = x.

(** * Properties *)

(** ** The conversions on examples *)

Example parseInt_prefix : Str.parseInt "1abc" = Num.of_Z 1.
Proof. by vm_compute. Qed.

Example parseInt_space_sign : Str.parseInt "  -42px" = Num.of_Z (-42).
Proof. by vm_compute. Qed.

Example parseInt_hex : Str.parseInt "0x1f" = Num.of_Z 31.
Proof. by vm_compute. Qed.

Example parseInt_no_digit : Str.parseInt "abc" = Num.nan.
Proof. by vm_compute. Qed.

Example number_of_blank : Str.StringToNumber "  " = Num.pzero.
Proof. by vm_compute. Qed.

Example number_of_decimal :
  Str.StringToNumber " 12.5e1 " = Num.of_Z 125
  ∧ Str.StringToNumber "0.1" = S754_finite false 7205759403792794 (-56).
Proof. by vm_compute. Qed.

Example number_of_text :
  Str.StringToNumber "abc" = Num.nan ∧ Str.StringToNumber "1abc" = Num.nan.
Proof. by vm_compute. Qed.

Example number_of_values :
  to_number JNull = Num.pzero
  ∧ to_number (JBool true) = Num.of_Z 1
  ∧ to_number (JStr "") = Num.pzero
  ∧ to_number (JArr []) = Num.pzero
  ∧ to_number (JArr [JStr "5"]) = Num.of_Z 5
  ∧ to_number (JArr [JNum (Num.of_Z 1); JNum (Num.of_Z 2)]) = Num.nan
  ∧ to_number (JObj []) = Num.nan
  ∧ ToNumber (JObj [("toString", JNull)]) = None.
Proof. by vm_compute. Qed.

Example toFixed2_examples :
  Str.toFixed2 (Str.StringToNumber "40490") = "40490.00"
  ∧ Str.toFixed2 (Str.StringToNumber "1.005") = "1.00"
  ∧ Str.toFixed2 (Str.StringToNumber "0.125") = "0.13"
  ∧ Str.toFixed2 (Str.StringToNumber "999999999999999999999") = "1e+21"
  ∧ Str.toFixed2 (Str.StringToNumber "1e999") = "Infinity".
Proof. by vm_compute. Qed.

Example toFixed2_seventeen_digits :
  Str.toFixed2 (Num.of_Z (2 ^ 70)) = "1.1805916207174113e+21"
  ∧ Str.toFixed2 (Num.of_Z (2 ^ 80)) = "1.2089258196146292e+24"
  ∧ Str.toFixed2 (Num.of_Z 123456789012345678901234)
    = "1.2345678901234569e+23"
  ∧ Str.toFixed2 (S754_finite false (2 ^ 53 - 1) 971)
    = "1.7976931348623157e+308".
Proof. by vm_compute. Qed.

(** ** Comparison of numbers *)

Ltac num_cases :=
  repeat match goal with
    | x : Num.num |- _ => destruct x as [[]|[]| |[] ? ?]
    | x : spec_float |- _ => destruct x as [[]|[]| |[] ? ?]
    end.

Ltac cmp_solve :=
  unfold Num.lt, Num.le, Num.ge, Num.gt, Num.eq, SFltb, SFleb, SFeqb,
    SFcompare, Num.is_nan in *;
  repeat match goal with
    | H : context [ Pos.compare_cont Eq ?a ?b ] |- _ =>
        change (Pos.compare_cont Eq a b) with (Pos.compare a b) in H
    | |- context [ Pos.compare_cont Eq ?a ?b ] =>
        change (Pos.compare_cont Eq a b) with (Pos.compare a b)
    | H : context [ (?a ?= ?b)%Z ] |- _ => destruct (Z.compare_spec a b); subst
    | |- context [ (?a ?= ?b)%Z ] => destruct (Z.compare_spec a b); subst
    | H : context [ (?a ?= ?b)%positive ] |- _ =>
        destruct (Pos.compare_spec a b); subst
    | |- context [ (?a ?= ?b)%positive ] => destruct (Pos.compare_spec a b); subst
    end;
  simpl in *; try done; try lia.

Section NumOrder.

Implicit Types x y z : num.

Lemma lt_irrefl x : Num.lt x x = false.
Proof. num_cases; cmp_solve. Qed.

Lemma lt_trans x y z :
  Num.lt x y = true → Num.lt y z = true → Num.lt x z = true.
Proof. num_cases; try done; cmp_solve. Qed.

Lemma lt_asym x y : Num.lt x y = true → Num.lt y x = false.
Proof. num_cases; try done; cmp_solve. Qed.

(** Only the middle number has to be a number. *)
Lemma lt_negtrans x y z :
  Num.is_nan y = false →
  Num.lt x y = false → Num.lt y z = false → Num.lt x z = false.
Proof. num_cases; try done; cmp_solve. Qed.

Lemma lt_false_le x y :
  Num.is_nan x = false → Num.is_nan y = false →
  Num.lt x y = false → Num.le y x = true.
Proof. num_cases; try done; cmp_solve. Qed.

Lemma eq_sym x y : Num.eq x y = true → Num.eq y x = true.
Proof. num_cases; try done; cmp_solve. Qed.

Lemma eq_trans x y z :
  Num.eq x y = true → Num.eq y z = true → Num.eq x z = true.
Proof. num_cases; try done; cmp_solve. Qed.

(** A comparison with NaN is false. *)
Lemma ge_nan x : Num.ge x Num.nan = false.
Proof. done. Qed.

Lemma le_nan x : Num.le x Num.nan = false.
Proof. by destruct x. Qed.

End NumOrder.

(** ** The search for the best record *)

Section Best.

Variable better : num → num → bool.

Hypothesis better_irrefl : ∀ x, better x x = false.
Hypothesis better_trans :
  ∀ x y z, better x y = true → better y z = true → better x z = true.
Hypothesis better_negtrans :
  ∀ x y z, Num.is_nan y = false →
    better x y = false → better y z = false → better x z = false.

Lemma better_asym x y : better x y = true → better y x = false.
Proof.
  intros Hxy. destruct (better y x) eqn:Hyx; [|done].
  by rewrite <- (better_irrefl x), (better_trans x y x).
Qed.

Lemma better_through x y z :
  Num.is_nan y = false →
  better x z = true → better y z = false → better x y = true.
Proof.
  intros Hy Hxz Hyz. destruct (better x y) eqn:Hxy; [done|].
  by rewrite (better_negtrans x y z) in Hxz.
Qed.

(** Running [pick] over [l] from [best] either keeps [best], which no
    record of [l] beats, or ends on the first record of [l] that beats
    [best] and that no record of [l] beats. *)
Lemma fold_pick l : ∀ best,
  prices_ok (best :: l) →
  let r := fold_left (pick better) l best in
  (r = best ∧ ∀ q, q ∈ l → better (price q) (price best) = false)
  ∨ (∃ i, l !! i = Some r
       ∧ better (price r) (price best) = true
       ∧ (∀ q, q ∈ l → better (price q) (price r) = false)
       ∧ (∀ j q, l !! j = Some q → (j < i)%nat →
            better (price r) (price q) = true)).
Proof.
  induction l as [|x l IH]; intros best Hok; simpl.
  { left. split; [done|]. intros q Hq. by apply elem_of_nil in Hq. }
  apply Forall_cons in Hok as [Hbest Hok].
  apply Forall_cons in Hok as [Hx Hok].
  destruct (better (price x) (price best)) eqn:Hxb.
  - replace (pick better best x) with x by (unfold pick; by rewrite Hxb).
    destruct (IH x) as [[-> Hall]|(i & Hi & Hrx & Hall & Hfirst)].
    { by apply Forall_cons. }
    + right. exists 0%nat. split_and!; [done|done| |intros; lia].
      intros q [->|Hq]%elem_of_cons; [apply better_irrefl|by apply Hall].
    + right. exists (S i). split_and!; [done|by eapply better_trans| |].
      * intros q [->|Hq]%elem_of_cons; [by apply better_asym|by apply Hall].
      * intros [|j] q Hj Hlt; simpl in Hj.
        -- by injection Hj as <-.
        -- apply (Hfirst j); [done|lia].
  - replace (pick better best x) with best by (unfold pick; by rewrite Hxb).
    destruct (IH best) as [[-> Hall]|(i & Hi & Hrb & Hall & Hfirst)].
    { by apply Forall_cons. }
    + left. split; [done|].
      intros q [->|Hq]%elem_of_cons; [done|by apply Hall].
    + right. exists (S i). split_and!; [done|done| |].
      * intros q [->|Hq]%elem_of_cons; [|by apply Hall].
        destruct (better (price x) (price (fold_left (pick better) l best))) eqn:Hxr;
          [|done].
        by rewrite (better_trans _ _ _ Hxr Hrb) in Hxb.
      * intros [|j] q Hj Hlt; simpl in Hj.
        -- injection Hj as <-. by eapply better_through.
        -- apply (Hfirst j); [done|lia].
Qed.

(** The reduction of the summary: [pick] over the whole catalog, from its
    first record. *)
Lemma fold_pick_first first rest :
  prices_ok (first :: rest) →
  let r := fold_left (pick better) (first :: rest) first in
  ∃ i, (first :: rest) !! i = Some r
    ∧ (∀ q, q ∈ first :: rest → better (price q) (price r) = false)
    ∧ (∀ j q, (first :: rest) !! j = Some q → (j < i)%nat →
         better (price r) (price q) = true).
Proof.
  intros Hok r.
  destruct (fold_pick (first :: rest) first)
    as [[Hr Hall]|(i & Hi & _ & Hall & Hfirst)].
  { unfold prices_ok in *. apply Forall_cons_2; [|done].
    by apply Forall_cons in Hok as [? ?]. }
  - exists 0%nat. subst r. rewrite Hr. split_and!; [done| |intros; lia].
    intros q Hq. by apply Hall.
  - exists i. by split_and!.
Qed.

End Best.

(** ** Query parameters *)

Lemma query_value_no_throw : ∀ v,
  is_query_value v = true → to_primitive_throws v = false.
Proof.
  fix IH 1. intros [| | | | |elems|fields]; simpl; try done.
  - induction elems as [|e elems IHelems]; simpl; [done|].
    intros [He Hl]%andb_true_iff.
    by rewrite (IH e He), (IHelems Hl).
  - induction fields as [|[k v] fields IHfields]; simpl; [done|].
    intros [[Hk _]%andb_true_iff Hl]%andb_true_iff.
    apply negb_true_iff in Hk. by rewrite Hk, (IHfields Hl).
Qed.

Lemma query_param_ToNumber v :
  query_param v → ToNumber v = Some (to_number v).
Proof.
  unfold ToNumber. intros [->|Hv]; [done|].
  by rewrite (query_value_no_throw v Hv).
Qed.

(** For a query parameter, what the handler tests is that it is given. *)
Lemma query_param_given v : query_param v → ToBoolean v = given v.
Proof. intros [->|Hv]; [done|]. by destruct v. Qed.

(** A query value that does not convert to a number is given. *)
Lemma query_nan_given v :
  is_query_value v = true → Num.is_nan (to_number v) = true → given v = true.
Proof.
  destruct v as [| | | |s| |]; try done. simpl.
  intros _ Hnan. case_bool_decide as Hs; [|done]. by rewrite Hs in Hnan.
Qed.

(** ** The prices of a reachable catalog are numbers *)

Lemma prices_ok_insert products i p :
  prices_ok products → Num.is_nan (price p) = false →
  prices_ok (<[i := p]> products).
Proof. intros Hok Hp. by apply Forall_insert. Qed.

Lemma find_price_ok products id_param i p :
  prices_ok products → findProductById products id_param = Some (i, p) →
  Num.is_nan (price p) = false.
Proof.
  intros Hok (Hi & _ & _)%list_find_Some.
  by apply (Forall_lookup_1 _ _ _ _ Hok Hi).
Qed.

Lemma handle_prices_ok products req :
  prices_ok products → prices_ok (handle products req).2.
Proof.
  intros Hok. destruct req as [now offset n p|lo hi|s|s n p|s n p|s|]; simpl.
  - unfold post_products.
    destruct (negb (ToBoolean n) || is_undefined p); [done|].
    destruct (ToNumber p) as [x|]; [|done].
    destruct (Num.is_nan x) eqn:Hx; [done|]. simpl.
    destruct (Num.lt x Num.pzero); [done|]. simpl.
    apply Forall_app. split; [done|]. by apply Forall_singleton.
  - unfold get_products. by destruct (_ ≫= _).
  - unfold get_product. by destruct (findProductById _ _) as [[? ?]|].
  - unfold put_product.
    destruct (findProductById _ _) as [[i q]|]; [|done].
    destruct (negb (ToBoolean n) || is_undefined p); [done|].
    destruct (ToNumber p) as [x|]; [|done].
    destruct (Num.is_nan x) eqn:Hx; [done|]. simpl.
    destruct (Num.lt x Num.pzero); [done|]. simpl.
    by apply prices_ok_insert.
  - unfold patch_product.
    destruct (findProductById _ _) as [[i q]|] eqn:Hfind; [|done].
    pose proof (find_price_ok _ _ _ _ Hok Hfind) as Hq.
    assert (prices_ok (<[i := if is_undefined n then q
        else {| id := id q; name := n; price := price q |}]> products)) as Hok1.
    { apply prices_ok_insert; [done|]. by destruct (is_undefined n). }
    destruct (is_undefined p); [done|].
    destruct (ToNumber p) as [x|]; [|done].
    destruct (Num.is_nan x) eqn:Hx; [done|]. simpl.
    destruct (Num.lt x Num.pzero); [done|]. simpl.
    by apply prices_ok_insert.
  - unfold delete_product.
    destruct (findProductById _ _) as [[i q]|]; [|done]. simpl.
    unfold prices_ok in *. by apply Forall_delete.
  - done.
Qed.

Lemma initial_prices_ok : prices_ok initial_products.
Proof. unfold prices_ok, initial_products. by repeat constructor. Qed.

Lemma reachable_prices_ok products : reachable products → prices_ok products.
Proof.
  induction 1 as [|products req _ IH _];
    [apply initial_prices_ok|by apply handle_prices_ok].
Qed.

(** ** Lookup by id *)

Lemma find_None_iff products id_param :
  findProductById products id_param = None
  ↔ ¬ id_exists products (Str.parseInt id_param).
Proof.
  unfold findProductById, id_exists. rewrite list_find_None, Forall_forall.
  split.
  - intros Hall (p & Hp & Heq). by apply (Hall p).
  - intros Hno p Hp Heq. apply Hno. by exists p.
Qed.

Lemma find_Some_exists products id_param i p :
  findProductById products id_param = Some (i, p) →
  products !! i = Some p ∧ id_exists products (Str.parseInt id_param).
Proof.
  intros (Hi & Heq & _)%list_find_Some. split; [done|].
  exists p. split; [|done]. by eapply list_elem_of_lookup_2.
Qed.

Lemma is_undefined_iff v : is_undefined v = true ↔ v = JUndefined.
Proof. by destruct v. Qed.

(** ** Ids are not unique *)

Lemma collision_reachable : reachable collision_products.
Proof.
  unfold collision_products.
  apply reachable_handle; [apply reachable_handle|];
    [apply reachable_initial|simpl; lia|simpl; lia].
Qed.

(** A creation keeps the ids unique exactly when the id it assigns is not
    the id of a live product; the handler does not look. *)
Lemma create_unique_iff products newProduct :
  unique_ids products →
  unique_ids (products ++ [newProduct])
  ↔ ¬ id_exists products (id newProduct).
Proof.
  intros Huniq. split.
  - intros Hnew (p & [i Hi]%list_elem_of_lookup & Heq).
    pose proof (lookup_lt_Some _ _ _ Hi) as Hlt.
    assert (i = length products); [|lia].
    apply (Hnew i (length products) p newProduct); [|by apply list_lookup_middle|done].
    by apply lookup_app_l_Some.
  - intros Hfresh i j p q Hi Hj Heq.
    apply lookup_app_Some in Hi as [Hi|[Hle Hi]];
      apply lookup_app_Some in Hj as [Hj|[Hle' Hj]].
    + by apply (Huniq i j p q).
    + apply list_lookup_singleton_Some in Hj as [_ <-].
      destruct Hfresh. exists p. split; [by eapply list_elem_of_lookup_2|done].
    + apply list_lookup_singleton_Some in Hi as [_ <-].
      destruct Hfresh. exists q.
      split; [by eapply list_elem_of_lookup_2|by apply eq_sym].
    + apply list_lookup_singleton_Some in Hi as [Hi _].
      apply list_lookup_singleton_Some in Hj as [Hj _]. lia.
Qed.

(** C1 (the code departs from the claim).  From the initial catalog, a
    creation at time 1700000000000 with offset 5 followed by a creation at
    time 1700000000003 with offset 2 is answered 201 both times; the id
    assigned by the second creation is the id of a product that exists at
    that time, and the catalog that results is reachable and has two live
    products with the same id. *)
Theorem create_id_collision :
  let products := (handle initial_products collision_first).2 in
  ∃ newProduct message,
    handle products collision_second
      = (Response 201 (MessageBody message newProduct), products ++ [newProduct])
    ∧ id_exists products (id newProduct)
    ∧ reachable (products ++ [newProduct])
    ∧ ¬ unique_ids (products ++ [newProduct]).
Proof.
  intros products.
  set (second := {| id := Num.add (Num.of_Z 1700000000003) (Num.of_Z 2);
                    name := JStr "B"; price := Num.of_Z 20 |}).
  set (first := {| id := Num.add (Num.of_Z 1700000000000) (Num.of_Z 5);
                   name := JStr "A"; price := Num.of_Z 10 |}).
  assert (handle products collision_second
          = (Response 201 (MessageBody "Товар успешно создан" second),
             products ++ [second])) as Hsecond by done.
  exists second, "Товар успешно создан". split_and!.
  - done.
  - exists first. split; [|by vm_compute].
    apply (list_elem_of_lookup_2 _ 4%nat). by vm_compute.
  - change (products ++ [second]) with collision_products.
    apply collision_reachable.
  - intros Huniq.
    by specialize (Huniq 4%nat 5%nat first second eq_refl eq_refl eq_refl).
Qed.

(** ** Create *)

(** What POST does, case by case. *)
Lemma post_products_rejected products now offset n p :
  ToBoolean n = false ∨ p = JUndefined →
  post_products products now offset n p
    = (Response 400 (ErrorBody error_fields), products).
Proof.
  unfold post_products. intros [->| ->]; [done|].
  by rewrite orb_true_r.
Qed.

Lemma post_products_converted products now offset n p :
  ToBoolean n = true → p ≠ JUndefined → to_primitive_throws p = false →
  post_products products now offset n p
    = if Num.is_nan (to_number p) || Num.lt (to_number p) Num.pzero
      then (Response 400 (ErrorBody error_price), products)
      else
        let newProduct :=
          {| id := Num.add (Num.of_Z now) (Num.of_Z offset);
             name := n; price := to_number p |} in
        (Response 201 (MessageBody "Товар успешно создан" newProduct),
         products ++ [newProduct]).
Proof.
  unfold post_products, ToNumber. intros -> Hp ->.
  by destruct p.
Qed.

(** C2 (the code departs from the claim).  A creation with the name "x"
    and the price [true], which is present and is not numeric, is not
    turned down with a validation error: it is answered 201 and the
    record is appended to the catalog with the price 1.  The handler
    tests [isNaN(price) || price < 0], which looks at the number the
    price converts to, under a comment that says that it checks that the
    price is a number. *)
Theorem create_non_numeric_price :
  let r :=
    post_products initial_products 1700000000000 5 (JStr "x") (JBool true) in
  let newProduct :=
    {| id := Num.of_Z 1700000000005; name := JStr "x"; price := Num.of_Z 1 |} in
  numeric (JBool true) = false
  ∧ invalid_fields (JStr "x") (JBool true)
  ∧ ¬ ValidationError r.1
  ∧ r = (Response 201 (MessageBody "Товар успешно создан" newProduct),
         initial_products ++ [newProduct])
  ∧ ¬ create_claim initial_products 1700000000000 5 (JStr "x") (JBool true).
Proof.
  intros r newProduct.
  assert (invalid_fields (JStr "x") (JBool true)) as Hinvalid
    by (unfold invalid_fields; by right; right; right; left).
  assert (¬ ValidationError r.1) as Hanswer by (intros [error Herror]; done).
  split_and!; [done|done|done|done|].
  intros [[_ Hfail] _]. by apply Hanswer, Hfail.
Qed.

(** What Create does on every input whose price converts to a number
    without throwing.  It fails with a validation error exactly when the
    name is falsy (absent, null, false, 0, NaN or the empty string), or
    the price is absent, or the number the price converts to is NaN or
    negative; the catalog is then unchanged.  For every other such input
    it appends the record with the given name and the converted price to
    the end of the sequence and returns it with status 201. *)
Lemma create_validation products now offset n p :
  to_primitive_throws p = false →
  let r := post_products products now offset n p in
  (ValidationError r.1 ↔ rejected n p)
  ∧ (rejected n p → r.2 = products)
  ∧ (¬ rejected n p →
       let newProduct :=
         {| id := Num.add (Num.of_Z now) (Num.of_Z offset);
            name := n; price := to_number p |} in
       r = (Response 201 (MessageBody "Товар успешно создан" newProduct),
            products ++ [newProduct])).
Proof.
  intros Hthrow r. subst r. unfold rejected.
  destruct (ToBoolean n) eqn:Hn;
    [|rewrite post_products_rejected by auto; simpl;
      split_and!; [split; [auto|by eexists]|done|intros []; auto]].
  destruct (is_undefined p) eqn:Hp.
  { apply is_undefined_iff in Hp as ->.
    rewrite post_products_rejected by auto. simpl.
    split_and!; [split; [auto|by eexists]|done|intros []; auto]. }
  assert (p ≠ JUndefined) as Hp' by (by intros ->).
  rewrite post_products_converted by done.
  destruct (Num.is_nan (to_number p)) eqn:Hnan; simpl.
  { split_and!; [split; [auto|by eexists]|done|intros []; auto]. }
  destruct (Num.lt (to_number p) Num.pzero) eqn:Hneg; simpl.
  { split_and!; [split; [auto|by eexists]|done|intros []; auto]. }
  split_and!; [|intros [|[|[|]]]; done|done].
  split; [by intros [? ?]|intros [|[|[|]]]; done].
Qed.

Example create_validation_decimal_text :
  (post_products initial_products 1700000000000 5 (JStr "x") (JStr "12.5")).2
    !! 4%nat
  = Some {| id := Num.of_Z 1700000000005; name := JStr "x";
            price := Num.of_ratio false 25 2 |}.
Proof.
  destruct (create_validation initial_products 1700000000000 5
              (JStr "x") (JStr "12.5") eq_refl) as (_ & _ & Hok).
  rewrite Hok; [reflexivity|].
  unfold rejected. intros [H|[H|[H|H]]]; vm_compute in H; discriminate H.
Qed.

(** ** Decimal digits *)

Lemma codes_app s t : Str.codes (s +:+ t) = Str.codes s ++ Str.codes t.
Proof.
  induction s as [|c s IH]; [done|].
  change (String c s +:+ t) with (String c (s +:+ t)). simpl. by rewrite IH.
Qed.

Lemma digit_code d :
  Z.of_N (Ascii.N_of_ascii (Str.digit_char d)) = 48 + d mod 10.
Proof.
  unfold Str.digit_char.
  pose proof (Z.mod_pos_bound d 10 ltac:(lia)) as Hd.
  assert (d mod 10 = 0 ∨ d mod 10 = 1 ∨ d mod 10 = 2 ∨ d mod 10 = 3
          ∨ d mod 10 = 4 ∨ d mod 10 = 5 ∨ d mod 10 = 6 ∨ d mod 10 = 7
          ∨ d mod 10 = 8 ∨ d mod 10 = 9) as Hcases by lia.
  destruct Hcases as [->|[->|[->|[->|[->|[->|[->|[->|[->| ->]]]]]]]]]; done.
Qed.

Lemma digits_digit c l a k :
  48 <= c <= 57 →
  Str.digits 10 (c :: l) a k = Str.digits 10 l (a * 10 + (c - 48)) (k + 1).
Proof.
  intros Hc. simpl. unfold Str.digit_val.
  destruct (Z.leb_spec 48 c); [|lia]. destruct (Z.leb_spec c 57); [|lia].
  simpl. destruct (Z.ltb_spec (c - 48) 10); [done|lia].
Qed.

Lemma digits_stop l a k :
  match l with c :: _ => (48 <=? c) && (c <=? 57) | [] => false end = false →
  Str.digits 10 l a k = (a, k, l).
Proof.
  destruct l as [|c l]; [done|]. simpl. unfold Str.digit_val. intros Hc.
  rewrite Hc.
  destruct ((97 <=? c) && (c <=? 122)) eqn:H1.
  { destruct (Z.ltb_spec (c - 97 + 10) 10); [|done].
    apply andb_true_iff in H1 as [?%Z.leb_le ?]. lia. }
  destruct ((65 <=? c) && (c <=? 90)) eqn:H2; [|done].
  destruct (Z.ltb_spec (c - 65 + 10) 10); [|done].
  apply andb_true_iff in H2 as [?%Z.leb_le ?]. lia.
Qed.

Lemma dec_aux_spec fuel : ∀ n acc,
  0 < n < 2 ^ Z.of_nat fuel →
  ∃ h ds,
    Str.codes (Str.dec_aux fuel n acc) = (h :: ds) ++ Str.codes acc
    ∧ 49 <= h <= 57
    ∧ ∀ a k tail,
        Str.digits 10 ((h :: ds) ++ tail) a k
        = Str.digits 10 tail (a * 10 ^ Z.of_nat (length (h :: ds)) + n)
            (k + Z.of_nat (length (h :: ds))).
Proof.
  induction fuel as [|fuel IH]; intros n acc Hn; [simpl in Hn; lia|].
  simpl Str.dec_aux.
  pose proof (Z.div_mod n 10 ltac:(lia)) as Hdiv.
  pose proof (Z.mod_pos_bound n 10 ltac:(lia)) as Hmod.
  destruct (Z.eqb_spec (n / 10) 0) as [Hzero|Hnonzero].
  - exists (48 + n mod 10), [].
    split; [simpl; by rewrite digit_code|]. split; [lia|]. intros a k tail.
    change ([48 + n mod 10] ++ tail) with ((48 + n mod 10) :: tail).
    rewrite digits_digit by lia. simpl length. f_equal; lia.
  - assert (0 < n / 10 < 2 ^ Z.of_nat fuel) as Hn'.
    { split; [pose proof (Z.div_pos n 10 ltac:(lia) ltac:(lia)); lia|].
      apply Z.div_lt_upper_bound; [lia|].
      rewrite Nat2Z.inj_succ, Z.pow_succ_r in Hn by lia.
      pose proof (Z.pow_pos_nonneg 2 (Z.of_nat fuel) ltac:(lia) ltac:(lia)).
      lia. }
    destruct (IH (n / 10) (String (Str.digit_char n) acc) Hn')
      as (h & ds & Hcodes & Hh & Hdigits).
    exists h, (ds ++ [48 + n mod 10]). split; [|split; [done|]].
    + rewrite Hcodes. cbn [Str.codes]. rewrite digit_code.
      simpl. by rewrite <- app_assoc.
    + intros a k tail.
      replace ((h :: ds ++ [48 + n mod 10]) ++ tail)
        with ((h :: ds) ++ (48 + n mod 10) :: tail)
        by (simpl; by rewrite <- app_assoc).
      rewrite Hdigits, digits_digit by lia.
      replace (length (h :: ds ++ [48 + n mod 10]))
        with (S (length (h :: ds))) by (simpl; rewrite length_app; simpl; lia).
      rewrite Nat2Z.inj_succ, Z.pow_succ_r by lia.
      f_equal; lia.
Qed.

Lemma dec_spec n :
  0 < n →
  ∃ h ds,
    Str.codes (Str.dec n) = h :: ds
    ∧ 49 <= h <= 57
    ∧ ∀ a k tail,
        Str.digits 10 (h :: ds ++ tail) a k
        = Str.digits 10 tail (a * 10 ^ Z.of_nat (length (h :: ds)) + n)
            (k + Z.of_nat (length (h :: ds))).
Proof.
  intros Hn. unfold Str.dec.
  destruct (dec_aux_spec (S (Z.to_nat (Z.log2 n))) n EmptyString)
    as (h & ds & Hcodes & Hh & Hdigits).
  { split; [done|]. rewrite Nat2Z.inj_succ, Z2Nat.id by apply Z.log2_nonneg.
    apply Z.log2_spec. done. }
  exists h, ds. split; [|split; [done|done]].
  rewrite Hcodes. simpl. by rewrite app_nil_r.
Qed.

(** The digits of a natural number read back as the number. *)
Lemma dec_digits n :
  0 <= n →
  ∃ h ds,
    Str.codes (Str.dec n) = h :: ds
    ∧ 48 <= h <= 57
    ∧ ∀ a k tail,
        Str.digits 10 (h :: ds ++ tail) a k
        = Str.digits 10 tail (a * 10 ^ Z.of_nat (length (h :: ds)) + n)
            (k + Z.of_nat (length (h :: ds))).
Proof.
  intros Hn. destruct (Z.eq_dec n 0) as [->|Hpos].
  - exists 48, []. split; [reflexivity|]. split; [lia|]. intros a k tail.
    change (48 :: [] ++ tail) with (48 :: tail).
    rewrite digits_digit by lia. simpl length. f_equal; lia.
  - destruct (dec_spec n) as (h & ds & Hcodes & Hh & Hdigits); [lia|].
    exists h, ds. split; [done|]. split; [lia|done].
Qed.

Lemma digit_val_digit d :
  Str.digit_val 10 (48 + d mod 10) = Some (d mod 10).
Proof.
  pose proof (Z.mod_pos_bound d 10 ltac:(lia)) as Hd.
  unfold Str.digit_val.
  destruct (Z.leb_spec 48 (48 + d mod 10)); [|lia].
  destruct (Z.leb_spec (48 + d mod 10) 57); [|lia].
  simpl. destruct (Z.ltb_spec (48 + d mod 10 - 48) 10); [|lia].
  f_equal. lia.
Qed.

(** ** Two decimal places *)

(** A text written by [fixed2] reads back as the hundredths it was
    written from. *)
Lemma read_fixed2 (s : bool) n :
  0 <= n →
  read_two_decimals ((if s then "-" else "") +:+ Str.fixed2 n) = Some (s, n).
Proof.
  intros Hn.
  destruct (dec_digits (n / 100)) as (h & ds & Hcodes & Hh & Hdigits);
    [apply Z.div_pos; lia|].
  assert (Str.codes (Str.fixed2 n)
          = h :: ds ++ [46; 48 + (n / 10) mod 10; 48 + n mod 10]) as Hfixed.
  { unfold Str.fixed2. rewrite !codes_app, Hcodes. cbn [Str.codes].
    by rewrite !digit_code. }
  unfold read_two_decimals.
  assert (match Str.codes ((if s then "-" else "") +:+ Str.fixed2 n) with
          | 45 :: r => (true, r)
          | l => (false, l)
          end = (s, Str.codes (Str.fixed2 n))) as ->.
  { destruct s; [reflexivity|].
    change ("" +:+ Str.fixed2 n) with (Str.fixed2 n). rewrite Hfixed.
    assert (h = 48 ∨ h = 49 ∨ h = 50 ∨ h = 51 ∨ h = 52 ∨ h = 53 ∨ h = 54
            ∨ h = 55 ∨ h = 56 ∨ h = 57) as Hcases by lia.
    destruct Hcases as [->|[->|[->|[->|[->|[->|[->|[->|[->| ->]]]]]]]]];
      reflexivity. }
  rewrite Hfixed, Hdigits, digits_stop by done.
  rewrite !digit_val_digit.
  destruct (Z.eqb_spec (0 + Z.of_nat (length (h :: ds))) 0) as [Hlen|_];
    [simpl in Hlen; lia|].
  f_equal. f_equal.
  pose proof (Z.div_mod n 10 ltac:(lia)) as H1.
  pose proof (Z.div_mod (n / 10) 10 ltac:(lia)) as H2.
  rewrite Z.div_div in H2 by lia. change (10 * 10) with 100 in H2. lia.
Qed.

(** [round_cents] is the magnitude rounded to hundredths. *)
Lemma round_cents_nearest m e :
  0 <= Str.round_cents m e
  ∧ nearest_hundredths m e (Str.round_cents m e).
Proof.
  unfold nearest_hundredths, magnitude, Str.round_cents.
  destruct (Z.leb_spec 0 e) as [He|He].
  - rewrite (Z.max_l e 0), (Z.max_r (- e) 0) by lia. change (2 ^ 0) with 1.
    pose proof (Z.pow_pos_nonneg 2 e ltac:(lia) He). nia.
  - rewrite (Z.max_r e 0), (Z.max_l (- e) 0) by lia. change (2 ^ 0) with 1.
    set (D := 2 ^ (- e)).
    replace (2 ^ (1 - e)) with (2 * D)
      by (unfold D; rewrite <- Z.pow_succ_r by lia; f_equal; lia).
    assert (0 < D) by (apply Z.pow_pos_nonneg; lia).
    pose proof (Z.div_mod (200 * Zpos m + D) (2 * D) ltac:(lia)) as Hdiv.
    pose proof (Z.mod_pos_bound (200 * Zpos m + D) (2 * D) ltac:(lia)) as Hmod.
    pose proof (Z.div_pos (200 * Zpos m + D) (2 * D) ltac:(lia) ltac:(lia)).
    set (q := (200 * Zpos m + D) / (2 * D)) in *.
    set (r := (200 * Zpos m + D) mod (2 * D)) in *.
    clearbody q r. split; [lia|]. rewrite Z.mul_1_r. lia.
Qed.

(** The two ways to say that a magnitude is below 1e21. *)
Lemma below_1e21_finite s m e :
  below_1e21 (S754_finite s m e) = negb (Str.at_least_1e21 m e).
Proof.
  unfold below_1e21, magnitude, Str.at_least_1e21.
  destruct (Z.leb_spec 0 e) as [He|He].
  - rewrite (Z.max_l e 0), (Z.max_r (- e) 0) by lia. change (2 ^ 0) with 1.
    rewrite Z.mul_1_r. apply Z.ltb_antisym.
  - rewrite (Z.max_r e 0), (Z.max_l (- e) 0) by lia. change (2 ^ 0) with 1.
    rewrite Z.mul_1_r. apply Z.ltb_antisym.
Qed.

(** Below 1e21, [toFixed(2)] is the number rounded to two decimals. *)
Lemma toFixed2_two_decimals x :
  below_1e21 x = true → two_decimals x (Str.toFixed2 x).
Proof.
  destruct x as [s|s| |s m e]; try done.
  rewrite below_1e21_finite. intros Hbelow%negb_true_iff.
  unfold two_decimals, Str.toFixed2. rewrite Hbelow.
  destruct (round_cents_nearest m e) as [Hpos Hnear].
  exists (Str.round_cents m e). split; [by apply read_fixed2|done].
Qed.

(** ** Prices stay at or above zero *)

Lemma validated_price x :
  Num.is_nan x || Num.lt x Num.pzero = false → Num.ge x Num.pzero = true.
Proof.
  intros [Hnan Hneg]%orb_false_iff. by apply lt_false_le.
Qed.

Lemma find_price_valid products id_param i p :
  prices_valid products → findProductById products id_param = Some (i, p) →
  Num.ge (price p) Num.pzero = true.
Proof.
  intros Hok (Hi & _ & _)%list_find_Some.
  by apply (Forall_lookup_1 _ _ _ _ Hok Hi).
Qed.

Lemma handle_prices_valid products req :
  prices_valid products → prices_valid (handle products req).2.
Proof.
  intros Hok. unfold prices_valid in *.
  destruct req as [now offset n p|lo hi|s|s n p|s n p|s|]; simpl.
  - unfold post_products.
    destruct (negb (ToBoolean n) || is_undefined p); [done|].
    destruct (ToNumber p) as [x|]; [|done].
    destruct (Num.is_nan x || Num.lt x Num.pzero) eqn:Hx; [done|]. simpl.
    apply Forall_app. split; [done|].
    apply Forall_singleton. by apply validated_price.
  - unfold get_products. by destruct (_ ≫= _).
  - unfold get_product. by destruct (findProductById _ _) as [[? ?]|].
  - unfold put_product.
    destruct (findProductById _ _) as [[i q]|]; [|done].
    destruct (negb (ToBoolean n) || is_undefined p); [done|].
    destruct (ToNumber p) as [x|]; [|done].
    destruct (Num.is_nan x || Num.lt x Num.pzero) eqn:Hx; [done|]. simpl.
    apply Forall_insert; [done|]. by apply validated_price.
  - unfold patch_product.
    destruct (findProductById _ _) as [[i q]|] eqn:Hfind; [|done].
    pose proof (find_price_valid _ _ _ _ Hok Hfind) as Hq.
    assert (Forall (λ p, Num.ge (price p) Num.pzero = true)
              (<[i := if is_undefined n then q
                  else {| id := id q; name := n; price := price q |}]> products))
      as Hok1.
    { apply Forall_insert; [done|]. by destruct (is_undefined n). }
    destruct (is_undefined p); [done|].
    destruct (ToNumber p) as [x|]; [|done].
    destruct (Num.is_nan x || Num.lt x Num.pzero) eqn:Hx; [done|]. simpl.
    apply Forall_insert; [done|]. by apply validated_price.
  - unfold delete_product.
    destruct (findProductById _ _) as [[i q]|]; [|done]. simpl.
    by apply Forall_delete.
  - done.
Qed.

(** Rounding a magnitude that is not negative gives a zero, a positive
    finite number or plus infinity. *)
Lemma shr_1_nonneg mrs : 0 <= shr_m mrs → 0 <= shr_m (shr_1 mrs).
Proof.
  destruct mrs as [m r s]. simpl. intros Hm.
  destruct m as [|[p|p|]|p]; simpl; lia.
Qed.

Lemma iter_shr_1_nonneg p : ∀ mrs,
  0 <= shr_m mrs → 0 <= shr_m (SpecFloat.iter_pos shr_1 p mrs).
Proof.
  induction p as [p IH|p IH|]; intros mrs Hm; simpl.
  - by apply IH, IH, shr_1_nonneg.
  - by apply IH, IH.
  - by apply shr_1_nonneg.
Qed.

Lemma shr_fexp_nonneg m e l :
  0 <= m → 0 <= shr_m (shr_fexp Num.prec Num.emax m e l).1.
Proof.
  intros Hm. unfold shr_fexp, shr.
  assert (0 <= shr_m (shr_record_of_loc m l)) as Hrec
    by (by destruct l as [|[]]).
  destruct (_ - e) as [|p|p]; simpl; [done| |done].
  by apply iter_shr_1_nonneg.
Qed.

Lemma round_nearest_even_nonneg m l :
  0 <= m → 0 <= round_nearest_even m l.
Proof.
  intros Hm. destruct l as [|[]]; simpl; try done; [|lia].
  destruct (Z.even m); lia.
Qed.

Lemma binary_round_aux_nonneg m e l :
  0 <= m →
  Num.ge (binary_round_aux Num.prec Num.emax false m e l) Num.pzero = true.
Proof.
  intros Hm. unfold binary_round_aux.
  pose proof (shr_fexp_nonneg m e l Hm) as H1.
  destruct (shr_fexp Num.prec Num.emax m e l) as [mrs' e'].
  pose proof (shr_fexp_nonneg
                (round_nearest_even (shr_m mrs') (loc_of_shr_record mrs'))
                e' loc_Exact
                (round_nearest_even_nonneg _ _ H1)) as H2.
  destruct (shr_fexp Num.prec Num.emax _ e' loc_Exact) as [mrs'' e''].
  simpl in H2. destruct (shr_m mrs'') as [|p|p]; [done| |lia].
  by destruct (e'' <=? _).
Qed.

Lemma add_nonneg x y :
  Num.ge x Num.pzero = true → Num.ge y Num.pzero = true →
  Num.ge (Num.add x y) Num.pzero = true.
Proof.
  destruct x as [[]|[]| |[] mx ex], y as [[]|[]| |[] my ey]; try done.
  intros _ _. unfold Num.add, SFadd, binary_normalize. simpl cond_Zopp.
  change (Z.pos ?a + Z.pos ?b) with (Z.pos (a + b)).
  unfold binary_round.
  destruct (shl_align _ _ _) as [mz ez].
  by apply binary_round_aux_nonneg.
Qed.

Lemma of_Z_nonneg z : 0 <= z → Num.ge (Num.of_Z z) Num.pzero = true.
Proof.
  intros Hz. unfold Num.of_Z, binary_normalize.
  destruct z as [|p|p]; [done| |lia].
  unfold binary_round. destruct (shl_align _ _ _) as [mz ez].
  by apply binary_round_aux_nonneg.
Qed.

Lemma fold_add_nonneg (l : list Product) : ∀ acc,
  Num.ge acc Num.pzero = true → prices_valid l →
  Num.ge (fold_left (λ sum p, Num.add sum (price p)) l acc) Num.pzero = true.
Proof.
  induction l as [|p l IH]; intros acc Hacc Hl; [done|].
  apply Forall_cons in Hl as [Hp Hl]. simpl.
  apply IH; [by apply add_nonneg|done].
Qed.

Lemma reachable_valid products : reachable products → prices_valid products.
Proof.
  induction 1 as [|products req _ IH _];
    [by repeat constructor|by apply handle_prices_valid].
Qed.

(** ** Rounding an integer to the nearest number *)

(** One shift of a register whose mantissa is not negative. *)
Lemma shr_1_nonneg_eq m r s :
  0 <= m →
  shr_1 {| shr_m := m; shr_r := r; shr_s := s |}
  = {| shr_m := m / 2; shr_r := Z.odd m; shr_s := r || s |}.
Proof.
  intros Hm. rewrite <- Z.div2_div.
  destruct m as [|[p|p|]|p]; try reflexivity; lia.
Qed.

(** Shifting keeps the quotient, the last bit shifted out and whether a
    bit shifted out before it was set. *)
Lemma shr_1_state Y n :
  0 <= Y → 0 <= n → shr_1 (shr_state Y n) = shr_state Y (n + 1).
Proof.
  intros HY Hn. unfold shr_state.
  assert (0 < 2 ^ n) as Hpow by (apply Z.pow_pos_nonneg; lia).
  rewrite shr_1_nonneg_eq by (apply Z.div_pos; lia).
  replace (n + 1 - 1) with n by lia.
  assert ((0 <? n + 1) = true) as -> by (apply Z.ltb_lt; lia).
  f_equal.
  - rewrite Z.pow_add_r, Z.pow_1_r by lia. rewrite Z.div_div by lia. done.
  - destruct (Z.ltb_spec 0 n) as [Hpos|Hzero]; simpl.
    + replace (2 ^ n) with (2 ^ (n - 1) * 2)
        by (rewrite Z.mul_comm, <- Z.pow_succ_r by lia; f_equal; lia).
      assert (0 < 2 ^ (n - 1)) as Hpow' by (apply Z.pow_pos_nonneg; lia).
      rewrite Z.rem_mul_r by lia. rewrite Zmod_odd.
      pose proof (Z.mod_pos_bound Y (2 ^ (n - 1)) Hpow') as Hmod.
      destruct (Z.odd (Y / 2 ^ (n - 1))); simpl.
      * symmetry. apply negb_true_iff, Z.eqb_neq. lia.
      * f_equal. f_equal. lia.
    + assert (n = 0) as -> by lia. simpl. by rewrite Z.mod_1_r.
Qed.

Lemma iter_shr_state p : ∀ Y n,
  0 <= Y → 0 <= n →
  SpecFloat.iter_pos shr_1 p (shr_state Y n) = shr_state Y (n + Zpos p).
Proof.
  induction p as [p IH|p IH|]; intros Y n HY Hn; cbn [SpecFloat.iter_pos].
  - rewrite shr_1_state, !IH by lia. f_equal. lia.
  - rewrite !IH by lia. f_equal. lia.
  - by apply shr_1_state.
Qed.

(** The number of bits of a mantissa. *)
Lemma digits2_size p : digits2_pos p = Pos.size p.
Proof. induction p as [p IH|p IH|]; simpl; by rewrite ?IH. Qed.

Lemma digits2_log2 p : Zpos (digits2_pos p) = Z.log2 (Zpos p) + 1.
Proof.
  rewrite digits2_size. destruct p as [p|p|]; simpl; try done;
    rewrite Pos2Z.inj_succ; unfold Z.succ; f_equal;
    destruct p; simpl; try done.
Qed.

Lemma fexp_eq e : fexp 53 1024 e = Z.max (e - 53) (-1074).
Proof. reflexivity. Qed.

(** The shift that brings an exact mantissa to 53 bits. *)
Lemma shr_fexp_exact m e :
  0 < m →
  shr_fexp 53 1024 m e loc_Exact
  = let n := fexp 53 1024 (Z.log2 m + 1 + e) - e in
    if 0 <? n then (shr_state m n, e + n)
    else ({| shr_m := m; shr_r := false; shr_s := false |}, e).
Proof.
  intros Hm. destruct m as [|p|p]; try lia.
  unfold shr_fexp, Zdigits2. rewrite digits2_log2.
  cbv zeta. set (n := fexp 53 1024 (Z.log2 (Z.pos p) + 1 + e) - e).
  unfold shr, shr_record_of_loc.
  destruct n as [|k|k] eqn:Hn; try reflexivity.
  assert ({| shr_m := Z.pos p; shr_r := false; shr_s := false |}
          = shr_state (Z.pos p) 0) as ->.
  { unfold shr_state. by rewrite Z.div_1_r. }
  by rewrite iter_shr_state.
Qed.

(** Rounding to nearest, ties to even, after the shift. *)
Lemma round_state z n :
  0 <= z → 0 < n →
  round_nearest_even (shr_m (shr_state z n)) (loc_of_shr_record (shr_state z n))
  = round_shift z n.
Proof.
  intros Hz Hn. unfold shr_state, round_shift, loc_of_shr_record. cbn [shr_m].
  assert ((0 <? n) = true) as -> by (by apply Z.ltb_lt). simpl andb.
  assert (0 < 2 ^ (n - 1)) as Hpow by (apply Z.pow_pos_nonneg; lia).
  assert (2 ^ n = 2 ^ (n - 1) * 2) as Hn2
    by (rewrite Z.mul_comm, <- Z.pow_succ_r by lia; f_equal; lia).
  assert (z / 2 ^ n = z / 2 ^ (n - 1) / 2) as Hq
    by (rewrite Hn2, Z.div_div by lia; done).
  assert (z mod 2 ^ n
          = z mod 2 ^ (n - 1)
            + 2 ^ (n - 1) * (if Z.odd (z / 2 ^ (n - 1)) then 1 else 0)) as Hrem
    by (rewrite Hn2, Z.rem_mul_r, Zmod_odd by lia; done).
  pose proof (Z.mod_pos_bound z (2 ^ (n - 1)) Hpow) as Hmod.
  rewrite Hrem. rewrite Hn2 at 2 3.
  set (low := z mod 2 ^ (n - 1)) in *. set (h := 2 ^ (n - 1)) in *.
  set (q := z / 2 ^ n) in *.
  destruct (Z.odd (z / h)); destruct (Z.eqb_spec low 0) as [Hlow|Hlow];
    cbn [negb round_nearest_even].
  - destruct (Z.ltb_spec (h * 2) (2 * (low + h * 1))); [lia|].
    destruct (Z.eqb_spec (2 * (low + h * 1)) (h * 2)); [|lia].
    cbn [orb andb]. rewrite <- Z.negb_odd. by destruct (Z.odd q).
  - destruct (Z.ltb_spec (h * 2) (2 * (low + h * 1))); [done|lia].
  - destruct (Z.ltb_spec (h * 2) (2 * (low + h * 0))); [lia|].
    destruct (Z.eqb_spec (2 * (low + h * 0)) (h * 2)); [lia|done].
  - destruct (Z.ltb_spec (h * 2) (2 * (low + h * 0))); [lia|].
    destruct (Z.eqb_spec (2 * (low + h * 0)) (h * 2)); [lia|done].
Qed.

Lemma round_shift_bounds z n :
  0 <= z → 0 < n → z / 2 ^ n <= round_shift z n <= z / 2 ^ n + 1.
Proof.
  intros Hz Hn. unfold round_shift.
  destruct (_ || _); lia.
Qed.

(** The number nearest to an integer of more than 53 bits. *)
Lemma of_Z_big z :
  2 ^ 53 <= z →
  let n := Z.log2 z - 52 in
  let m1 := round_shift z n in
  Num.of_Z z
  = if m1 =? 2 ^ 53 then
      if n + 1 <=? 971 then S754_finite false (Z.to_pos (2 ^ 52)) (n + 1)
      else S754_infinity false
    else
      if n <=? 971 then S754_finite false (Z.to_pos m1) n
      else S754_infinity false.
Proof.
  intros Hz n m1.
  assert (53 <= Z.log2 z) as Hlog by (apply Z.log2_le_pow2; lia).
  assert (0 < n) as Hn by (unfold n; lia).
  pose proof (Z.log2_spec z ltac:(lia)) as Hspec.
  assert (0 < 2 ^ n) as Hpow by (apply Z.pow_pos_nonneg; lia).
  assert (2 ^ 52 <= z / 2 ^ n < 2 ^ 53) as Hq.
  { replace (Z.log2 z) with (52 + n) in Hspec by (unfold n; lia).
    replace (Z.succ (52 + n)) with (53 + n) in Hspec by lia.
    rewrite !Z.pow_add_r in Hspec by lia.
    split; [apply Z.div_le_lower_bound; lia|apply Z.div_lt_upper_bound; lia]. }
  pose proof (round_shift_bounds z n ltac:(lia) Hn) as Hm1. fold m1 in Hm1.
  destruct z as [|p|p]; try lia.
  unfold Num.of_Z, Num.prec, Num.emax, binary_normalize, binary_round.
  rewrite digits2_log2.
  assert (shl_align p 0 (fexp 53 1024 (Z.log2 (Z.pos p) + 1 + 0)) = (p, 0))
    as ->.
  { unfold shl_align. rewrite fexp_eq.
    destruct (_ - 0) eqn:Hd; try reflexivity. lia. }
  unfold binary_round_aux. rewrite shr_fexp_exact by lia. cbv zeta.
  assert (fexp 53 1024 (Z.log2 (Z.pos p) + 1 + 0) - 0 = n) as ->
    by (rewrite fexp_eq; unfold n; lia).
  assert ((0 <? n) = true) as -> by (by apply Z.ltb_lt).
  rewrite round_state by lia. fold m1.
  rewrite shr_fexp_exact by lia. cbv zeta.
  destruct (Z.eqb_spec m1 (2 ^ 53)) as [Hcarry|Hcarry].
  - rewrite Hcarry.
    assert (fexp 53 1024 (Z.log2 (2 ^ 53) + 1 + (0 + n)) - (0 + n) = 1) as ->
      by (rewrite Z.log2_pow2, fexp_eq by lia; lia).
    cbn [Z.ltb Z.compare fst snd]. unfold shr_state. cbn [shr_m].
    change (2 ^ 53 / 2 ^ 1) with (2 ^ 52). 
    replace (0 + n + 1) with (n + 1) by lia.
    change (1024 - 53) with 971. reflexivity.
  - assert (Z.log2 m1 = 52) as Hlog1
      by (apply Z.log2_unique; lia).
    rewrite Hlog1.
    assert (fexp 53 1024 (52 + 1 + (0 + n)) - (0 + n) = 0) as ->
      by (rewrite fexp_eq; lia).
    cbn [Z.ltb Z.compare shr_m].
    replace (0 + n) with n by lia. change (1024 - 53) with 971.
    destruct m1 as [|m|m]; try lia. reflexivity.
Qed.

Lemma round_shift_eq z n q r :
  0 < n → z = 2 ^ n * q + r → 0 <= r < 2 ^ n →
  round_shift z n
  = if (2 ^ n <? 2 * r) || ((2 * r =? 2 ^ n) && Z.odd q) then q + 1 else q.
Proof.
  intros Hn Hz Hr. unfold round_shift.
  rewrite <- (Z.div_unique z (2 ^ n) q r) by (auto with zarith).
  by rewrite <- (Z.mod_unique z (2 ^ n) q r) by (auto with zarith).
Qed.

(** An integer close enough to the value of a number of 53 bits rounds
    to that number: closer than half a unit in the last place, and than
    a quarter below the least mantissa, where the numbers below are
    twice as dense. *)
Lemma of_Z_near m e z :
  2 ^ 52 <= Zpos m < 2 ^ 53 → 2 <= e <= 971 →
  let X := Zpos m * 2 ^ e in
  (X <= z → 2 * (z - X) < 2 ^ e) →
  (z < X → 2 * (X - z) < 2 ^ e ∧ (Zpos m = 2 ^ 52 → 4 * (X - z) <= 2 ^ e)) →
  Num.of_Z z = S754_finite false m e.
Proof.
  intros Hm He X Habove Hbelow.
  assert (0 < 2 ^ (e - 2)) as Hpow by (apply Z.pow_pos_nonneg; lia).
  assert (2 ^ e = 4 * 2 ^ (e - 2)) as He2.
  { replace e with (2 + (e - 2)) at 1 by lia. by rewrite Z.pow_add_r by lia. }
  assert (2 ^ (e - 1) = 2 * 2 ^ (e - 2)) as He1.
  { replace (e - 1) with (1 + (e - 2)) by lia. by rewrite Z.pow_add_r by lia. }
  assert (2 ^ (52 + e) = 2 ^ 52 * 2 ^ e) as H52 by (by rewrite Z.pow_add_r by lia).
  assert (2 ^ (53 + e) = 2 ^ 53 * 2 ^ e) as H53 by (by rewrite Z.pow_add_r by lia).
  assert (2 ^ (51 + e) = 2 ^ 51 * 2 ^ e) as H51 by (by rewrite Z.pow_add_r by lia).
  set (u := 2 ^ (e - 2)) in *.
  destruct (Z.le_gt_cases (2 ^ (52 + e)) z) as [Hbig|Hsmall].
  - assert (z < 2 ^ (53 + e)) as Hlt.
    { destruct (Z.le_gt_cases X z) as [H|H]; [specialize (Habove H)|];
        unfold X in *; nia. }
    assert (Z.log2 z = 52 + e) as Hlog.
    { apply Z.log2_unique; [lia|]. replace (Z.succ (52 + e)) with (53 + e) by lia.
      lia. }
    assert (2 ^ 53 <= z) as Hz by nia.
    rewrite (of_Z_big z Hz). cbv zeta. rewrite Hlog.
    replace (52 + e - 52) with e by lia.
    assert (round_shift z e = Zpos m) as ->.
    { destruct (Z.le_gt_cases X z) as [H|H].
      - specialize (Habove H).
        rewrite (round_shift_eq z e (Zpos m) (z - X)) by (unfold X in *; lia).
        destruct (Z.ltb_spec (2 ^ e) (2 * (z - X))); [lia|].
        destruct (Z.eqb_spec (2 * (z - X)) (2 ^ e)); [lia|done].
      - destruct (Hbelow H) as [Hhalf _].
        rewrite (round_shift_eq z e (Zpos m - 1) (2 ^ e - (X - z)))
          by (unfold X in *; lia).
        destruct (Z.ltb_spec (2 ^ e) (2 * (2 ^ e - (X - z)))); [|lia].
        cbn [orb]. lia. }
    destruct (Z.eqb_spec (Zpos m) (2 ^ 53)); [lia|].
    destruct (Z.leb_spec e 971); [|lia]. done.
  - assert (z < X) as HzX by (unfold X; nia).
    destruct (Hbelow HzX) as [Hhalf Hquarter].
    assert (Zpos m = 2 ^ 52) as Hm52 by (unfold X in *; nia).
    specialize (Hquarter Hm52).
    assert (X = 2 ^ 52 * 2 ^ e) as HX by (unfold X; by rewrite Hm52).
    assert (Z.log2 z = 51 + e) as Hlog.
    { apply Z.log2_unique; [lia|]. replace (Z.succ (51 + e)) with (52 + e) by lia.
      lia. }
    assert (2 ^ 53 <= z) as Hz by lia.
    rewrite (of_Z_big z Hz). cbv zeta. rewrite Hlog.
    replace (51 + e - 52) with (e - 1) by lia.
    assert (round_shift z (e - 1) = 2 ^ 53) as ->.
    { rewrite (round_shift_eq z (e - 1) (2 ^ 53 - 1) (2 ^ (e - 1) - (X - z)))
        by lia.
      destruct (Z.ltb_spec (2 ^ (e - 1)) (2 * (2 ^ (e - 1) - (X - z))));
        [done|].
      destruct (Z.eqb_spec (2 * (2 ^ (e - 1) - (X - z))) (2 ^ (e - 1)));
        [done|lia]. }
    rewrite Z.eqb_refl. replace (e - 1 + 1) with e by lia.
    destruct (Z.leb_spec e 971); [|lia].
    f_equal. rewrite <- Hm52. done.
Qed.

(** [===] with a finite number is equality. *)
Lemma eq_finite a m e :
  Num.eq a (S754_finite false m e) = true → a = S754_finite false m e.
Proof.
  unfold Num.eq, SFeqb, SFcompare.
  destruct a as [[]|[]| |[] m' e']; try done.
  destruct (Z.compare_spec e' e) as [->| |]; try done.
  change (Pos.compare_cont Eq m' m) with (Pos.compare m' m).
  destruct (Pos.compare_spec m' m) as [->| |]; done.
Qed.

(** ** The shortest digits read back *)

(** The search of [shortest] for a number [m * 2^e] of 53 bits whose
    integer magnitude has [d] digits, seventeen at least. *)
Section Shortest.

Variables (m : positive) (e d : Z).
Let x : num := S754_finite false m e.
Let X : Z := Zpos m * 2 ^ e.

Hypothesis Hm : 2 ^ 52 <= Zpos m < 2 ^ 53.
Hypothesis He : 2 <= e <= 971.
Hypothesis Hd : 10 ^ (d - 1) <= X < 10 ^ d.
Hypothesis Hd17 : 17 <= d.

Lemma pow10_split k : 1 <= k <= d → 10 ^ d = 10 ^ k * 10 ^ (d - k).
Proof. intros Hk. rewrite <- Z.pow_add_r by lia. f_equal. lia. Qed.

(** The first [k] digits of the magnitude. *)
Lemma lo_bounds k :
  1 <= k <= 17 →
  let p := 10 ^ (d - k) in
  0 < p ∧ 10 ^ (k - 1) <= X / p < 10 ^ k ∧ 10 * 10 ^ (k - 1) = 10 ^ k.
Proof.
  intros Hk p.
  assert (0 < p) as Hp by (apply Z.pow_pos_nonneg; lia).
  assert (10 * 10 ^ (k - 1) = 10 ^ k) as Hk10
    by (rewrite <- Z.pow_succ_r by lia; f_equal; lia).
  assert (10 ^ (d - 1) = 10 ^ (k - 1) * p) as Hlow
    by (unfold p; rewrite <- Z.pow_add_r by lia; f_equal; lia).
  assert (10 ^ d = 10 ^ k * p) as Hhigh by (apply pow10_split; lia).
  split; [done|]. split; [|done]. split.
  - apply Z.div_le_lower_bound; [done|]. lia.
  - apply Z.div_lt_upper_bound; [done|]. lia.
Qed.

Lemma pick_lo_reads_back k :
  1 <= k <= 17 →
  let p := 10 ^ (d - k) in
  Num.of_Z (X / p * p) = x → reads_back x d (X / p, d).
Proof.
  intros Hk p Hread. destruct (lo_bounds k Hk) as (Hp & Hlo & _).
  fold p in Hp, Hlo. exists k. cbn [fst snd]. split_and!; try lia. exact Hread.
Qed.

Lemma pick_hi_reads_back k :
  1 <= k <= 17 →
  let p := 10 ^ (d - k) in
  let hi := X / p + 1 in
  Num.of_Z (hi * p) = x →
  reads_back x d (if hi =? 10 ^ k then (10 ^ (k - 1), d + 1) else (hi, d)).
Proof.
  intros Hk p hi Hread. destruct (lo_bounds k Hk) as (Hp & Hlo & Hk10).
  fold p in Hp, Hlo. unfold hi in *. clear hi. exists k.
  destruct (Z.eqb_spec (X / p + 1) (10 ^ k)) as [Hcarry|Hcarry]; cbn [fst snd].
  - assert (0 < 10 ^ (k - 1)) by (apply Z.pow_pos_nonneg; lia).
    split_and!; try lia.
    rewrite <- Hread, Hcarry, <- Hk10. f_equal.
    replace (d + 1 - k) with (Z.succ (d - k)) by lia.
    rewrite Z.pow_succ_r by lia. fold p. ring.
  - split_and!; try lia. exact Hread.
Qed.

(** Of the decimals with seventeen digits, the one nearest to the
    magnitude reads back: the decimals are less than one unit in the
    last place apart, and less than half of one at the least mantissa. *)
Lemma nearest_reads_back :
  let p := 10 ^ (d - 17) in
  (2 * (X mod p) <= p → Num.of_Z (X / p * p) = x)
  ∧ (p <= 2 * (X mod p) → Num.of_Z ((X / p + 1) * p) = x).
Proof.
  intros p. destruct (lo_bounds 17 ltac:(lia)) as (Hp & Hlo & _). fold p in Hlo.
  assert (10 ^ (d - 1) = 10 ^ 16 * p) as Hlow
    by (unfold p; rewrite <- Z.pow_add_r by lia; f_equal; lia).
  pose proof (Z.div_mod X p ltac:(lia)) as Hdiv.
  pose proof (Z.mod_pos_bound X p Hp) as Hmod.
  assert (0 < 2 ^ e) as Hpow by (apply Z.pow_pos_nonneg; lia).
  set (rem := X mod p) in *. set (lo := X / p) in *.
  assert (p < 2 ^ e) as Hpe by (unfold X in *; nia).
  split; intros Hrem; apply of_Z_near; try done; fold X; intros Hz.
  - nia.
  - split; [nia|]. intros Hm52. unfold X in *. rewrite Hm52 in *. nia.
  - nia.
  - nia.
Qed.

Lemma shortest_eq fuel (y : num) Y k :
  Str.shortest fuel y Y d k
  = let p := 10 ^ (d - k) in
    let lo := Y / p in
    let hi := lo + 1 in
    let pick_lo := (lo, d) in
    let pick_hi := if hi =? 10 ^ k then (10 ^ (k - 1), d + 1) else (hi, d) in
    let nearest :=
      if Y - lo * p <? hi * p - Y then pick_lo
      else if hi * p - Y <? Y - lo * p then pick_hi
      else if Z.even lo then pick_lo else pick_hi in
    let ok_lo := Num.eq (Num.of_Z (lo * p)) y in
    let ok_hi := Num.eq (Num.of_Z (hi * p)) y in
    if ok_lo && ok_hi then nearest
    else if ok_lo then pick_lo
    else if ok_hi then pick_hi
    else
      match fuel with
      | O => nearest
      | S f => Str.shortest f y Y d (k + 1)
      end.
Proof. by destruct fuel. Qed.

(** Whatever the search returns reads back. *)
Lemma shortest_reads_back (fuel : nat) : ∀ k,
  1 <= k → k + Z.of_nat fuel = 17 →
  reads_back x d (Str.shortest fuel x X d k).
Proof.
  induction fuel as [|fuel IH]; intros k Hk Hfuel; rewrite shortest_eq;
    cbv zeta; set (p := 10 ^ (d - k)); set (lo := X / p).
  - assert (k = 17) as -> by lia.
    destruct (nearest_reads_back) as [Hnear_lo Hnear_hi]. fold p in Hnear_lo, Hnear_hi.
    fold lo in Hnear_lo, Hnear_hi.
    destruct (lo_bounds 17 ltac:(lia)) as (Hp & _ & _). fold p in Hp.
    pose proof (Z.div_mod X p ltac:(lia)) as Hdiv. fold lo in Hdiv.
    pose proof (Z.mod_pos_bound X p Hp) as Hmod.
    assert (reads_back x d
              (if X - lo * p <? (lo + 1) * p - X then (lo, d)
               else if (lo + 1) * p - X <? X - lo * p
                    then if lo + 1 =? 10 ^ 17 then (10 ^ (17 - 1), d + 1)
                         else (lo + 1, d)
                    else if Z.even lo then (lo, d)
                         else if lo + 1 =? 10 ^ 17 then (10 ^ (17 - 1), d + 1)
                              else (lo + 1, d))) as Hnearest.
    { destruct (Z.ltb_spec (X - lo * p) ((lo + 1) * p - X)).
      { apply (pick_lo_reads_back 17); [lia|]. apply Hnear_lo. lia. }
      destruct (Z.ltb_spec ((lo + 1) * p - X) (X - lo * p)).
      { apply (pick_hi_reads_back 17); [lia|]. apply Hnear_hi. lia. }
      destruct (Z.even lo).
      - apply (pick_lo_reads_back 17); [lia|]. apply Hnear_lo. lia.
      - apply (pick_hi_reads_back 17); [lia|]. apply Hnear_hi. lia. }
    destruct (Num.eq (Num.of_Z (lo * p)) x) eqn:Hlo;
      destruct (Num.eq (Num.of_Z ((lo + 1) * p)) x) eqn:Hhi; cbn [andb];
      try done.
    + apply (pick_lo_reads_back 17); [lia|]. by apply eq_finite.
    + apply (pick_hi_reads_back 17); [lia|]. by apply eq_finite.
  - assert (1 <= k <= 17) as Hk17 by lia.
    destruct (Num.eq (Num.of_Z (lo * p)) x) eqn:Hlo;
      destruct (Num.eq (Num.of_Z ((lo + 1) * p)) x) eqn:Hhi; cbn [andb].
    + apply eq_finite in Hlo, Hhi.
      destruct (_ <? _); [by apply (pick_lo_reads_back k)|].
      destruct (_ <? _); [by apply (pick_hi_reads_back k)|].
      destruct (Z.even lo);
        [by apply (pick_lo_reads_back k)|by apply (pick_hi_reads_back k)].
    + apply (pick_lo_reads_back k); [lia|]. by apply eq_finite.
    + apply (pick_hi_reads_back k); [lia|]. by apply eq_finite.
    + apply IH; lia.
Qed.

End Shortest.

(** The number of decimal digits of a positive integer. *)
Lemma dec_aux_length fuel : ∀ n acc,
  0 < n < 2 ^ Z.of_nat fuel →
  ∃ ds,
    Str.codes (Str.dec_aux fuel n acc) = ds ++ Str.codes acc
    ∧ 10 ^ (Z.of_nat (length ds) - 1) <= n < 10 ^ Z.of_nat (length ds).
Proof.
  induction fuel as [|fuel IH]; intros n acc Hn; [simpl in Hn; lia|].
  simpl Str.dec_aux.
  pose proof (Z.div_mod n 10 ltac:(lia)) as Hdiv.
  pose proof (Z.mod_pos_bound n 10 ltac:(lia)) as Hmod.
  destruct (Z.eqb_spec (n / 10) 0) as [Hzero|Hnonzero].
  - exists [48 + n mod 10]. split; [simpl; by rewrite digit_code|].
    simpl. lia.
  - assert (0 < n / 10 < 2 ^ Z.of_nat fuel) as Hn'.
    { split; [pose proof (Z.div_pos n 10 ltac:(lia) ltac:(lia)); lia|].
      apply Z.div_lt_upper_bound; [lia|].
      rewrite Nat2Z.inj_succ, Z.pow_succ_r in Hn by lia.
      pose proof (Z.pow_pos_nonneg 2 (Z.of_nat fuel) ltac:(lia) ltac:(lia)).
      lia. }
    destruct (IH (n / 10) (String (Str.digit_char n) acc) Hn')
      as (ds & Hcodes & Hlen).
    exists (ds ++ [48 + n mod 10]). split.
    + rewrite Hcodes. cbn [Str.codes]. rewrite digit_code.
      by rewrite <- app_assoc.
    + rewrite length_app. simpl length.
      destruct ds as [|c ds]; [simpl in Hlen; lia|].
      replace (Z.of_nat (length (c :: ds) + 1) - 1)
        with (Z.succ (Z.of_nat (length (c :: ds)) - 1)) by lia.
      replace (Z.of_nat (length (c :: ds) + 1))
        with (Z.succ (Z.of_nat (length (c :: ds)))) by lia.
      rewrite !Z.pow_succ_r by (simpl length; lia). lia.
Qed.

Lemma dec_length n :
  0 < n →
  let d := Z.of_nat (length (Str.codes (Str.dec n))) in
  10 ^ (d - 1) <= n < 10 ^ d.
Proof.
  intros Hn d. unfold d, Str.dec.
  destruct (dec_aux_length (S (Z.to_nat (Z.log2 n))) n EmptyString)
    as (ds & Hcodes & Hlen).
  { split; [done|]. rewrite Nat2Z.inj_succ, Z2Nat.id by apply Z.log2_nonneg.
    apply Z.log2_spec. done. }
  rewrite Hcodes. simpl. by rewrite app_nil_r.
Qed.

Lemma pow10_digits j l s :
  1 <= j → 1 <= l →
  10 ^ (j - 1) <= s < 10 ^ j → 10 ^ (l - 1) <= s < 10 ^ l → l = j.
Proof.
  intros Hj Hl Hsj Hsl.
  destruct (Z.lt_trichotomy l j) as [Hlt|[->|Hgt]]; [|done|].
  - assert (10 ^ l <= 10 ^ (j - 1)) by (apply Z.pow_le_mono_r; lia). lia.
  - assert (10 ^ j <= 10 ^ (l - 1)) by (apply Z.pow_le_mono_r; lia). lia.
Qed.

(** The bytes of a text in exponent notation. *)
Lemma exp_text_codes (t E : string) h ds :
  Str.codes t = h :: ds →
  Str.codes match t with
            | String c EmptyString => String c ("e+" +:+ E)
            | String c r => String c ("." +:+ r +:+ "e+" +:+ E)
            | EmptyString => EmptyString
            end
  = h :: match ds with [] => [] | _ :: _ => 46 :: ds end
      ++ 101 :: 43 :: Str.codes E.
Proof.
  destruct t as [|c [|c' r]]; [done| |]; simpl; intros [= <- <-]; [done|].
  by rewrite codes_app.
Qed.

(** Reading exponent notation without and with a fraction. *)
Lemma read_exponent_plain (t : string) h E Ev nE :
  Str.codes t = h :: 101 :: 43 :: E →
  48 <= h <= 57 → Str.digits 10 E 0 0 = (Ev, nE, []) → nE ≠ 0 →
  read_exponent t = Some (h - 48, 0, Ev).
Proof.
  intros Ht Hh HE HnE. unfold read_exponent. rewrite Ht.
  rewrite digits_digit by lia. rewrite digits_stop by done.
  cbv beta iota zeta. rewrite HE. cbv beta iota zeta.
  destruct (Z.eqb_spec nE 0); [done|]. reflexivity.
Qed.

Lemma read_exponent_point (t : string) h ds E s f Ev nE :
  Str.codes t = h :: 46 :: ds ++ 101 :: 43 :: E →
  48 <= h <= 57 →
  Str.digits 10 (ds ++ 101 :: 43 :: E) (h - 48) 0 = (s, f, 101 :: 43 :: E) →
  f ≠ 0 → Str.digits 10 E 0 0 = (Ev, nE, []) → nE ≠ 0 →
  read_exponent t = Some (s, f, Ev).
Proof.
  intros Ht Hh Hfrac Hf HE HnE. unfold read_exponent. rewrite Ht.
  rewrite digits_digit by lia. rewrite digits_stop by done.
  cbv beta iota zeta. replace (0 * 10 + (h - 48)) with (h - 48) by lia.
  rewrite Hfrac. cbv beta iota zeta. rewrite HE. cbv beta iota zeta.
  destruct (Z.eqb_spec nE 0); [done|]. destruct (Z.eqb_spec f 0); [done|].
  reflexivity.
Qed.

(** The text that [exp_string] writes for a number of 53 bits from 1e21
    on is exponent notation that reads back as the number. *)
Lemma exp_string_notation m e :
  2 ^ 52 <= Zpos m < 2 ^ 53 → 2 <= e <= 971 → 10 ^ 21 <= Zpos m * 2 ^ e →
  exponent_notation (S754_finite false m e) (Str.exp_string m e).
Proof.
  intros Hm He Hbig. unfold Str.exp_string.
  destruct (Z.leb_spec 0 e) as [_|?]; [|lia].
  set (X := Zpos m * 2 ^ e) in *.
  pose proof (dec_length X ltac:(lia)) as Hd. cbv zeta in Hd.
  set (d := Z.of_nat (length (Str.codes (Str.dec X)))) in *.
  assert (22 <= d) as Hd22.
  { destruct (Z.le_gt_cases 22 d) as [|Hsmall]; [done|].
    assert (10 ^ d <= 10 ^ 21) by (apply Z.pow_le_mono_r; lia). lia. }
  destruct (shortest_reads_back m e d Hm He Hd ltac:(lia) 16 1 ltac:(lia)
              ltac:(lia)) as (j & Hj & Hs & Hn & Hread).
  fold X in Hs, Hn, Hread.
  destruct (Str.shortest 16 (S754_finite false m e) X d 1) as [s n].
  cbn [fst snd] in *.
  assert (0 < 10 ^ (j - 1)) as Hpow by (apply Z.pow_pos_nonneg; lia).
  destruct (dec_spec s ltac:(lia)) as (h & ds & Hcodes & Hh & Hdigits).
  pose proof (dec_length s ltac:(lia)) as Hlen. cbv zeta in Hlen.
  rewrite Hcodes in Hlen.
  assert (Z.of_nat (length (h :: ds)) = j) as Hlenj
    by (apply (pow10_digits j _ s); [lia|simpl length; lia|done|done]).
  destruct (dec_digits (n - 1) ltac:(lia))
    as (h' & ds' & Hcodes' & _ & Hdigits').
  assert (10 ^ j <= 10 ^ 17) by (apply Z.pow_le_mono_r; lia).
  exists s, (j - 1), (n - 1). split; [|split_and!; try lia].
  2:{ by replace (n - 1 - (j - 1)) with (n - j) by lia. }
  assert (∀ tail, match tail with
                  | c :: _ => (48 <=? c) && (c <=? 57)
                  | [] => false
                  end = false →
          Str.digits 10 (ds ++ tail) (h - 48) 0 = (s, j - 1, tail)) as Hfrac.
  { intros tail Htail. specialize (Hdigits 0 (-1) tail).
    rewrite digits_digit in Hdigits by lia.
    replace (0 * 10 + (h - 48)) with (h - 48) in Hdigits by lia.
    replace (-1 + 1) with 0 in Hdigits by lia.
    rewrite Hdigits, digits_stop by done. f_equal. f_equal; lia. }
  assert (Str.digits 10 (Str.codes (Str.dec (n - 1))) 0 0
          = (n - 1, Z.of_nat (length (h' :: ds')), [])) as Hexp.
  { rewrite Hcodes'. specialize (Hdigits' 0 0 []).
    rewrite app_nil_r in Hdigits'. rewrite Hdigits'. reflexivity. }
  pose proof (exp_text_codes (Str.dec s) (Str.dec (n - 1)) h ds Hcodes)
    as Htext.
  destruct ds as [|c ds].
  - specialize (Hfrac [] eq_refl). simpl in Hfrac, Htext.
    injection Hfrac as Hhs Hj1.
    rewrite (read_exponent_plain _ _ _ _ _ Htext ltac:(lia) Hexp)
      by (simpl; lia).
    by rewrite Hhs, <- Hj1.
  - eapply (read_exponent_point _ h (c :: ds));
      [exact Htext|lia|by apply Hfrac|simpl length in Hlenj; lia|exact Hexp
      |simpl; lia].
Qed.

(** ** Quotients are numbers in canonical form *)

(** Facts on the number of bits. *)
Lemma Zdigits2_log2 m : 0 < m → Zdigits2 m = Z.log2 m + 1.
Proof. destruct m as [|p|p]; try lia. intros _. apply digits2_log2. Qed.

Lemma Zdigits2_nonneg m : 0 <= Zdigits2 m.
Proof. destruct m; simpl; lia. Qed.

Lemma Zdigits2_le a b : 0 <= a <= b → Zdigits2 a <= Zdigits2 b.
Proof.
  intros Hab. destruct (Z.eq_dec a 0) as [->|Ha].
  - apply Zdigits2_nonneg.
  - rewrite !Zdigits2_log2 by lia.
    pose proof (Z.log2_le_mono a b ltac:(lia)). lia.
Qed.

Lemma Zdigits2_shift m n :
  0 < m → 0 <= n → 0 < m / 2 ^ n →
  Zdigits2 (m / 2 ^ n) = Zdigits2 m - n.
Proof.
  intros Hm Hn Hq. rewrite !Zdigits2_log2 by lia.
  assert (n <= Z.log2 m) as Hlog.
  { apply Z.log2_le_pow2; [lia|].
    destruct (Z.le_gt_cases (2 ^ n) m) as [|Hsmall]; [done|].
    rewrite Z.div_small in Hq by lia. lia. }
  rewrite <- Z.shiftr_div_pow2 by lia.
  rewrite Z.log2_shiftr by lia. lia.
Qed.

Lemma Zdigits2_bounds m :
  0 < m → 2 ^ (Zdigits2 m - 1) <= m < 2 ^ Zdigits2 m.
Proof.
  intros Hm. rewrite Zdigits2_log2 by done.
  pose proof (Z.log2_spec m Hm) as Hspec.
  replace (Z.log2 m + 1 - 1) with (Z.log2 m) by lia.
  replace (Z.log2 m + 1) with (Z.succ (Z.log2 m)) by lia. done.
Qed.

Lemma fexp_mono a b : a <= b → fexp 53 1024 a <= fexp 53 1024 b.
Proof. rewrite !fexp_eq. lia. Qed.

(** The mantissa and the exponent after a shift. *)
Lemma iter_shr_m p : ∀ mrs,
  0 <= shr_m mrs →
  shr_m (SpecFloat.iter_pos shr_1 p mrs) = shr_m mrs / 2 ^ Zpos p.
Proof.
  assert (∀ mrs, 0 <= shr_m mrs → shr_m (shr_1 mrs) = shr_m mrs / 2) as Hstep.
  { intros [a r s] Ha. simpl in Ha. by rewrite shr_1_nonneg_eq. }
  assert (∀ a n k, 0 <= n → 0 <= k → a / 2 ^ n / 2 ^ k = a / 2 ^ (n + k))
    as Hdiv.
  { intros a n k Hn Hk. rewrite Z.pow_add_r by done.
    pose proof (Z.pow_pos_nonneg 2 n ltac:(lia) Hn).
    pose proof (Z.pow_pos_nonneg 2 k ltac:(lia) Hk).
    by rewrite Z.div_div by lia. }
  induction p as [p IH|p IH|]; intros mrs Hm; cbn [SpecFloat.iter_pos].
  - assert (0 <= shr_m (shr_1 mrs)) as H1
      by (rewrite Hstep by done; apply Z.div_pos; lia).
    assert (0 <= shr_m (SpecFloat.iter_pos shr_1 p (shr_1 mrs))) as H2.
    { rewrite IH by done. apply Z.div_pos; [done|].
      apply Z.pow_pos_nonneg; lia. }
    rewrite !IH, Hstep by done.
    change (shr_m mrs / 2) with (shr_m mrs / 2 ^ 1).
    rewrite !Hdiv by lia. f_equal. f_equal. lia.
  - assert (0 <= shr_m (SpecFloat.iter_pos shr_1 p mrs)) as H2.
    { rewrite IH by done. apply Z.div_pos; [done|].
      apply Z.pow_pos_nonneg; lia. }
    rewrite !IH by done. rewrite Hdiv by lia. f_equal. f_equal. lia.
  - by apply Hstep.
Qed.

Lemma shr_fexp_m m e l :
  0 <= m →
  let n := Z.max (fexp 53 1024 (Zdigits2 m + e) - e) 0 in
  shr_m (shr_fexp 53 1024 m e l).1 = m / 2 ^ n
  ∧ (shr_fexp 53 1024 m e l).2 = e + n.
Proof.
  intros Hm n. unfold shr_fexp, shr in *.
  assert (shr_m (shr_record_of_loc m l) = m) as Hrec
    by (by destruct l as [|[]]).
  destruct (fexp 53 1024 (Zdigits2 m + e) - e) as [|p|p] eqn:Hn;
    subst n; cbn [fst snd].
  - rewrite Hrec. simpl. rewrite Z.div_1_r. lia.
  - rewrite iter_shr_m by lia. rewrite Hrec.
    replace (Z.pos p `max` 0) with (Z.pos p) by lia. done.
  - rewrite Hrec. replace (Z.neg p `max` 0) with 0 by lia.
    simpl. rewrite Z.div_1_r. lia.
Qed.

Lemma round_nearest_even_bounds a l :
  a <= round_nearest_even a l <= a + 1.
Proof.
  destruct l as [|[]]; simpl; try lia. destruct (Z.even a); lia.
Qed.

(** Rounding gives a mantissa in canonical form when the mantissa it
    starts from is long enough for its exponent. *)
Lemma binary_round_aux_canonical s mz ez lz s' m e :
  0 <= mz → ez <= fexp 53 1024 (Zdigits2 mz + ez) →
  binary_round_aux 53 1024 s mz ez lz = S754_finite s' m e →
  s' = s ∧ fexp 53 1024 (Zdigits2 (Zpos m) + e) = e ∧ e <= 971.
Proof.
  intros Hmz Hpre. unfold binary_round_aux.
  pose proof (shr_fexp_m mz ez lz Hmz) as [Ha He'].
  destruct (shr_fexp 53 1024 mz ez lz) as [mrs' e']. cbn [fst snd] in Ha, He'.
  pose proof (round_nearest_even_bounds (shr_m mrs') (loc_of_shr_record mrs'))
    as Hm1.
  set (m1 := round_nearest_even (shr_m mrs') (loc_of_shr_record mrs')) in *.
  set (n1 := Z.max (fexp 53 1024 (Zdigits2 mz + ez) - ez) 0) in *.
  assert (0 < 2 ^ n1) as Hpow1 by (apply Z.pow_pos_nonneg; lia).
  assert (0 <= shr_m mrs') as Ha0 by (rewrite Ha; apply Z.div_pos; lia).
  pose proof (shr_fexp_m m1 e' loc_Exact ltac:(lia)) as [Hb He''].
  destruct (shr_fexp 53 1024 m1 e' loc_Exact) as [mrs'' e''].
  cbn [fst snd] in Hb, He''.
  set (n2 := Z.max (fexp 53 1024 (Zdigits2 m1 + e') - e') 0) in *.
  destruct (shr_m mrs'') as [|p|p] eqn:Hp; try done.
  change (1024 - 53) with 971.
  destruct (Z.leb_spec e'' 971) as [Hle|]; [|done].
  intros [= <- <- <-]. split; [done|]. split; [|done].
  assert (e' <= fexp 53 1024 (Zdigits2 m1 + e')) as Hcanon.
  { destruct (Z.eq_dec (shr_m mrs') 0) as [Hzero|Hpos].
    - assert (e' = -1074); [|rewrite fexp_eq; lia].
      destruct (Z.eq_dec mz 0) as [->|Hmz0].
      + simpl in Hpre. rewrite fexp_eq in Hpre. unfold n1 in He'.
        simpl in He'. rewrite fexp_eq in He'. lia.
      + pose proof (Zdigits2_bounds mz ltac:(lia)) as Hdig.
        assert (mz < 2 ^ n1) as Hsmall.
        { destruct (Z.le_gt_cases (2 ^ n1) mz) as [Hge|]; [|done].
          assert (1 <= mz / 2 ^ n1)
            by (apply Z.div_le_lower_bound; lia).
          lia. }
        assert (Zdigits2 mz - 1 < n1) as Hlt.
        { apply (Z.pow_lt_mono_r_iff 2); lia. }
        unfold n1 in *. rewrite fexp_eq in *. lia.
    - assert (0 < mz) as Hmz0.
      { destruct (Z.eq_dec mz 0) as [->|]; [|lia].
        rewrite Z.div_0_l in Ha by lia. lia. }
      pose proof (Zdigits2_shift mz n1 Hmz0 ltac:(lia) ltac:(lia)) as Hdig.
      rewrite <- Ha in Hdig.
      pose proof (Zdigits2_le (shr_m mrs') m1 ltac:(lia)) as Hle1.
      pose proof (fexp_mono (Zdigits2 (shr_m mrs') + e') (Zdigits2 m1 + e')
                    ltac:(lia)) as Hmono.
      assert (Zdigits2 (shr_m mrs') + e' = Zdigits2 mz + ez) as Hsum
        by (unfold n1 in *; lia).
      rewrite Hsum in Hmono. unfold n1 in *. lia. }
  assert (0 < 2 ^ n2) as Hpow2 by (apply Z.pow_pos_nonneg; lia).
  assert (0 < m1) as Hm1pos.
  { destruct (Z.eq_dec m1 0) as [Hz|]; [|lia].
    rewrite Hz, Z.div_0_l in Hb by lia. lia. }
  pose proof (Zdigits2_shift m1 n2 Hm1pos ltac:(lia) ltac:(lia)) as Hdig.
  rewrite <- Hb in Hdig.
  assert (Zdigits2 (Z.pos p) + e'' = Zdigits2 m1 + e') as Hsum
    by (unfold n2 in *; lia).
  rewrite Hsum. unfold n2 in *. lia.
Qed.

(** The integer quotient that the division rounds has 53 bits at
    least, unless its exponent is the least one. *)
Lemma div_core_long mx ex my ey q e' l :
  SFdiv_core_binary 53 1024 (Zpos mx) ex (Zpos my) ey = (q, e', l) →
  0 <= q ∧ e' <= fexp 53 1024 (Zdigits2 q + e').
Proof.
  unfold SFdiv_core_binary.
  set (d1 := Zdigits2 (Zpos mx)). set (d2 := Zdigits2 (Zpos my)).
  set (e0 := Z.min (fexp 53 1024 (d1 + ex - (d2 + ey))) (ex - ey)).
  set (s := ex - ey - e0).
  set (m' := match s with
             | 0 => Z.pos mx
             | Z.pos _ => Z.shiftl (Z.pos mx) s
             | Z.neg _ => 0
             end).
  assert (0 <= s) as Hs by (unfold s, e0; lia).
  assert (m' = Zpos mx * 2 ^ s) as Hm'.
  { unfold m'. destruct s as [|k|k] eqn:Hk; [lia| |lia].
    by rewrite Z.shiftl_mul_pow2. }
  assert (0 < 2 ^ s) as Hpow by (apply Z.pow_pos_nonneg; lia).
  destruct (Z.div_eucl m' (Z.pos my)) as [q0 r0] eqn:Hdiv.
  assert (q0 = m' / Zpos my) as Hq by (unfold Z.div; by rewrite Hdiv).
  intros [= <- <- <-].
  assert (0 <= q0) as Hq0 by (rewrite Hq; apply Z.div_pos; lia).
  split; [done|].
  destruct (Z.le_gt_cases e0 (-1074)) as [Hlow|Hhigh];
    [rewrite fexp_eq; lia|].
  pose proof (Zdigits2_bounds (Zpos mx) ltac:(lia)) as H1. fold d1 in H1.
  pose proof (Zdigits2_bounds (Zpos my) ltac:(lia)) as H2. fold d2 in H2.
  assert (1 <= d1) as Hd1 by (unfold d1; simpl; lia).
  assert (1 <= d2) as Hd2 by (unfold d2; simpl; lia).
  assert (53 - d1 + d2 <= s) as Hs53
    by (unfold s, e0 in *; rewrite fexp_eq in *; lia).
  assert (2 ^ 52 <= q0) as Hbig.
  { rewrite Hq. apply Z.div_le_lower_bound; [lia|].
    assert (2 ^ (52 + d2) <= 2 ^ (d1 - 1 + s)) as Hmono
      by (apply Z.pow_le_mono_r; lia).
    rewrite !Z.pow_add_r in Hmono by lia. nia. }
  assert (53 <= Zdigits2 q0) as Hdig.
  { rewrite Zdigits2_log2 by lia.
    assert (52 <= Z.log2 q0) by (apply Z.log2_le_pow2; lia). lia. }
  rewrite fexp_eq. lia.
Qed.

(** A quotient of two numbers that are not negative is not negative, and
    when it is finite its mantissa is in canonical form. *)
Lemma div_canonical x y s m e :
  Num.ge x Num.pzero = true → Num.ge y Num.pzero = true →
  Num.div x y = S754_finite s m e →
  s = false ∧ fexp 53 1024 (Zdigits2 (Zpos m) + e) = e ∧ e <= 971.
Proof.
  destruct x as [[]|[]| |[] mx ex], y as [[]|[]| |[] my ey]; try done.
  intros _ _. unfold Num.div, Num.prec, Num.emax, SFdiv.
  destruct (SFdiv_core_binary 53 1024 (Z.pos mx) ex (Z.pos my) ey)
    as [[q e'] l] eqn:Hcore.
  destruct (div_core_long _ _ _ _ _ _ _ Hcore) as [Hq Hlong].
  intros Hround.
  by destruct (binary_round_aux_canonical _ _ _ _ _ _ _ Hq Hlong Hround)
    as (-> & ? & ?).
Qed.

(** A number in canonical form from 1e21 on has a mantissa of 53 bits
    and is an integer. *)
Lemma canonical_large m e :
  fexp 53 1024 (Zdigits2 (Zpos m) + e) = e → e <= 971 →
  below_1e21 (S754_finite false m e) = false →
  2 ^ 52 <= Zpos m < 2 ^ 53 ∧ 2 <= e <= 971 ∧ 10 ^ 21 <= Zpos m * 2 ^ e.
Proof.
  intros Hcanon Hmax. rewrite below_1e21_finite. intros Hbig%negb_false_iff.
  unfold Str.at_least_1e21 in Hbig.
  pose proof (Zdigits2_bounds (Zpos m) ltac:(lia)) as Hdig.
  rewrite fexp_eq in Hcanon.
  assert (2 ^ Zdigits2 (Z.pos m) <= 2 ^ 53 ∨ 53 = Zdigits2 (Z.pos m)) as Hcase.
  { destruct (Z.le_gt_cases (Zdigits2 (Z.pos m)) 53);
      [left; apply Z.pow_le_mono_r; lia|right; lia]. }
  destruct (Z.leb_spec 0 e) as [He|He].
  - apply Z.leb_le in Hbig.
    assert (2 ^ e <= 2 ^ 1 ∨ 2 <= e) as [Hsmall|He2].
    { destruct (Z.le_gt_cases e 1); [left; apply Z.pow_le_mono_r; lia|lia]. }
    + pose proof (Z.pow_pos_nonneg 2 e ltac:(lia) He).
      destruct Hcase as [Hc|Hc]; [|rewrite <- Hc in Hdig]; nia.
    + assert (Zdigits2 (Z.pos m) = 53) as H53 by lia.
      rewrite H53 in Hdig. change (53 - 1) with 52 in Hdig. lia.
  - apply Z.leb_le in Hbig.
    assert (1 <= 2 ^ (- e)) by (pose proof (Z.pow_pos_nonneg 2 (- e)); lia).
    destruct Hcase as [Hc|Hc]; [|rewrite <- Hc in Hdig]; nia.
Qed.

(** From 1e21 on, [toFixed(2)] of a quotient is exponent notation that
    reads back as the quotient. *)
Lemma toFixed2_exponent x y s m e :
  Num.ge x Num.pzero = true → Num.ge y Num.pzero = true →
  Num.div x y = S754_finite s m e →
  below_1e21 (S754_finite s m e) = false →
  exponent_notation (Num.div x y) (Str.toFixed2 (Num.div x y)).
Proof.
  intros Hx Hy Hdiv Hbig. rewrite Hdiv.
  destruct (div_canonical x y s m e Hx Hy Hdiv) as (-> & Hcanon & Hmax).
  destruct (canonical_large m e Hcanon Hmax Hbig) as (Hm & He & Hvalue).
  rewrite below_1e21_finite in Hbig. apply negb_false_iff in Hbig.
  unfold Str.toFixed2. rewrite Hbig.
  change ("" +:+ Str.exp_string m e) with (Str.exp_string m e).
  by apply exp_string_notation.
Qed.

(** ** Summary *)

Lemma fold_left_prices (l : list Product) : ∀ acc,
  fold_left (λ sum p, Num.add sum (price p)) l acc
  = fold_left Num.add (price <$> l) acc.
Proof. induction l as [|p l IH]; intros acc; simpl; [done|apply IH]. Qed.

Lemma huge_reachable : reachable huge_products.
Proof.
  refine (reachable_handle initial_products huge_request reachable_initial _).
  cbv [valid_request huge_request]. lia.
Qed.

(** The claim C3 as the specification states it fails: with a product of
    price 1e22 in the catalog the average is 2e21, and [toFixed(2)]
    writes it [2e+21], not with two decimals. *)
Lemma summary_claim_fails :
  reachable huge_products ∧ ¬ summary_claim huge_products.
Proof.
  split; [apply huge_reachable|].
  intros (s & Hs & _ & _ & Havg & _).
  vm_compute in Hs. injection Hs as <-.
  destruct Havg as [[Hnil _]|(t & Ht & Hjs)].
  { vm_compute in Hnil. discriminate Hnil. }
  vm_compute in Hjs. injection Hjs as <-.
  remember (Num.div _ _) as q eqn:Hq in Ht. vm_compute in Hq. subst q.
  destruct Ht as (n & Hread & _). vm_compute in Hread. discriminate Hread.
Qed.

Lemma gt_irrefl x : Num.gt x x = false.
Proof. apply lt_irrefl. Qed.

Lemma gt_trans x y z :
  Num.gt x y = true → Num.gt y z = true → Num.gt x z = true.
Proof. intros Hxy Hyz. by apply (lt_trans z y x). Qed.

Lemma gt_negtrans x y z :
  Num.is_nan y = false →
  Num.gt x y = false → Num.gt y z = false → Num.gt x z = false.
Proof. intros Hy Hxy Hyz. by apply (lt_negtrans z y x). Qed.

(** The cheapest and the most expensive record of a catalog whose prices
    are numbers. *)
Lemma cheapest_first_best first rest :
  prices_ok (first :: rest) →
  first_best Num.le Num.lt (first :: rest)
    (Some (fold_left (λ min p, if Num.lt (price p) (price min) then p else min)
             (first :: rest) first)).
Proof.
  intros Hok.
  destruct (fold_pick_first Num.lt lt_irrefl lt_trans lt_negtrans first rest Hok)
    as (i & Hi & Hall & Hfirst).
  exists i. split_and!; [done| |done].
  intros q Hq. apply lt_false_le; [| |by apply Hall].
  - by apply (proj1 (Forall_forall _ _) Hok q).
  - by apply (Forall_lookup_1 _ _ _ _ Hok Hi).
Qed.

Lemma most_expensive_first_best first rest :
  prices_ok (first :: rest) →
  first_best Num.ge Num.gt (first :: rest)
    (Some (fold_left (λ max p, if Num.gt (price p) (price max) then p else max)
             (first :: rest) first)).
Proof.
  intros Hok.
  destruct (fold_pick_first Num.gt gt_irrefl gt_trans gt_negtrans first rest Hok)
    as (i & Hi & Hall & Hfirst).
  exists i. split_and!; [done| |done].
  intros q Hq. apply (lt_false_le _ (price q)); [| |by apply Hall].
  - by apply (Forall_lookup_1 _ _ _ _ Hok Hi).
  - by apply (proj1 (Forall_forall _ _) Hok q).
Qed.

(** The summary of the initial catalog. *)
Lemma summary_initial :
  ∃ s cheapest dearest,
    get_summary initial_products = (Response 200 (SummaryBody s), initial_products)
    ∧ totalProducts s = 4%nat
    ∧ totalValue s = Num.of_Z 161960
    ∧ averagePrice s = JStr "40490.00"
    ∧ cheapestProduct s = Some cheapest
    ∧ id cheapest = Num.of_Z 3 ∧ price cheapest = Num.of_Z 5990
    ∧ mostExpensiveProduct s = Some dearest
    ∧ id dearest = Num.of_Z 2 ∧ price dearest = Num.of_Z 89990.
Proof.
  eexists _, _, _. split; [reflexivity|]. by vm_compute.
Qed.

(** C3 (amended).  For every catalog the server can be in, Summary leaves
    the catalog unchanged and returns: [totalProducts], the count of
    records; [totalValue], the sum of the prices added in sequence order;
    [averagePrice], the number 0 when the catalog is empty and otherwise
    the text that [toFixed(2)] gives for [totalValue / totalProducts];
    [cheapestProduct] and [mostExpensiveProduct], null when the catalog
    is empty and otherwise a record whose price is at most (at least)
    every price and strictly below (above) the price of every record
    before it.  The text of the average is the quotient rounded to two
    decimal places whenever its magnitude is below 1e21: it denotes the
    hundredths nearest to the quotient, the larger of two nearest.  For a
    finite quotient of 1e21 or more it is exponent notation, with at most
    seventeen digits that denote an integer to which the quotient is the
    nearest number, and for an infinite quotient it is "Infinity".  On
    the initial catalog the values are 4, 161960, "40490.00", the record
    with id 3 and the record with id 2. *)
Theorem summary_correct products :
  reachable products →
  (∃ s,
    get_summary products = (Response 200 (SummaryBody s), products)
    ∧ totalProducts s = length products
    ∧ totalValue s = sum_prices products
    ∧ (products = [] → averagePrice s = JNum Num.pzero)
    ∧ (products ≠ [] →
         let q := Num.div (sum_prices products)
                    (Num.of_Z (Z.of_nat (length products))) in
         averagePrice s = JStr (Str.toFixed2 q)
         ∧ (below_1e21 q = true →
              ∃ t, averagePrice s = JStr t ∧ two_decimals q t)
         ∧ (∀ sign m e, q = S754_finite sign m e → below_1e21 q = false →
              ∃ t, averagePrice s = JStr t ∧ exponent_notation q t)
         ∧ (q = S754_infinity false → averagePrice s = JStr "Infinity"))
    ∧ first_best Num.le Num.lt products (cheapestProduct s)
    ∧ first_best Num.ge Num.gt products (mostExpensiveProduct s))
  ∧ (∃ s cheapest dearest,
      get_summary initial_products
        = (Response 200 (SummaryBody s), initial_products)
      ∧ totalProducts s = 4%nat
      ∧ totalValue s = Num.of_Z 161960
      ∧ averagePrice s = JStr "40490.00"
      ∧ cheapestProduct s = Some cheapest
      ∧ id cheapest = Num.of_Z 3 ∧ price cheapest = Num.of_Z 5990
      ∧ mostExpensiveProduct s = Some dearest
      ∧ id dearest = Num.of_Z 2 ∧ price dearest = Num.of_Z 89990).
Proof.
  intros Hreach. pose proof (reachable_prices_ok _ Hreach) as Hok.
  pose proof (reachable_valid _ Hreach) as Hvalid.
  split; [|apply summary_initial].
  eexists. split; [reflexivity|]. simpl.
  split_and!.
  - done.
  - apply fold_left_prices.
  - by intros ->.
  - destruct products as [|first rest]; [done|]. intros _.
    assert (Num.ge (sum_prices (first :: rest)) Num.pzero = true) as Hsum.
    { unfold sum_prices. rewrite <- fold_left_prices.
      by apply fold_add_nonneg. }
    assert (Num.ge (Num.of_Z (Z.of_nat (length (first :: rest)))) Num.pzero
            = true) as Hlen by (apply of_Z_nonneg; lia).
    rewrite (fold_left_prices (first :: rest)).
    fold (sum_prices (first :: rest)).
    set (q := Num.div (sum_prices (first :: rest))
                (Num.of_Z (Z.of_nat (length (first :: rest))))) in *.
    cbn [length]. cbv zeta. split_and!.
    + done.
    + intros Hbelow. eexists. split; [done|].
      by apply toFixed2_two_decimals.
    + intros sign m e Hq Hbig. eexists. split; [done|].
      rewrite Hq in Hbig. unfold q in *.
      by apply (toFixed2_exponent _ _ sign m e).
    + by intros ->.
  - destruct products as [|first rest]; [done|].
    by apply cheapest_first_best.
  - destruct products as [|first rest]; [done|].
    by apply most_expensive_first_best.
Qed.

Lemma summary_correct_witness :
  (reachable initial_products
   ∧ initial_products ≠ []
   ∧ below_1e21 (Num.div (sum_prices initial_products)
                   (Num.of_Z (Z.of_nat (length initial_products)))) = true
   ∧ ∃ s, get_summary initial_products
            = (Response 200 (SummaryBody s), initial_products)
       ∧ (∃ t, averagePrice s = JStr t
             ∧ two_decimals (Num.div (sum_prices initial_products)
                  (Num.of_Z (Z.of_nat (length initial_products)))) t)
       ∧ first_best Num.le Num.lt initial_products (cheapestProduct s)
       ∧ first_best Num.ge Num.gt initial_products (mostExpensiveProduct s))
  ∧ (reachable huge_products
     ∧ huge_products ≠ []
     ∧ Num.div (sum_prices huge_products)
         (Num.of_Z (Z.of_nat (length huge_products)))
       = S754_finite false 7629394531250000 18
     ∧ below_1e21 (S754_finite false 7629394531250000 18) = false
     ∧ ∃ s t, get_summary huge_products
                = (Response 200 (SummaryBody s), huge_products)
         ∧ averagePrice s = JStr t
         ∧ exponent_notation (S754_finite false 7629394531250000 18) t).
Proof.
  split.
  - split; [apply reachable_initial|]. split; [done|].
    split; [by vm_compute|].
    destruct (summary_correct initial_products reachable_initial)
      as [(s & Hs & _ & _ & _ & Havg & Hmin & Hmax) _].
    exists s. split; [done|]. split; [|done].
    destruct (Havg ltac:(done)) as (_ & Htwo & _). apply Htwo. by vm_compute.
  - assert (huge_products ≠ []) as Hcons
      by (intros H; vm_compute in H; discriminate H).
    assert (Num.div (sum_prices huge_products)
              (Num.of_Z (Z.of_nat (length huge_products)))
            = S754_finite false 7629394531250000 18) as Hq
      by (by vm_compute).
    split; [apply huge_reachable|]. split; [done|]. split; [done|].
    split; [by vm_compute|].
    destruct (summary_correct huge_products huge_reachable)
      as [(s & Hs & _ & _ & _ & Havg & _) _].
    destruct (Havg Hcons) as (_ & _ & Hexp & _).
    destruct (Hexp _ _ _ Hq) as (t & Ht & Hnotation).
    { rewrite Hq. by vm_compute. }
    exists s, t. split; [done|]. split; [done|]. by rewrite <- Hq.
Defined.

(** ** Replace *)

Lemma put_product_found products id_param n p i product :
  findProductById products id_param = Some (i, product) →
  put_product products id_param n p
  = if negb (ToBoolean n) || is_undefined p then
      (Response 400 (ErrorBody error_fields), products)
    else
      match ToNumber p with
      | None => (Uncaught, products)
      | Some x =>
          if Num.is_nan x || Num.lt x Num.pzero then
            (Response 400 (ErrorBody error_price), products)
          else
            let product' := {| id := id product; name := n; price := x |} in
            (Response 200 (MessageBody "Товар полностью обновлен" product'),
             <[i := product']> products)
      end.
Proof. unfold put_product. by intros ->. Qed.

(** C4.  ReplaceById looks the id up before it validates the fields.
    When no record has the id it fails with the not-found error and
    leaves the catalog unchanged, whatever the name and the price.  When
    a record has the id, it fails with a validation error exactly when
    Create fails with one on the same fields, and then the catalog is
    unchanged and the error is not the not-found error.  When a record
    has the id and the fields are accepted (a truthy name and a price
    that converts, without throwing, to a number that is neither NaN nor
    negative), it answers 200: the first record with the id is
    overwritten in place with the given name and the converted price and
    it is the record returned.  Whenever it answers 200, the first record
    with the id has been overwritten in place in this way, the other
    records and the length are unchanged, and the record returned is the
    updated one. *)
Theorem replace_existence_first products id_param n p :
  let r := put_product products id_param n p in
  (¬ id_exists products (Str.parseInt id_param) →
     r = (Response 404 (ErrorBody error_not_found), products))
  ∧ (id_exists products (Str.parseInt id_param) →
       ¬ NotFoundError r.1
       ∧ (ValidationError r.1 → r.2 = products)
       ∧ ∀ now offset,
           ValidationError r.1
           ↔ ValidationError (post_products products now offset n p).1)
  ∧ (id_exists products (Str.parseInt id_param) →
     to_primitive_throws p = false →
       (ValidationError r.1 ↔ rejected n p)
       ∧ (¬ rejected n p →
            ∃ i product,
              findProductById products id_param = Some (i, product)
              ∧ products !! i = Some product
              ∧ Num.eq (id product) (Str.parseInt id_param) = true
              ∧ (∀ j q, products !! j = Some q → (j < i)%nat →
                   Num.eq (id q) (Str.parseInt id_param) = false)
              ∧ let product' :=
                  {| id := id product; name := n; price := to_number p |} in
                r = (Response 200
                       (MessageBody "Товар полностью обновлен" product'),
                     <[i := product']> products)))
  ∧ (∀ b, r.1 = Response 200 b →
       ∃ i product,
         findProductById products id_param = Some (i, product)
         ∧ let product' :=
             {| id := id product; name := n; price := to_number p |} in
           b = MessageBody "Товар полностью обновлен" product'
           ∧ r.2 = <[i := product']> products
           ∧ r.2 !! i = Some product'
           ∧ (∀ j, j ≠ i → r.2 !! j = products !! j)
           ∧ length r.2 = length products).
Proof.
  intros r. subst r.
  destruct (findProductById products id_param) as [[i product]|] eqn:Hfind.
  - pose proof (find_Some_exists _ _ _ _ Hfind) as [Hi Hex].
    rewrite (put_product_found _ _ _ _ _ _ Hfind). unfold post_products.
    split_and!; [done| | |].
    + intros _.
      destruct (negb (ToBoolean n) || is_undefined p);
        [by split_and!; [intros [? ?]| |]|].
      destruct (ToNumber p) as [x|];
        [|by split_and!; [intros [? ?]|intros [? ?]|split; intros [? ?]]].
      destruct (Num.is_nan x || Num.lt x Num.pzero);
        [by split_and!; [intros [? ?]| |]|].
      by split_and!; [intros [? ?]|intros [? ?]|split; intros [? ?]].
    + intros _ Hthrow. unfold rejected, ToNumber. rewrite Hthrow.
      destruct (ToBoolean n) eqn:Hn; simpl;
        [|split; [split; [auto|by eexists]|intros []; auto]].
      destruct (is_undefined p) eqn:Hp; simpl.
      { apply is_undefined_iff in Hp as ->.
        split; [split; [auto|by eexists]|intros []; auto]. }
      assert (p ≠ JUndefined) as Hp' by (by intros ->).
      destruct (Num.is_nan (to_number p)) eqn:Hnan; simpl.
      { split; [split; [auto|by eexists]|intros []; auto]. }
      destruct (Num.lt (to_number p) Num.pzero) eqn:Hneg; simpl.
      { split; [split; [auto|by eexists]|intros []; auto]. }
      split; [split; [by intros [? ?]|intros [|[|[|]]]; done]|].
      intros _. exists i, product.
      apply list_find_Some in Hfind as (Hat & Heq & Hfirst).
      split_and!; [done|done|done| |done].
      intros j q Hq Hj. specialize (Hfirst j q Hq Hj).
      by destruct (Num.eq (id q) (Str.parseInt id_param)).
    + intros b.
      destruct (negb (ToBoolean n) || is_undefined p); [done|].
      unfold ToNumber. destruct (to_primitive_throws p); [done|].
      destruct (Num.is_nan (to_number p) || Num.lt (to_number p) Num.pzero);
        [done|].
      simpl. intros [= <-]. exists i, product.
      split_and!; [done|done|done| | |].
      * apply list_lookup_insert_eq. by eapply lookup_lt_Some.
      * intros j Hj. by apply list_lookup_insert_ne.
      * apply length_insert.
  - apply find_None_iff in Hfind as Hno.
    unfold put_product. rewrite Hfind. by split_and!.
Qed.

Lemma replace_existence_first_witness :
  (¬ id_exists initial_products (Str.parseInt "7")
   ∧ put_product initial_products "7" JUndefined (JStr "abc")
     = (Response 404 (ErrorBody error_not_found), initial_products))
  ∧ (id_exists initial_products (Str.parseInt "2")
     ∧ ValidationError (put_product initial_products "2" JUndefined (JStr "abc")).1)
  ∧ (to_primitive_throws (JStr "7") = false
     ∧ ¬ rejected (JStr "N") (JStr "7")
     ∧ put_product initial_products "2" (JStr "N") (JStr "7")
       = (Response 200
            (MessageBody "Товар полностью обновлен"
               {| id := Num.of_Z 2; name := JStr "N"; price := Num.of_Z 7 |}),
          <[1%nat := {| id := Num.of_Z 2; name := JStr "N";
                        price := Num.of_Z 7 |}]> initial_products))
  ∧ (put_product initial_products "2" (JStr "N") (JStr "7")).2 !! 1%nat
    = Some {| id := Num.of_Z 2; name := JStr "N"; price := Num.of_Z 7 |}.
Proof.
  assert (¬ id_exists initial_products (Str.parseInt "7")) as Hno.
  { apply find_None_iff. reflexivity. }
  assert (id_exists initial_products (Str.parseInt "2")) as Hyes.
  { apply (find_Some_exists initial_products "2" 1%nat
             {| id := Num.of_Z 2; name := JStr "Ноутбук Ultra 15";
                price := Num.of_Z 89990 |}).
    reflexivity. }
  assert (¬ rejected (JStr "N") (JStr "7")) as Hfields.
  { unfold rejected. intros [H|[H|[H|H]]]; vm_compute in H; discriminate H. }
  split_and!.
  - exact Hno.
  - exact (proj1 (replace_existence_first initial_products "7" JUndefined
                    (JStr "abc")) Hno).
  - exact Hyes.
  - destruct (replace_existence_first initial_products "2" JUndefined (JStr "abc"))
      as (_ & Hfound & _).
    destruct (Hfound Hyes) as (_ & _ & Hiff).
    apply (Hiff 0 0). by eexists.
  - reflexivity.
  - exact Hfields.
  - destruct (replace_existence_first initial_products "2" (JStr "N") (JStr "7"))
      as (_ & _ & Haccepted & _).
    destruct (Haccepted Hyes eq_refl) as [_ Hok].
    destruct (Hok Hfields) as (i & product & Hfind & _ & _ & _ & Hr).
    vm_compute in Hfind. injection Hfind as <- <-. exact Hr.
  - destruct (replace_existence_first initial_products "2" (JStr "N") (JStr "7"))
      as (_ & _ & _ & Hok).
    destruct (Hok _ eq_refl) as (i & product & Hfind & _ & _ & Hi & _).
    vm_compute in Hfind. injection Hfind as <- <-. exact Hi.
Defined.

(** ** Patch *)

Lemma patch_product_found products id_param n p i product :
  findProductById products id_param = Some (i, product) →
  let product1 :=
    {| id := id product;
       name := if is_undefined n then name product else n;
       price := price product |} in
  patch_product products id_param n p
  = if is_undefined p then
      (Response 200 (MessageBody "Товар частично обновлен" product1),
       <[i := product1]> products)
    else
      match ToNumber p with
      | None => (Uncaught, <[i := product1]> products)
      | Some x =>
          if Num.is_nan x || Num.lt x Num.pzero then
            (Response 400 (ErrorBody error_price), <[i := product1]> products)
          else
            let product2 :=
              {| id := id product; name := name product1; price := x |} in
            (Response 200 (MessageBody "Товар частично обновлен" product2),
             <[i := product2]> products)
      end.
Proof.
  intros Hfind product1. unfold patch_product. rewrite Hfind.
  assert ((if is_undefined n then product
           else {| id := id product; name := n; price := price product |})
          = product1) as ->.
  { subst product1. destruct (is_undefined n); [by destruct product|done]. }
  destruct (is_undefined p); [done|].
  destruct (ToNumber p) as [x|]; [|done].
  destruct (Num.is_nan x || Num.lt x Num.pzero); [done|].
  simpl. by rewrite list_insert_insert_eq.
Qed.

(** C5 (the code departs from the claim).  A patch of the first initial
    record that supplies only the price [true], which is not numeric, is
    answered 200 and overwrites the price 49990 with 1, although a price
    is to be overwritten only when it is provided, numeric and not
    negative.  The handler tests [isNaN(price) || price < 0], which looks
    at the number the price converts to, and answers a price it turns
    down with the text that the price must be a number. *)
Theorem patch_non_numeric_price :
  let r := patch_product initial_products "1" JUndefined (JBool true) in
  let product :=
    {| id := Num.of_Z 1; name := JStr "Смартфон X Pro";
       price := Num.of_Z 49990 |} in
  let product' :=
    {| id := Num.of_Z 1; name := JStr "Смартфон X Pro"; price := Num.of_Z 1 |} in
  numeric (JBool true) = false
  ∧ findProductById initial_products "1" = Some (0%nat, product)
  ∧ r = (Response 200 (MessageBody "Товар частично обновлен" product'),
         <[0%nat := product']> initial_products)
  ∧ r.2 !! 0%nat = Some product'
  ∧ price product' ≠ price product
  ∧ ¬ patch_claim initial_products "1" JUndefined (JBool true).
Proof.
  intros r product product'.
  assert (price product' ≠ price product) as Hprice
    by (vm_compute; discriminate).
  split_and!; [done|done|done|done|done|].
  intros Hclaim.
  destruct (Hclaim 0%nat product eq_refl)
    as (q & Hlookup & _ & _ & Hnumeric & _).
  change (Some product' = Some q) in Hlookup. injection Hlookup as <-.
  destruct (Hnumeric Hprice) as (_ & Hfalse & _). discriminate Hfalse.
Qed.

(** What PatchById does with the fields of an existing record.  It
    overwrites the price with the number the provided price converts to
    exactly when that conversion does not throw and gives a number that
    is neither NaN nor negative; the id, the other records, their
    positions and the length of the catalog are unchanged.  When the
    price is omitted or accepted it answers 200 with the updated record,
    in which the name is whatever was provided (anything but an absent
    key: the empty string and null included, with no check) and a field
    that was omitted is unchanged.  When the price converts to NaN or to
    a negative number it answers 400. *)
Lemma patch_fields products id_param n p i product :
  findProductById products id_param = Some (i, product) →
  let r := patch_product products id_param n p in
  let product' :=
    {| id := id product;
       name := if is_undefined n then name product else n;
       price := default (price product) (accepted_price p) |} in
  (∃ q, r.2 !! i = Some q
        ∧ id q = id product
        ∧ price q = default (price product) (accepted_price p))
  ∧ (∀ j, j ≠ i → r.2 !! j = products !! j)
  ∧ length r.2 = length products
  ∧ (p = JUndefined ∨ is_Some (accepted_price p) →
       r = (Response 200 (MessageBody "Товар частично обновлен" product'),
            <[i := product']> products)
       ∧ r.2 !! i = Some product')
  ∧ (p ≠ JUndefined → to_primitive_throws p = false →
       accepted_price p = None →
       r.1 = Response 400 (ErrorBody error_price))
  ∧ (n = JUndefined → ∀ x, accepted_price p = Some x →
       name product' = name product ∧ price product' = x).
Proof.
  intros Hfind r product'. subst r.
  pose proof (find_Some_exists _ _ _ _ Hfind) as [Hi _].
  assert (∀ q, <[i := q]> products !! i = Some q) as Hat.
  { intros q. apply list_lookup_insert_eq. by eapply lookup_lt_Some. }
  assert (∀ q j, j ≠ i → <[i := q]> products !! j = products !! j) as Hoff.
  { intros q j Hj. by apply list_lookup_insert_ne. }
  rewrite (patch_product_found _ _ _ _ _ _ Hfind).
  subst product'. unfold accepted_price, ToNumber.
  destruct (is_undefined p) eqn:Hp; simpl.
  { apply is_undefined_iff in Hp as ->.
    split_and!;
      [by eexists|apply Hoff|apply length_insert|done|done|by intros _ x]. }
  assert (p ≠ JUndefined) as Hp' by (by intros ->).
  destruct (to_primitive_throws p) eqn:Hthrow; simpl.
  { split_and!;
      [by eexists|apply Hoff|apply length_insert| |done|by intros _ x].
    by intros [?|[? ?]]. }
  destruct (Num.is_nan (to_number p) || Num.lt (to_number p) Num.pzero);
    simpl.
  - split_and!;
      [by eexists|apply Hoff|apply length_insert| |done|by intros _ x].
    by intros [?|[? ?]].
  - split_and!; [by eexists|apply Hoff|apply length_insert|done|done|].
    intros -> x [= <-]. done.
Qed.

Example patch_fields_price_only :
  (patch_product initial_products "3" JUndefined (JStr "4500")).2 !! 2%nat
  = Some {| id := Num.of_Z 3; name := JStr "Беспроводные наушники";
            price := Num.of_Z 4500 |}.
Proof.
  destruct (patch_fields initial_products "3" JUndefined (JStr "4500") 2%nat
              {| id := Num.of_Z 3; name := JStr "Беспроводные наушники";
                 price := Num.of_Z 5990 |} eq_refl) as (_ & _ & _ & Hok & _).
  destruct Hok as [_ Hat]; [right; by eexists|].
  exact Hat.
Qed.

(** C6 (the code departs from the claim).  A patch of the first initial
    record with the name "X" and the price -1 fails with the validation
    error on the price, and the record has been renamed all the same:
    the name is assigned before the price is looked at. *)
Theorem patch_not_atomic :
  let r := patch_product initial_products "1" (JStr "X") (JNum (Num.of_Z (-1))) in
  ValidationError r.1
  ∧ r.1 = Response 400 (ErrorBody error_price)
  ∧ initial_products !! 0%nat
    = Some {| id := Num.of_Z 1; name := JStr "Смартфон X Pro";
              price := Num.of_Z 49990 |}
  ∧ r.2 !! 0%nat
    = Some {| id := Num.of_Z 1; name := JStr "X"; price := Num.of_Z 49990 |}
  ∧ r.2 ≠ initial_products.
Proof.
  intros r. split_and!.
  - by eexists.
  - reflexivity.
  - reflexivity.
  - reflexivity.
  - intros Heq. assert (r.2 !! 0%nat = initial_products !! 0%nat) as Hat
      by (by rewrite Heq).
    vm_compute in Hat. discriminate Hat.
Qed.

(** ** Delete *)

Lemma delete_product_found products id_param i p :
  findProductById products id_param = Some (i, p) →
  delete_product products id_param
  = (Response 200 (DeletedBody "Товар успешно удален" p), delete i products).
Proof. unfold delete_product. by intros ->. Qed.

(** What DELETE does for an id that exists: it removes the first record
    with the id, keeps the other records in their order, and returns the
    record as it was. *)
Lemma delete_removes_first products id_param i p :
  findProductById products id_param = Some (i, p) →
  let r := delete_product products id_param in
  r.1 = Response 200 (DeletedBody "Товар успешно удален" p)
  ∧ products !! i = Some p
  ∧ r.2 = take i products ++ drop (S i) products
  ∧ r.2 `sublist_of` products
  ∧ length products = S (length r.2)
  ∧ (∀ j, (j < i)%nat → r.2 !! j = products !! j)
  ∧ (∀ j, (i ≤ j)%nat → r.2 !! j = products !! S j).
Proof.
  intros Hfind r. subst r. rewrite (delete_product_found _ _ _ _ Hfind).
  pose proof (find_Some_exists _ _ _ _ Hfind) as [Hi _]. simpl.
  split_and!; [done|done|apply delete_take_drop|apply sublist_delete| | |].
  - rewrite length_delete by eauto.
    apply lookup_lt_Some in Hi. lia.
  - intros j Hj. by apply list_lookup_delete_lt.
  - intros j Hj. by apply list_lookup_delete_ge.
Qed.

(** When the ids are unique, the id is gone after the deletion. *)
Lemma delete_then_get_unique products id_param i p :
  unique_ids products →
  findProductById products id_param = Some (i, p) →
  get_product (delete i products) id_param
  = (Response 404 (ErrorBody error_not_found), delete i products).
Proof.
  intros Huniq Hfind.
  assert (findProductById (delete i products) id_param = None) as Hnone.
  { apply find_None_iff. intros (q & Hq & Heq).
    apply list_elem_of_lookup in Hq as [j Hj].
    apply list_find_Some in Hfind as (Hi & Hp & Hleast).
    destruct (decide (j < i)%nat) as [Hlt|Hge].
    - rewrite list_lookup_delete_lt in Hj by done.
      by apply (Hleast j q).
    - rewrite list_lookup_delete_ge in Hj by lia.
      assert (i = S j); [|lia].
      apply (Huniq i (S j) p q); [done|done|].
      by apply (eq_trans _ (Str.parseInt id_param)); [|apply eq_sym]. }
  unfold get_product. by rewrite Hnone.
Qed.

(** C7 (the code departs from the claim).  In the reachable catalog where
    two creations were given the id 1700000000005, deleting that id
    removes the first of the two records and returns it, and a
    subsequent GetById for the id does not fail: it answers 200 with the
    second record. *)
Theorem delete_then_get_collision :
  let id_param := "1700000000005" in
  let first := {| id := Num.of_Z 1700000000005; name := JStr "A";
                  price := Num.of_Z 10 |} in
  let second := {| id := Num.of_Z 1700000000005; name := JStr "B";
                   price := Num.of_Z 20 |} in
  let r := delete_product collision_products id_param in
  reachable collision_products
  ∧ r = (Response 200 (DeletedBody "Товар успешно удален" first),
         initial_products ++ [second])
  ∧ get_product r.2 id_param = (Response 200 (ProductBody second), r.2)
  ∧ ¬ NotFoundError (get_product r.2 id_param).1.
Proof.
  intros id_param first second r.
  split_and!; [apply collision_reachable|by vm_compute|by vm_compute|].
  intros [error Herror]. vm_compute in Herror. discriminate Herror.
Qed.

(** ** List *)

Lemma filter_all {A} (P : A → Prop) `{!∀ x, Decision (P x)} (l : list A) :
  (∀ x, x ∈ l → P x) → filter P l = l.
Proof.
  induction l as [|x l IH]; intros Hall; [done|].
  rewrite filter_cons_True by (apply Hall; left).
  f_equal. apply IH. intros y Hy. apply Hall. by right.
Qed.

Lemma filter_none {A} (P : A → Prop) `{!∀ x, Decision (P x)} (l : list A) :
  (∀ x, x ∈ l → ¬ P x) → filter P l = [].
Proof.
  induction l as [|x l IH]; intros Hall; [done|].
  rewrite filter_cons_False by (apply Hall; left).
  apply IH. intros y Hy. apply Hall. by right.
Qed.

Lemma filter_by_query keep bound (l : list Product) :
  query_param bound →
  filter_by keep bound l
  = Some (filter (λ p, keep (price p) (to_number bound) = true) l).
Proof.
  intros Hq. unfold filter_by. destruct l as [|p l]; [done|].
  by rewrite (query_param_ToNumber _ Hq).
Qed.

Lemma get_products_query products minPrice maxPrice :
  query_param minPrice → query_param maxPrice →
  get_products products minPrice maxPrice
  = (Response 200
       (ProductsBody (filter (λ p, in_range minPrice maxPrice p = true) products)),
     products).
Proof.
  intros Hmin Hmax. unfold get_products.
  rewrite (query_param_given _ Hmin), (query_param_given _ Hmax).
  unfold in_range.
  destruct (given minPrice), (given maxPrice); simpl;
    rewrite ?filter_by_query by done; simpl;
    rewrite ?filter_by_query by done.
  - rewrite list_filter_filter. do 3 f_equal.
    apply list_filter_iff. intros p.
    rewrite andb_true_iff. tauto.
  - do 3 f_equal. apply list_filter_iff. intros p.
    by rewrite andb_true_r.
  - done.
  - do 3 f_equal. symmetry. by apply filter_all.
Qed.

(** C8.  For query parameters, List answers 200, leaves the catalog
    unchanged and returns the products whose price is at least
    [minPrice], when that is given, and at most [maxPrice], when that is
    given: a subsequence of the catalog, in the original order.  With no
    filter it is the whole catalog; when no product matches it is the
    empty sequence, still with status 200; and on the initial catalog
    with [minPrice=10000] it is the records with ids 1, 2 and 4. *)
Theorem list_filters products minPrice maxPrice :
  query_param minPrice → query_param maxPrice →
  let l := filter (λ p, in_range minPrice maxPrice p = true) products in
  get_products products minPrice maxPrice
    = (Response 200 (ProductsBody l), products)
  ∧ l `sublist_of` products
  ∧ (∀ p, p ∈ l ↔ p ∈ products ∧ in_range minPrice maxPrice p = true)
  ∧ (minPrice = JUndefined → maxPrice = JUndefined → l = products)
  ∧ ((∀ p, p ∈ products → in_range minPrice maxPrice p = false) → l = [])
  ∧ ∃ l0,
      get_products initial_products (JStr "10000") JUndefined
        = (Response 200 (ProductsBody l0), initial_products)
      ∧ id <$> l0 = [Num.of_Z 1; Num.of_Z 2; Num.of_Z 4].
Proof.
  intros Hmin Hmax l. split_and!.
  - by apply get_products_query.
  - apply sublist_filter.
  - intros p. subst l. rewrite list_elem_of_filter. tauto.
  - intros -> ->. subst l. by apply filter_all.
  - intros Hnone. subst l. apply filter_none. intros p Hp.
    by rewrite (Hnone p Hp).
  - exists (filter (λ p, in_range (JStr "10000") JUndefined p = true)
              initial_products).
    split; [|by vm_compute].
    apply get_products_query; [by right|by left].
Qed.

Lemma list_filters_witness :
  query_param (JStr "10000") ∧ query_param (JStr "50000")
  ∧ get_products initial_products (JStr "10000") (JStr "50000")
    = (Response 200
         (ProductsBody
            [ {| id := Num.of_Z 1; name := JStr "Смартфон X Pro";
                 price := Num.of_Z 49990 |};
              {| id := Num.of_Z 4; name := JStr "Умные часы Watch 5";
                 price := Num.of_Z 15990 |} ]),
       initial_products).
Proof.
  assert (query_param (JStr "10000")) as Hmin by (right; reflexivity).
  assert (query_param (JStr "50000")) as Hmax by (right; reflexivity).
  split_and!; [exact Hmin|exact Hmax|].
  rewrite (proj1 (list_filters initial_products _ _ Hmin Hmax)).
  reflexivity.
Defined.

(** C10.  For every catalog and all query parameters, when [minPrice] or
    [maxPrice] is a value that does not convert to a number (its numeric
    conversion is NaN, as for "abc"), List answers 200 with the empty
    sequence: every comparison of a price with NaN is false. *)
Theorem list_non_numeric_bound products minPrice maxPrice :
  query_param minPrice → query_param maxPrice →
  (is_query_value minPrice = true ∧ Num.is_nan (to_number minPrice) = true)
  ∨ (is_query_value maxPrice = true ∧ Num.is_nan (to_number maxPrice) = true) →
  get_products products minPrice maxPrice
  = (Response 200 (ProductsBody []), products).
Proof.
  intros Hmin Hmax Hnan. rewrite get_products_query by done.
  do 3 f_equal. apply filter_none. intros p _. unfold in_range.
  destruct Hnan as [[Hq Hnan]|[Hq Hnan]];
    rewrite (query_nan_given _ Hq Hnan);
    destruct (to_number _) eqn:Hbound in Hnan; try done; rewrite Hbound.
  - by rewrite ge_nan.
  - rewrite le_nan. by rewrite andb_false_r.
Qed.

Lemma list_non_numeric_bound_witness :
  query_param (JStr "abc") ∧ query_param JUndefined
  ∧ is_query_value (JStr "abc") = true
  ∧ Num.is_nan (to_number (JStr "abc")) = true
  ∧ get_products initial_products (JStr "abc") JUndefined
    = (Response 200 (ProductsBody []), initial_products).
Proof.
  assert (query_param (JStr "abc")) as Hmin by (right; reflexivity).
  assert (query_param JUndefined) as Hmax by (left; reflexivity).
  split_and!; [exact Hmin|exact Hmax|reflexivity|reflexivity|].
  apply (list_non_numeric_bound initial_products _ _ Hmin Hmax).
  left. split; reflexivity.
Defined.

(** ** Ids that are not numbers *)

(** The claim C9 as the specification states it fails: the id "1abc" is
    not numeric, and GetById finds the product with id 1. *)
Lemma lookup_claim_fails : ¬ lookup_claim "1abc".
Proof.
  intros Hclaim.
  destruct (Hclaim eq_refl initial_products JUndefined JUndefined)
    as [[error Herror] _].
  vm_compute in Herror. discriminate Herror.
Qed.

Lemma find_nan products id_param :
  Num.is_nan (Str.parseInt id_param) = true →
  findProductById products id_param = None.
Proof.
  intros Hnan. apply find_None_iff. intros (p & _ & Heq).
  destruct (Str.parseInt id_param); try done.
  by destruct (id p).
Qed.

(** C9 (amended).  The id path parameter is parsed by [parseInt]: after
    leading white space, an optional sign and an optional [0x] prefix, the
    longest run of digits is the id, and what follows is ignored.  For
    every id string with no such run of digits, for which [parseInt]
    gives NaN, GetById, ReplaceById, PatchById and DeleteById match no
    product, answer 404 with the not-found error and leave the catalog
    unchanged. *)
Theorem lookup_not_a_number products id_param n p :
  Num.is_nan (Str.parseInt id_param) = true →
  get_product products id_param
    = (Response 404 (ErrorBody error_not_found), products)
  ∧ put_product products id_param n p
    = (Response 404 (ErrorBody error_not_found), products)
  ∧ patch_product products id_param n p
    = (Response 404 (ErrorBody error_not_found), products)
  ∧ delete_product products id_param
    = (Response 404 (ErrorBody error_not_found), products).
Proof.
  intros Hnone%(find_nan products).
  unfold get_product, put_product, patch_product, delete_product.
  by rewrite Hnone.
Qed.

Lemma lookup_not_a_number_witness :
  Num.is_nan (Str.parseInt "abc") = true
  ∧ delete_product initial_products "abc"
    = (Response 404 (ErrorBody error_not_found), initial_products).
Proof.
  split; [reflexivity|].
  by destruct (lookup_not_a_number initial_products "abc" JUndefined JUndefined
                 eq_refl) as (_ & _ & _ & Hdelete).
Defined.

(** * Further properties of the handlers *)

(** ** Prices never become invalid *)

(** X1.  In every catalog the server can be in, every price is a number
    that is at least 0: the seed prices are, and Create, Replace and
    Patch store a price only after the conversion gave a number that is
    neither NaN nor negative. *)
Theorem reachable_prices_valid products :
  reachable products →
  ∀ p, p ∈ products →
    Num.ge (price p) Num.pzero = true ∧ Num.is_nan (price p) = false.
Proof.
  intros Hreach.
  assert (prices_valid products) as Hok.
  { induction Hreach as [|products req _ IH _];
      [by repeat constructor|by apply handle_prices_valid]. }
  intros p Hp. pose proof (proj1 (Forall_forall _ _) Hok p Hp) as Hge.
  split; [done|]. simpl in Hge. by destruct (price p).
Qed.

Lemma reachable_prices_valid_witness :
  reachable (handle initial_products
               (PatchProduct "2" JUndefined (JStr "0.5"))).2
  ∧ Num.ge (Num.of_ratio false 1 2) Num.pzero = true.
Proof.
  assert (reachable (handle initial_products
                       (PatchProduct "2" JUndefined (JStr "0.5"))).2) as Hreach.
  { by apply reachable_handle; [apply reachable_initial|]. }
  split; [exact Hreach|].
  apply (reachable_prices_valid _ Hreach
           {| id := Num.of_Z 2; name := JStr "Ноутбук Ultra 15";
              price := Num.of_ratio false 1 2 |}).
  apply (list_elem_of_lookup_2 _ 1%nat). by vm_compute.
Defined.

(** ** What an update changes *)

(** Replace and Patch leave the catalog as it is or overwrite the record
    they found with a record of the same id. *)
Lemma put_shape products s n p :
  (put_product products s n p).2 = products
  ∨ ∃ i q q', findProductById products s = Some (i, q)
      ∧ (put_product products s n p).2 = <[i := q']> products
      ∧ id q' = id q.
Proof.
  unfold put_product.
  destruct (findProductById products s) as [[i q]|]; [|by left].
  destruct (negb (ToBoolean n) || is_undefined p); [by left|].
  destruct (ToNumber p) as [x|]; [|by left].
  destruct (Num.is_nan x || Num.lt x Num.pzero); [by left|].
  right. by eexists i, q, _.
Qed.

Lemma patch_shape products s n p :
  (patch_product products s n p).2 = products
  ∨ ∃ i q q', findProductById products s = Some (i, q)
      ∧ (patch_product products s n p).2 = <[i := q']> products
      ∧ id q' = id q.
Proof.
  destruct (findProductById products s) as [[i q]|] eqn:Hfind;
    [|left; unfold patch_product; by rewrite Hfind].
  right. exists i, q. rewrite (patch_product_found _ _ _ _ _ _ Hfind).
  destruct (is_undefined p); [by eexists|].
  destruct (ToNumber p) as [x|]; [|by eexists].
  destruct (Num.is_nan x || Num.lt x Num.pzero); by eexists.
Qed.

Lemma insert_same_id (products : list Product) i q q' :
  products !! i = Some q → id q' = id q →
  id <$> <[i := q']> products = id <$> products.
Proof.
  intros Hi Hid. rewrite list_fmap_insert, Hid.
  apply list_insert_id. by rewrite list_lookup_fmap, Hi.
Qed.

Lemma put_patch_same_ids products s n p :
  id <$> (put_product products s n p).2 = id <$> products
  ∧ id <$> (patch_product products s n p).2 = id <$> products.
Proof.
  split.
  - destruct (put_shape products s n p)
      as [->|(i & q & q' & [Hi _]%find_Some_exists & -> & Hid)]; [done|].
    by apply (insert_same_id _ _ q).
  - destruct (patch_shape products s n p)
      as [->|(i & q & q' & [Hi _]%find_Some_exists & -> & Hid)]; [done|].
    by apply (insert_same_id _ _ q).
Qed.

(** X2.  Replace and Patch never change an id: whatever the id
    parameter and the body, and whether they succeed or fail, the
    sequence of the ids of the catalog, and so its length and its order,
    is the same after as before. *)
Theorem update_keeps_ids products s n p :
  id <$> (put_product products s n p).2 = id <$> products
  ∧ id <$> (patch_product products s n p).2 = id <$> products.
Proof. apply put_patch_same_ids. Qed.

(** ** The length of the catalog *)

(** X3.  Only a creation lengthens the catalog and only a deletion
    shortens it, each by one record and only when it succeeds: a creation
    answers 201 and the catalog has one record more, or it does not and
    the catalog is unchanged; a deletion answers 200 and the catalog has
    one record less, or it answers 404 and the catalog is unchanged;
    every other request keeps the length. *)
Theorem handle_length products req :
  let r := handle products req in
  match req with
  | PostProducts _ _ _ _ =>
      (status r.1 = Some 201 ∧ length r.2 = S (length products))
      ∨ (status r.1 ≠ Some 201 ∧ r.2 = products)
  | DeleteProduct _ =>
      (status r.1 = Some 200 ∧ length products = S (length r.2))
      ∨ (status r.1 = Some 404 ∧ r.2 = products)
  | _ => length r.2 = length products
  end.
Proof.
  destruct req as [now offset n p|lo hi|s|s n p|s n p|s|]; simpl.
  - unfold post_products.
    destruct (negb (ToBoolean n) || is_undefined p); [by right|].
    destruct (ToNumber p) as [x|]; [|by right].
    destruct (Num.is_nan x || Num.lt x Num.pzero); [by right|].
    left. split; [done|]. simpl. rewrite length_app. simpl. lia.
  - unfold get_products. by destruct (_ ≫= _).
  - unfold get_product. by destruct (findProductById _ _) as [[? ?]|].
  - rewrite <- (length_fmap id), (proj1 (put_patch_same_ids products s n p)).
    apply length_fmap.
  - rewrite <- (length_fmap id), (proj2 (put_patch_same_ids products s n p)).
    apply length_fmap.
  - destruct (findProductById products s) as [[i q]|] eqn:Hfind.
    + left. by destruct (delete_removes_first _ _ _ _ Hfind)
        as (-> & _ & _ & _ & Hlen & _).
    + right. unfold delete_product. by rewrite Hfind.
  - done.
Qed.

(** ** Requests that fail *)

(** X4.  A request that is not answered 200 or 201 leaves the catalog
    exactly as it was, for every handler and every input except a Patch
    that provides a name: validation errors, not-found errors and
    exceptions come before any assignment everywhere else. *)
Theorem failed_request_unchanged products req :
  is_patch_with_name req = false →
  status (handle products req).1 ≠ Some 200 →
  status (handle products req).1 ≠ Some 201 →
  (handle products req).2 = products.
Proof.
  destruct req as [now offset n p|lo hi|s|s n p|s n p|s|]; simpl;
    intros Hname H200 H201.
  - unfold post_products in *.
    destruct (negb (ToBoolean n) || is_undefined p); [done|].
    destruct (ToNumber p) as [x|]; [|done].
    by destruct (Num.is_nan x || Num.lt x Num.pzero).
  - unfold get_products. by destruct (_ ≫= _).
  - unfold get_product. by destruct (findProductById _ _) as [[? ?]|].
  - unfold put_product in *.
    destruct (findProductById products s) as [[i q]|]; [|done].
    destruct (negb (ToBoolean n) || is_undefined p); [done|].
    destruct (ToNumber p) as [x|]; [|done].
    by destruct (Num.is_nan x || Num.lt x Num.pzero).
  - apply negb_false_iff, is_undefined_iff in Hname as ->.
    destruct (findProductById products s) as [[i q]|] eqn:Hfind;
      [|unfold patch_product; by rewrite Hfind].
    pose proof (find_Some_exists _ _ _ _ Hfind) as [Hi _].
    rewrite (patch_product_found _ _ _ _ _ _ Hfind) in *. simpl in *.
    assert (<[i := {| id := id q; name := name q; price := price q |}]> products
            = products) as Hsame.
    { apply list_insert_id. by destruct q. }
    destruct (is_undefined p); [done|].
    destruct (ToNumber p) as [x|]; [|done].
    by destruct (Num.is_nan x || Num.lt x Num.pzero).
  - unfold delete_product in *.
    by destruct (findProductById products s) as [[i q]|].
  - done.
Qed.

Lemma failed_request_unchanged_witness :
  is_patch_with_name (PatchProduct "2" JUndefined (JStr "-3")) = false
  ∧ status (handle initial_products
              (PatchProduct "2" JUndefined (JStr "-3"))).1 = Some 400
  ∧ (handle initial_products (PatchProduct "2" JUndefined (JStr "-3"))).2
    = initial_products.
Proof.
  split_and!; [reflexivity|reflexivity|].
  apply failed_request_unchanged; [reflexivity| |];
    vm_compute; discriminate.
Defined.

(** ** Lookup after a change *)

(** The lookup sees the ids only: in a catalog with the same ids it
    finds the record at the same index. *)
Lemma find_same_ids (products products' : list Product) s :
  id <$> products' = id <$> products →
  findProductById products' s
  = match findProductById products s with
    | Some (i, _) => (λ q, (i, q)) <$> products' !! i
    | None => None
    end.
Proof.
  unfold findProductById.
  revert products'. induction products as [|x l IH]; intros [|y l'] Hids;
    try done.
  injection Hids as Hid Hids. simpl.
  rewrite Hid. destruct (decide (Num.eq (id x) (Str.parseInt s) = true));
    [done|].
  rewrite (IH l' Hids).
  destruct (list_find _ l) as [[i q]|]; simpl; [by destruct (l' !! i)|done].
Qed.

Lemma found_insert (products : list Product) s i q q' :
  findProductById products s = Some (i, q) → id q' = id q →
  findProductById (<[i := q']> products) s = Some (i, q').
Proof.
  intros Hfind Hid. pose proof (find_Some_exists _ _ _ _ Hfind) as [Hi _].
  rewrite (find_same_ids products) by by apply (insert_same_id _ _ q).
  rewrite Hfind, list_lookup_insert_eq; [done|by eapply lookup_lt_Some].
Qed.

(** X5.  A creation that is answered 201, followed by GetById with an id
    string that designates the id just assigned: when no record had that
    id, GetById returns the record created; when a record had it,
    GetById still returns that older record, and the record created
    cannot be reached by its id. *)
Theorem create_then_get products now offset n p s :
  let r := post_products products now offset n p in
  let newProduct :=
    {| id := Num.add (Num.of_Z now) (Num.of_Z offset);
       name := n; price := to_number p |} in
  status r.1 = Some 201 →
  Num.eq (id newProduct) (Str.parseInt s) = true →
  r.2 = products ++ [newProduct]
  ∧ (found products s = None →
       get_product r.2 s = (Response 200 (ProductBody newProduct), r.2))
  ∧ (∀ q, found products s = Some q →
       get_product r.2 s = (Response 200 (ProductBody q), r.2)).
Proof.
  intros r newProduct Hstatus Heq.
  assert (r.2 = products ++ [newProduct]) as Hr.
  { subst r newProduct. unfold post_products, ToNumber in *.
    destruct (negb (ToBoolean n) || is_undefined p); [done|].
    destruct (to_primitive_throws p); [done|].
    by destruct (Num.is_nan (to_number p) || Num.lt (to_number p) Num.pzero). }
  rewrite Hr. unfold found, get_product, findProductById in *.
  split_and!; [done| |].
  - intros Hnone. apply fmap_None in Hnone.
    rewrite (list_find_app_r _ _ _ Hnone). simpl.
    by destruct (decide _).
  - intros q Hq. destruct (list_find _ products) as [[i q']|] eqn:Hfind;
      [|done].
    injection Hq as ->. by rewrite (list_find_app_l _ _ _ _ _ Hfind).
Qed.

Lemma create_then_get_witness :
  status (post_products initial_products 1700000000000 5 (JStr "A")
            (JStr "10")).1 = Some 201
  ∧ found initial_products "1700000000005" = None
  ∧ get_product
      (post_products initial_products 1700000000000 5 (JStr "A") (JStr "10")).2
      "1700000000005"
    = (Response 200
         (ProductBody {| id := Num.of_Z 1700000000005; name := JStr "A";
                         price := Num.of_Z 10 |}),
       initial_products
         ++ [{| id := Num.of_Z 1700000000005; name := JStr "A";
                price := Num.of_Z 10 |}]).
Proof.
  split_and!; [reflexivity|reflexivity|].
  destruct (create_then_get initial_products 1700000000000 5 (JStr "A")
              (JStr "10") "1700000000005" eq_refl eq_refl) as (_ & Hnew & _).
  rewrite (Hnew eq_refl). by vm_compute.
Defined.

(** X6.  A creation never changes what GetById returns for a record that
    exists: the new record goes to the end of the sequence, so every id
    string that found a record before the creation finds the same record
    after it, whatever id the creation assigns. *)
Theorem create_keeps_lookups products now offset n p s q :
  found products s = Some q →
  found (post_products products now offset n p).2 s = Some q.
Proof.
  unfold found. intros Hq.
  destruct (findProductById products s) as [[i q']|] eqn:Hfind; [|done].
  injection Hq as ->. unfold post_products.
  destruct (negb (ToBoolean n) || is_undefined p);
    [simpl; by rewrite Hfind|].
  destruct (ToNumber p) as [x|]; [|simpl; by rewrite Hfind].
  destruct (Num.is_nan x || Num.lt x Num.pzero);
    [simpl; by rewrite Hfind|].
  simpl. unfold findProductById in *.
  by rewrite (list_find_app_l _ _ _ _ _ Hfind).
Qed.

Lemma create_keeps_lookups_witness :
  found initial_products "3"
  = Some {| id := Num.of_Z 3; name := JStr "Беспроводные наушники";
            price := Num.of_Z 5990 |}
  ∧ found (post_products initial_products 0 3 (JStr "A") (JStr "10")).2 "3"
    = Some {| id := Num.of_Z 3; name := JStr "Беспроводные наушники";
              price := Num.of_Z 5990 |}.
Proof.
  split; [reflexivity|].
  by apply create_keeps_lookups.
Defined.

(** X7.  A Replace that is answered 200 can be read back and repeated:
    GetById with the same id string returns the record of the response,
    and the same Replace on the catalog that results gives the same
    response and the same catalog again. *)
Theorem put_then_get products s n p :
  let r := put_product products s n p in
  status r.1 = Some 200 →
  ∃ product',
    r.1 = Response 200 (MessageBody "Товар полностью обновлен" product')
    ∧ get_product r.2 s = (Response 200 (ProductBody product'), r.2)
    ∧ put_product r.2 s n p = r.
Proof.
  intros r Hstatus. subst r.
  destruct (findProductById products s) as [[i q]|] eqn:Hfind;
    [|unfold put_product in *; by rewrite Hfind in *].
  rewrite (put_product_found _ _ _ _ _ _ Hfind) in *.
  destruct (negb (ToBoolean n) || is_undefined p) eqn:Hfields; [done|].
  destruct (ToNumber p) as [x|] eqn:Hx; [|done].
  destruct (Num.is_nan x || Num.lt x Num.pzero) eqn:Hvalid; [done|].
  simpl. eexists. split; [done|].
  set (product' := {| id := id q; name := n; price := x |}).
  assert (findProductById (<[i := product']> products) s = Some (i, product'))
    as Hfind' by (by apply (found_insert _ _ _ q)).
  split.
  - unfold get_product. by rewrite Hfind'.
  - rewrite (put_product_found _ _ _ _ _ _ Hfind'), Hfields, Hx, Hvalid.
    simpl. by rewrite list_insert_insert_eq.
Qed.

Lemma put_then_get_witness :
  status (put_product initial_products "4" (JStr "W") (JStr "99.5")).1
  = Some 200
  ∧ get_product (put_product initial_products "4" (JStr "W") (JStr "99.5")).2 "4"
    = (Response 200
         (ProductBody {| id := Num.of_Z 4; name := JStr "W";
                         price := Num.of_ratio false 199 2 |}),
       (put_product initial_products "4" (JStr "W") (JStr "99.5")).2).
Proof.
  split; [reflexivity|].
  destruct (put_then_get initial_products "4" (JStr "W") (JStr "99.5") eq_refl)
    as (product' & Hresponse & Hget & _).
  vm_compute in Hresponse. injection Hresponse as <-. exact Hget.
Defined.

(** X8.  A Patch that is answered 200 can be read back and repeated:
    GetById with the same id string returns the record of the response,
    and the same Patch on the catalog that results gives the same
    response and the same catalog again.  A Patch with neither a name nor
    a price on an existing id is answered 200 with the record as it is
    and changes nothing. *)
Theorem patch_then_get products s n p :
  let r := patch_product products s n p in
  (status r.1 = Some 200 →
     ∃ product',
       r.1 = Response 200 (MessageBody "Товар частично обновлен" product')
       ∧ get_product r.2 s = (Response 200 (ProductBody product'), r.2)
       ∧ patch_product r.2 s n p = r)
  ∧ (∀ q, found products s = Some q →
       patch_product products s JUndefined JUndefined
       = (Response 200 (MessageBody "Товар частично обновлен" q), products)).
Proof.
  intros r. subst r. split.
  - intros Hstatus.
    destruct (findProductById products s) as [[i q]|] eqn:Hfind;
      [|unfold patch_product in *; by rewrite Hfind in *].
    rewrite (patch_product_found _ _ _ _ _ _ Hfind) in *.
    destruct (is_undefined p) eqn:Hp.
    + simpl.
      set (product' := {| id := id q;
                          name := if is_undefined n then name q else n;
                          price := price q |}).
      assert (findProductById (<[i := product']> products) s
              = Some (i, product'))
        as Hfind' by (by apply (found_insert _ _ _ q)).
      exists product'. split_and!; [done| |].
      * unfold get_product. by rewrite Hfind'.
      * rewrite (patch_product_found _ _ _ _ _ _ Hfind'), Hp.
        simpl. rewrite list_insert_insert_eq. subst product'. simpl.
        by destruct (is_undefined n).
    + destruct (ToNumber p) as [x|] eqn:Hx; [|done].
      destruct (Num.is_nan x || Num.lt x Num.pzero) eqn:Hvalid; [done|].
      simpl.
      set (product' := {| id := id q;
                          name := if is_undefined n then name q else n;
                          price := x |}).
      assert (findProductById (<[i := product']> products) s
              = Some (i, product'))
        as Hfind' by (by apply (found_insert _ _ _ q)).
      exists product'. split_and!; [done| |].
      * unfold get_product. by rewrite Hfind'.
      * rewrite (patch_product_found _ _ _ _ _ _ Hfind'), Hp, Hx, Hvalid.
        simpl. rewrite list_insert_insert_eq. subst product'. simpl.
        by destruct (is_undefined n).
  - intros q. unfold found.
    destruct (findProductById products s) as [[i q']|] eqn:Hfind; [|done].
    intros [= ->].
    pose proof (find_Some_exists _ _ _ _ Hfind) as [Hi _].
    rewrite (patch_product_found _ _ _ _ _ _ Hfind). simpl.
    destruct q as [qi qn qp]. simpl. by rewrite list_insert_id.
Qed.

Lemma patch_then_get_witness :
  (status (patch_product initial_products "4" (JStr "") JUndefined).1 = Some 200
   ∧ get_product (patch_product initial_products "4" (JStr "") JUndefined).2 "4"
     = (Response 200
          (ProductBody {| id := Num.of_Z 4; name := JStr "";
                          price := Num.of_Z 15990 |}),
        (patch_product initial_products "4" (JStr "") JUndefined).2))
  ∧ (found initial_products "4"
     = Some {| id := Num.of_Z 4; name := JStr "Умные часы Watch 5";
               price := Num.of_Z 15990 |}
     ∧ patch_product initial_products "4" JUndefined JUndefined
       = (Response 200
            (MessageBody "Товар частично обновлен"
               {| id := Num.of_Z 4; name := JStr "Умные часы Watch 5";
                  price := Num.of_Z 15990 |}),
          initial_products)).
Proof.
  destruct (patch_then_get initial_products "4" (JStr "") JUndefined)
    as [Hok Hempty].
  split; (split; [reflexivity|]).
  - destruct (Hok eq_refl) as (product' & Hresponse & Hget & _).
    vm_compute in Hresponse. injection Hresponse as <-. exact Hget.
  - by apply Hempty.
Defined.

(** X9.  An update of one record does not change what GetById returns
    for another id: when two id strings designate different numbers, a
    Replace or a Patch under the first, whatever its body and its
    outcome, leaves the lookup under the second as it was. *)
Theorem update_keeps_other_lookups products s s' n p :
  Num.eq (Str.parseInt s) (Str.parseInt s') = false →
  found (put_product products s n p).2 s' = found products s'
  ∧ found (patch_product products s n p).2 s' = found products s'.
Proof.
  intros Hdiff.
  assert (∀ i q q', findProductById products s = Some (i, q) → id q' = id q →
            found (<[i := q']> products) s' = found products s') as Hinsert.
  { intros i q q' Hfind Hid.
    pose proof (find_Some_exists _ _ _ _ Hfind) as [Hi _].
    unfold found.
    rewrite (find_same_ids products) by by apply (insert_same_id _ _ q).
    destruct (findProductById products s') as [[j q2]|] eqn:Hfind'; [|done].
    apply list_find_Some in Hfind as (_ & Hq & _).
    apply list_find_Some in Hfind' as (Hj & Hq2 & _).
    rewrite list_lookup_insert_ne; [by rewrite Hj|].
    intros <-. rewrite Hi in Hj. injection Hj as <-.
    by rewrite (eq_trans _ _ _ (eq_sym _ _ Hq) Hq2) in Hdiff. }
  split.
  - destruct (put_shape products s n p)
      as [->|(i & q & q' & Hfind & -> & Hid)]; [done|by eapply Hinsert].
  - destruct (patch_shape products s n p)
      as [->|(i & q & q' & Hfind & -> & Hid)]; [done|by eapply Hinsert].
Qed.

Lemma update_keeps_other_lookups_witness :
  Num.eq (Str.parseInt "1") (Str.parseInt "2") = false
  ∧ found (patch_product initial_products "1" (JStr "X") (JStr "-1")).2 "2"
    = Some {| id := Num.of_Z 2; name := JStr "Ноутбук Ultra 15";
              price := Num.of_Z 89990 |}.
Proof.
  split; [reflexivity|].
  rewrite (proj2 (update_keeps_other_lookups initial_products "1" "2"
                    (JStr "X") (JStr "-1") eq_refl)).
  reflexivity.
Defined.

(** X10.  A Replace that is answered 200 changes the catalog exactly as
    the Patch with the same id and the same body does, and both return
    the same record; only the message differs. *)
Theorem put_as_patch products s n p :
  status (put_product products s n p).1 = Some 200 →
  ∃ product',
    put_product products s n p
    = (Response 200 (MessageBody "Товар полностью обновлен" product'),
       (patch_product products s n p).2)
    ∧ (patch_product products s n p).1
      = Response 200 (MessageBody "Товар частично обновлен" product').
Proof.
  intros Hstatus.
  destruct (findProductById products s) as [[i q]|] eqn:Hfind;
    [|unfold put_product in *; by rewrite Hfind in *].
  rewrite (put_product_found _ _ _ _ _ _ Hfind) in *.
  rewrite (patch_product_found _ _ _ _ _ _ Hfind).
  destruct (ToBoolean n) eqn:Hn; [|done].
  assert (is_undefined n = false) as -> by (by destruct n).
  destruct (is_undefined p); [done|]. simpl in *.
  destruct (ToNumber p) as [x|]; [|done].
  destruct (Num.is_nan x || Num.lt x Num.pzero); [done|].
  by eexists.
Qed.

Lemma put_as_patch_witness :
  status (put_product initial_products "1" (JStr "N") (JStr "5")).1 = Some 200
  ∧ (put_product initial_products "1" (JStr "N") (JStr "5")).2
    = (patch_product initial_products "1" (JStr "N") (JStr "5")).2.
Proof.
  split; [reflexivity|].
  destruct (put_as_patch initial_products "1" (JStr "N") (JStr "5") eq_refl)
    as (product' & Hput & _).
  by rewrite Hput.
Defined.

(** ** Deletion and the uniqueness of ids *)

Lemma unique_ids_same_ids (products products' : list Product) :
  id <$> products' = id <$> products →
  unique_ids products → unique_ids products'.
Proof.
  intros Hids Huniq i j p q Hi Hj Heq.
  assert (∀ k x, products' !! k = Some x →
            ∃ y, products !! k = Some y ∧ id y = id x) as Hback.
  { intros k x Hk.
    assert ((id <$> products) !! k = Some (id x)) as Hlook
      by (by rewrite <- Hids, list_lookup_fmap, Hk).
    rewrite list_lookup_fmap in Hlook.
    destruct (products !! k) as [y|]; [|done].
    injection Hlook as Hy. by exists y. }
  destruct (Hback i p Hi) as (p0 & Hp0 & Hidp).
  destruct (Hback j q Hj) as (q0 & Hq0 & Hidq).
  apply (Huniq i j p0 q0 Hp0 Hq0). by rewrite Hidp, Hidq.
Qed.

Lemma unique_ids_delete products i :
  unique_ids products → unique_ids (delete i products).
Proof.
  intros Huniq j k p q Hj Hk Heq.
  rewrite list_lookup_delete in Hj, Hk.
  destruct (decide (j < i)%nat), (decide (k < i)%nat);
    pose proof (Huniq _ _ p q Hj Hk Heq); lia.
Qed.

Lemma found_delete (products : list Product) i p s :
  products !! i = Some p → Num.eq (id p) (Str.parseInt s) ≠ true →
  found (delete i products) s = found products s.
Proof.
  unfold found, findProductById.
  revert i. induction products as [|x l IH]; intros [|i] Hi Hp; try done.
  - injection Hi as ->. simpl. destruct (decide _); [done|].
    by destruct (list_find _ l) as [[? ?]|].
  - simpl in *. destruct (decide _); [done|].
    specialize (IH i Hi Hp).
    destruct (list_find _ (delete i l)) as [[? ?]|],
      (list_find _ l) as [[? ?]|]; by simplify_eq/=.
Qed.

(** X11.  When the ids of the catalog are unique, a deletion of an
    existing id returns the record that GetById found, after it GetById
    and a second deletion with the same id string both fail with the
    not-found error and change nothing, and the ids are still unique. *)
Theorem delete_unique products s q :
  unique_ids products →
  found products s = Some q →
  let r := delete_product products s in
  r.1 = Response 200 (DeletedBody "Товар успешно удален" q)
  ∧ get_product r.2 s = (Response 404 (ErrorBody error_not_found), r.2)
  ∧ delete_product r.2 s = (Response 404 (ErrorBody error_not_found), r.2)
  ∧ unique_ids r.2.
Proof.
  intros Huniq Hq r. subst r. unfold found in Hq.
  destruct (findProductById products s) as [[i q']|] eqn:Hfind; [|done].
  injection Hq as ->.
  rewrite (delete_product_found _ _ _ _ Hfind). simpl.
  pose proof (delete_then_get_unique _ _ _ _ Huniq Hfind) as Hget.
  split_and!; [done|done| |by apply unique_ids_delete].
  unfold get_product, delete_product in *.
  by destruct (findProductById (delete i products) s) as [[? ?]|].
Qed.

Lemma initial_unique_ids : unique_ids initial_products.
Proof.
  intros i j p q Hi Hj Heq.
  destruct i as [|[|[|[|i]]]]; try done;
    destruct j as [|[|[|[|j]]]]; try done;
    simpl in Hi, Hj; simplify_eq; vm_compute in Heq; done.
Qed.

Lemma delete_unique_witness :
  unique_ids initial_products
  ∧ found initial_products "3"
    = Some {| id := Num.of_Z 3; name := JStr "Беспроводные наушники";
              price := Num.of_Z 5990 |}
  ∧ (get_product (delete_product initial_products "3").2 "3").1
    = Response 404 (ErrorBody error_not_found).
Proof.
  split_and!; [apply initial_unique_ids|reflexivity|].
  destruct (delete_unique initial_products "3" _ initial_unique_ids eq_refl)
    as (_ & Hget & _).
  by rewrite Hget.
Defined.

(** X12.  Only a creation can break the uniqueness of the ids.  From a
    catalog with unique ids, every request other than a creation leads
    to a catalog with unique ids, and a creation does exactly when it is
    not answered 201 or the id it assigns is not the id of a live
    record. *)
Theorem handle_unique_ids products req :
  unique_ids products →
  let r := handle products req in
  match req with
  | PostProducts now offset _ _ =>
      unique_ids r.2
      ↔ (status r.1 = Some 201 →
         ¬ id_exists products (Num.add (Num.of_Z now) (Num.of_Z offset)))
  | _ => unique_ids r.2
  end.
Proof.
  intros Huniq.
  destruct req as [now offset n p|lo hi|s|s n p|s n p|s|]; simpl.
  - unfold post_products.
    destruct (negb (ToBoolean n) || is_undefined p); [done|].
    destruct (ToNumber p) as [x|]; [|done].
    destruct (Num.is_nan x || Num.lt x Num.pzero); [done|].
    simpl. rewrite (create_unique_iff _ _ Huniq). simpl. naive_solver.
  - unfold get_products. by destruct (_ ≫= _).
  - unfold get_product. by destruct (findProductById _ _) as [[? ?]|].
  - apply (unique_ids_same_ids products); [|done].
    apply put_patch_same_ids.
  - apply (unique_ids_same_ids products); [|done].
    apply put_patch_same_ids.
  - unfold delete_product.
    destruct (findProductById _ _) as [[i q]|]; [|done].
    by apply unique_ids_delete.
  - done.
Qed.

Lemma handle_unique_ids_witness :
  unique_ids initial_products
  ∧ unique_ids (handle initial_products (DeleteProduct "2")).2.
Proof.
  split; [apply initial_unique_ids|].
  apply (handle_unique_ids initial_products (DeleteProduct "2")
           initial_unique_ids).
Defined.

(** X13.  A deletion does not change what GetById returns for another
    id: when two id strings designate different numbers, deleting under
    the first leaves the lookup under the second as it was, found or not
    found. *)
Theorem delete_keeps_other_lookups products s s' :
  Num.eq (Str.parseInt s) (Str.parseInt s') = false →
  found (delete_product products s).2 s' = found products s'.
Proof.
  intros Hdiff. unfold delete_product.
  destruct (findProductById products s) as [[i q]|] eqn:Hfind; [|done].
  simpl. apply list_find_Some in Hfind as (Hi & Hq & _).
  apply (found_delete _ _ q); [done|].
  intros Hq'. by rewrite (eq_trans _ _ _ (eq_sym _ _ Hq) Hq') in Hdiff.
Qed.

Lemma delete_keeps_other_lookups_witness :
  Num.eq (Str.parseInt "1") (Str.parseInt "4") = false
  ∧ found (delete_product initial_products "1").2 "4"
    = Some {| id := Num.of_Z 4; name := JStr "Умные часы Watch 5";
              price := Num.of_Z 15990 |}.
Proof.
  split; [reflexivity|].
  by rewrite (delete_keeps_other_lookups initial_products "1" "4" eq_refl).
Defined.

(** ** More on List *)

Lemma le_trans x y z :
  Num.le x y = true → Num.le y z = true → Num.le x z = true.
Proof. num_cases; try done; cmp_solve. Qed.

Lemma le_lt_false x y : Num.le x y = true → Num.lt y x = false.
Proof. num_cases; try done; cmp_solve. Qed.

Lemma sublist_filter_impl {A} (P Q : A → Prop)
    `{!∀ x, Decision (P x)} `{!∀ x, Decision (Q x)} (l : list A) :
  (∀ x, x ∈ l → P x → Q x) → filter P l `sublist_of` filter Q l.
Proof.
  induction l as [|x l IH]; intros Himpl; [done|].
  assert (filter P l `sublist_of` filter Q l) as Hrest.
  { apply IH. intros y Hy. apply Himpl. by right. }
  rewrite !filter_cons.
  destruct (decide (P x)) as [HP|HP], (decide (Q x)) as [HQ|HQ].
  - by apply sublist_skip.
  - destruct HQ. apply Himpl; [left|done].
  - by apply sublist_cons.
  - done.
Qed.

(** X14.  For query parameters that are both given, when [maxPrice]
    converts to a number below the one [minPrice] converts to, List
    answers 200 with the empty sequence: no price is within an empty
    range. *)
Theorem list_empty_range products minPrice maxPrice :
  query_param minPrice → query_param maxPrice →
  given minPrice = true → given maxPrice = true →
  Num.lt (to_number maxPrice) (to_number minPrice) = true →
  get_products products minPrice maxPrice
  = (Response 200 (ProductsBody []), products).
Proof.
  intros Hmin Hmax Hgmin Hgmax Hlt. rewrite get_products_query by done.
  do 3 f_equal. apply filter_none. intros p _. unfold in_range.
  rewrite Hgmin, Hgmax. intros [Hge Hle]%andb_true_iff.
  by rewrite (le_lt_false _ _ (le_trans _ _ _ Hge Hle)) in Hlt.
Qed.

Lemma list_empty_range_witness :
  query_param (JStr "20000") ∧ query_param (JStr "10000")
  ∧ get_products initial_products (JStr "20000") (JStr "10000")
    = (Response 200 (ProductsBody []), initial_products).
Proof.
  assert (query_param (JStr "20000")) as Hmin by (right; reflexivity).
  assert (query_param (JStr "10000")) as Hmax by (right; reflexivity).
  split_and!; [exact Hmin|exact Hmax|].
  by apply (list_empty_range initial_products _ _ Hmin Hmax).
Defined.

(** X15.  Tightening the bounds of List gives a subsequence of the wider
    result: when every bound that is given in the first query is given
    in the second with a [minPrice] that is not lower and a [maxPrice]
    that is not higher, the second result is a subsequence of the first,
    in the same order. *)
Theorem list_tighter_bounds products lo hi lo' hi' :
  query_param lo → query_param hi → query_param lo' → query_param hi' →
  (given lo = true →
     given lo' = true ∧ Num.le (to_number lo) (to_number lo') = true) →
  (given hi = true →
     given hi' = true ∧ Num.le (to_number hi') (to_number hi) = true) →
  ∃ wide tight,
    get_products products lo hi = (Response 200 (ProductsBody wide), products)
    ∧ get_products products lo' hi'
      = (Response 200 (ProductsBody tight), products)
    ∧ tight `sublist_of` wide.
Proof.
  intros Hlo Hhi Hlo' Hhi' Hmin Hmax.
  rewrite !get_products_query by done. eexists _, _.
  split_and!; [done|done|].
  apply sublist_filter_impl. intros p _. unfold in_range.
  intros [Hp Hq]%andb_true_iff. apply andb_true_iff. split.
  - destruct (given lo); [|done]. destruct Hmin as [Hg Hle]; [done|].
    rewrite Hg in Hp. by apply (le_trans _ (to_number lo')).
  - destruct (given hi); [|done]. destruct Hmax as [Hg Hle]; [done|].
    rewrite Hg in Hq. by apply (le_trans _ (to_number hi')).
Qed.

Lemma list_tighter_bounds_witness :
  ∃ wide tight,
    get_products initial_products (JStr "5000") JUndefined
    = (Response 200 (ProductsBody wide), initial_products)
    ∧ get_products initial_products (JStr "10000") (JStr "60000")
      = (Response 200 (ProductsBody tight), initial_products)
    ∧ tight `sublist_of` wide.
Proof.
  apply list_tighter_bounds;
    [by right|by left|by right|by right| |intros Hg; discriminate Hg].
  intros _. split; reflexivity.
Defined.

(** ** Exceptions and status codes *)

Lemma throws_not_undefined p :
  to_primitive_throws p = true → is_undefined p = false.
Proof. by destruct p. Qed.

(** X16.  When the name is truthy and the price is an object, or an
    array that holds one, whose own key [toString] hides the inherited
    method, the conversion of the price throws: Create and Replace end
    in an uncaught TypeError with the catalog unchanged, and Patch ends
    in it after it has assigned the name to the record. *)
Theorem conversion_throws products now offset s n p :
  ToBoolean n = true → to_primitive_throws p = true →
  post_products products now offset n p = (Uncaught, products)
  ∧ ∀ i q, findProductById products s = Some (i, q) →
      put_product products s n p = (Uncaught, products)
      ∧ patch_product products s n p
        = (Uncaught,
           <[i := {| id := id q; name := n; price := price q |}]> products).
Proof.
  intros Hn Hthrow. pose proof (throws_not_undefined _ Hthrow) as Hp.
  assert (is_undefined n = false) as Hn' by (by destruct n).
  split.
  - unfold post_products, ToNumber. by rewrite Hn, Hp, Hthrow.
  - intros i q Hfind.
    rewrite (put_product_found _ _ _ _ _ _ Hfind).
    rewrite (patch_product_found _ _ _ _ _ _ Hfind).
    unfold ToNumber. by rewrite Hn, Hn', Hp, Hthrow.
Qed.

Lemma conversion_throws_witness :
  ToBoolean (JStr "A") = true
  ∧ to_primitive_throws (JArr [JObj [("toString", JNull)]]) = true
  ∧ (patch_product initial_products "1" (JStr "A")
       (JArr [JObj [("toString", JNull)]])).1 = Uncaught.
Proof.
  split_and!; [reflexivity|reflexivity|].
  destruct (conversion_throws initial_products 0 0 "1" (JStr "A")
              (JArr [JObj [("toString", JNull)]]) eq_refl eq_refl)
    as [_ Hfound].
  destruct (Hfound 0%nat
              {| id := Num.of_Z 1; name := JStr "Смартфон X Pro";
                 price := Num.of_Z 49990 |} eq_refl) as [_ Hpatch].
  by rewrite Hpatch.
Defined.

Lemma status_range products req :
  let r := handle products req in
  r.1 = Uncaught ∨ status r.1 = Some 200 ∨ status r.1 = Some 201
   ∨ status r.1 = Some 400 ∨ status r.1 = Some 404.
Proof.
  destruct req as [now offset n p|lo hi|s|s n p|s n p|s|]; simpl.
  - unfold post_products.
    destruct (negb (ToBoolean n) || is_undefined p); [naive_solver|].
    destruct (ToNumber p) as [x|]; [|naive_solver].
    destruct (Num.is_nan x || Num.lt x Num.pzero); naive_solver.
  - unfold get_products. destruct (_ ≫= _); naive_solver.
  - unfold get_product. destruct (findProductById _ _) as [[? ?]|]; naive_solver.
  - unfold put_product.
    destruct (findProductById _ _) as [[? ?]|]; [|naive_solver].
    destruct (negb (ToBoolean n) || is_undefined p); [naive_solver|].
    destruct (ToNumber p) as [x|]; [|naive_solver].
    destruct (Num.is_nan x || Num.lt x Num.pzero); naive_solver.
  - unfold patch_product.
    destruct (findProductById _ _) as [[? ?]|]; [|naive_solver].
    destruct (is_undefined p); [naive_solver|].
    destruct (ToNumber p) as [x|]; [|naive_solver].
    destruct (Num.is_nan x || Num.lt x Num.pzero); naive_solver.
  - unfold delete_product.
    destruct (findProductById _ _) as [[? ?]|]; naive_solver.
  - naive_solver.
Qed.

Lemma status_201 products req :
  status (handle products req).1 = Some 201 → is_post req = true.
Proof.
  destruct req as [now offset n p|lo hi|s|s n p|s n p|s|]; simpl; try done.
  - unfold get_products. by destruct (_ ≫= _).
  - unfold get_product. by destruct (findProductById _ _) as [[? ?]|].
  - unfold put_product.
    destruct (findProductById _ _) as [[? ?]|]; [|done].
    destruct (negb (ToBoolean n) || is_undefined p); [done|].
    destruct (ToNumber p) as [x|]; [|done].
    by destruct (Num.is_nan x || Num.lt x Num.pzero).
  - unfold patch_product.
    destruct (findProductById _ _) as [[? ?]|]; [|done].
    destruct (is_undefined p); [done|].
    destruct (ToNumber p) as [x|]; [|done].
    by destruct (Num.is_nan x || Num.lt x Num.pzero).
  - unfold delete_product.
    by destruct (findProductById _ _) as [[? ?]|].
Qed.

Lemma status_post products req :
  is_post req = true → status (handle products req).1 ≠ Some 200.
Proof.
  destruct req as [now offset n p|lo hi|s|s n p|s n p|s|]; simpl; try done.
  intros _. unfold post_products.
  destruct (negb (ToBoolean n) || is_undefined p); [done|].
  destruct (ToNumber p) as [x|]; [|done].
  by destruct (Num.is_nan x || Num.lt x Num.pzero).
Qed.

Lemma status_404 products req :
  status (handle products req).1 = Some 404
  ↔ ∃ s, id_param_of req = Some s ∧ found products s = None.
Proof.
  unfold found.
  destruct req as [now offset n p|lo hi|s|s n p|s n p|s|]; simpl.
  - unfold post_products. split; [|by intros (? & ? & ?)].
    destruct (negb (ToBoolean n) || is_undefined p); [done|].
    destruct (ToNumber p) as [x|]; [|done].
    by destruct (Num.is_nan x || Num.lt x Num.pzero).
  - unfold get_products. split; [|by intros (? & ? & ?)].
    by destruct (_ ≫= _).
  - unfold get_product.
    destruct (findProductById products s) as [[? ?]|] eqn:Hfind; simpl.
    + split; [done|]. intros (? & [= <-] & Hnone). by rewrite Hfind in Hnone.
    + split; [|done]. intros _. exists s. by rewrite Hfind.
  - unfold put_product.
    destruct (findProductById products s) as [[? ?]|] eqn:Hfind; simpl.
    + split; [|intros (? & [= <-] & Hnone); by rewrite Hfind in Hnone].
      destruct (negb (ToBoolean n) || is_undefined p); [done|].
      destruct (ToNumber p) as [x|]; [|done].
      by destruct (Num.is_nan x || Num.lt x Num.pzero).
    + split; [|done]. intros _. exists s. by rewrite Hfind.
  - unfold patch_product.
    destruct (findProductById products s) as [[? ?]|] eqn:Hfind; simpl.
    + split; [|intros (? & [= <-] & Hnone); by rewrite Hfind in Hnone].
      destruct (is_undefined p); [done|].
      destruct (ToNumber p) as [x|]; [|done].
      by destruct (Num.is_nan x || Num.lt x Num.pzero).
    + split; [|done]. intros _. exists s. by rewrite Hfind.
  - unfold delete_product.
    destruct (findProductById products s) as [[? ?]|] eqn:Hfind; simpl.
    + split; [done|]. intros (? & [= <-] & Hnone). by rewrite Hfind in Hnone.
    + split; [|done]. intros _. exists s. by rewrite Hfind.
  - split; [done|by intros (? & ? & ?)].
Qed.

(** X17.  The status codes of the service, for a request whose body,
    where the handler reads one, has been parsed to an object.  A request
    that is answered is answered 200, 201, 400 or 404.  The answer is 201
    only for a creation, and a creation is never answered 200.  It is 404
    exactly when the request is on one product and no product has the id
    of its id parameter. *)
Theorem response_statuses products req :
  let r := handle products req in
  (r.1 = Uncaught ∨ status r.1 = Some 200 ∨ status r.1 = Some 201
   ∨ status r.1 = Some 400 ∨ status r.1 = Some 404)
  ∧ (status r.1 = Some 201 → is_post req = true)
  ∧ (is_post req = true → status r.1 ≠ Some 200)
  ∧ (status r.1 = Some 404
     ↔ ∃ s, id_param_of req = Some s ∧ found products s = None).
Proof.
  intros r. subst r. split_and!.
  - apply status_range.
  - apply status_201.
  - apply status_post.
  - apply status_404.
Qed.

Lemma response_statuses_witness :
  found initial_products "9" = None
  ∧ status (handle initial_products (PutProduct "9" (JStr "N") (JStr "1"))).1
    = Some 404.
Proof.
  split; [reflexivity|].
  destruct (response_statuses initial_products
              (PutProduct "9" (JStr "N") (JStr "1")))
    as (_ & _ & _ & H404).
  apply H404. by exists "9".
Defined.

(** ** Ids and bounds written as decimal integers *)

Ltac digit_cases h Hh :=
  assert (h = 49 ∨ h = 50 ∨ h = 51 ∨ h = 52 ∨ h = 53 ∨ h = 54 ∨ h = 55
          ∨ h = 56 ∨ h = 57) as Hcases by lia;
  clear Hh;
  destruct Hcases as [->|[->|[->|[->|[->|[->|[->|[->| ->]]]]]]]].

Lemma skip_ws_digit h l : 49 <= h <= 57 → Str.skip_ws (h :: l) = h :: l.
Proof.
  intros Hh. digit_cases h Hh;
    (destruct l as [|c2 [|c3 l]]; reflexivity).
Qed.

Lemma parseInt_dec n t :
  0 < n → starts_with_digit t = false →
  Str.parseInt (Str.dec n +:+ t) = Num.of_Z n.
Proof.
  intros Hn Ht. destruct (dec_spec n Hn) as (h & ds & Hcodes & Hh & Hdigits).
  unfold Str.parseInt. rewrite codes_app, Hcodes. simpl app.
  rewrite skip_ws_digit by done.
  assert (Str.sign (h :: ds ++ Str.codes t) = (false, h :: ds ++ Str.codes t))
    as -> by (digit_cases h Hh; reflexivity).
  assert (match h :: ds ++ Str.codes t with
          | 48 :: c :: r' =>
              if (c =? 120) || (c =? 88) then (16, r')
              else (10, h :: ds ++ Str.codes t)
          | _ => (10, h :: ds ++ Str.codes t)
          end = (10, h :: ds ++ Str.codes t)) as ->
    by (digit_cases h Hh; reflexivity).
  rewrite Hdigits, digits_stop by done.
  destruct (Z.eqb_spec (0 + Z.of_nat (length (h :: ds))) 0) as [Hlen|_];
    [simpl in Hlen; lia|].
  destruct (Z.eqb_spec (0 * 10 ^ Z.of_nat (length (h :: ds)) + n) 0); [lia|].
  f_equal; lia.
Qed.


Lemma append_empty_r (s : string) : s +:+ "" = s.
Proof.
  induction s as [|c s IH]; [done|].
  change (String c s +:+ "") with (String c (s +:+ "")). by rewrite IH.
Qed.

(** X18.  For every positive integer [n] and every text that does not
    start with a decimal digit, the id string made of the decimal digits
    of [n] followed by the text is parsed as [n]: GetById, ReplaceById,
    PatchById and DeleteById do with it exactly what they do with the
    digits alone, and a record they find has an id equal to [n]. *)
Theorem lookup_decimal_prefix products n t body_name body_price :
  0 < n → starts_with_digit t = false →
  let s := Str.dec n +:+ t in
  Str.parseInt s = Num.of_Z n
  ∧ get_product products s = get_product products (Str.dec n)
  ∧ put_product products s body_name body_price
    = put_product products (Str.dec n) body_name body_price
  ∧ patch_product products s body_name body_price
    = patch_product products (Str.dec n) body_name body_price
  ∧ delete_product products s = delete_product products (Str.dec n)
  ∧ (∀ q, found products s = Some q → Num.eq (id q) (Num.of_Z n) = true).
Proof.
  intros Hn Ht s.
  assert (Str.parseInt s = Num.of_Z n) as Hs by (by apply parseInt_dec).
  assert (Str.parseInt (Str.dec n) = Num.of_Z n) as Hdec.
  { rewrite <- (append_empty_r (Str.dec n)). by apply parseInt_dec. }
  assert (findProductById products s = findProductById products (Str.dec n))
    as Hfind by (unfold findProductById; by rewrite Hs, Hdec).
  split_and!; [done| | | | |].
  - unfold get_product. by rewrite Hfind.
  - unfold put_product. by rewrite Hfind.
  - unfold patch_product. by rewrite Hfind.
  - unfold delete_product. by rewrite Hfind.
  - unfold found. intros q Hq.
    destruct (findProductById products s) as [[i q']|] eqn:Hq'; [|done].
    injection Hq as ->. apply list_find_Some in Hq' as (_ & Heq & _).
    by rewrite <- Hs.
Qed.

Lemma lookup_decimal_prefix_witness :
  starts_with_digit "abc" = false
  ∧ get_product initial_products (Str.dec 2 +:+ "abc")
    = (Response 200
         (ProductBody {| id := Num.of_Z 2; name := JStr "Ноутбук Ultra 15";
                         price := Num.of_Z 89990 |}),
       initial_products).
Proof.
  split; [reflexivity|].
  destruct (lookup_decimal_prefix initial_products 2 "abc" JUndefined JUndefined
              ltac:(lia) eq_refl) as (_ & Hget & _).
  rewrite Hget. reflexivity.
Defined.




(** ** Sums and conversions stay at or above zero *)


(** X20.  In every catalog the server can be in, the [totalValue] of the
    summary is a number that is at least 0: a sum of prices that are not
    negative can round and can overflow to infinity, and it is never NaN
    and never negative. *)
Theorem total_value_nonneg products :
  reachable products →
  ∃ s, (get_summary products).1 = Response 200 (SummaryBody s)
    ∧ Num.ge (totalValue s) Num.pzero = true
    ∧ Num.is_nan (totalValue s) = false.
Proof.
  intros Hvalid%reachable_valid. eexists. split; [reflexivity|]. simpl.
  assert (Num.ge (fold_left (λ sum p, Num.add sum (price p)) products Num.pzero)
            Num.pzero = true) as Hge by (by apply fold_add_nonneg).
  split; [done|].
  by destruct (fold_left _ products Num.pzero).
Qed.

Lemma total_value_nonneg_witness :
  reachable huge_products
  ∧ ∃ s, (get_summary huge_products).1 = Response 200 (SummaryBody s)
      ∧ Num.ge (totalValue s) Num.pzero = true.
Proof.
  assert (reachable huge_products) as Hreach.
  { refine (reachable_handle initial_products huge_request reachable_initial _).
    cbv [valid_request huge_request]. lia. }
  split; [exact Hreach|].
  destruct (total_value_nonneg huge_products Hreach) as (s & Hs & Hge & _).
  by exists s.
Defined.


